(** * sJSON: a relaxed JSON parser, its tree and its serializer

    A shallow embedding of [sjson.cpp] / [sjson.h] and the properties stated
    about it.

    - A C string is the list of its bytes before the terminating NUL; a
      [const char *] into it is the suffix that starts at the pointed byte,
      so [[]] is the position of the terminator.  Reading one byte further
      is a fault ([OutOfBounds]), dereferencing a null pointer is a fault
      ([NullDeref]).
    - The parser and the serializer work on the document tree: the chain a
      node's [child] pointer starts is the list of its children, in order.
    - The functions that relink chains (get / add / detach) are modelled on
      an explicit store of nodes with their [next], [prev] and [child]
      pointers (module [Chain]).
    - Memory allocation is assumed to succeed.
    - [eastl::murmurString], [pow] and the [printf] conversions of doubles
      come from outside the repository and are parameters of the model. *)

From Stdlib Require Import ZArith List Lia Bool String Ascii Floats.
From stdpp Require Import gmap list.
Import ListNotations.
Open Scope Z_scope.

#[local] Set Warnings "-register-all".

(** ** Text *)

Definition cursor := list Z.

(** [*p] *)
Definition cur (p : cursor) : Z := hd 0 p.

(** a byte is tested for truth: [*p &&] ... *)
Definition nz (c : Z) : bool := negb (c =? 0).

Definition str (s : string) : list Z :=
  map (fun a => Z.of_N (N_of_ascii a)) (list_ascii_of_string s).

(** the bytes of a NUL-terminated string: none is NUL, all are bytes *)
Definition cstring (s : list Z) : Prop := Forall (fun c => 1 <= c <= 255) s.

Definition is_cstring (s : list Z) : bool :=
  forallb (fun c => (1 <=? c) && (c <=? 255)) s.

(** the C string a buffer holds: its bytes up to the first NUL *)
Fixpoint cstr (buf : list Z) : list Z :=
  match buf with
  | [] => []
  | c :: r => if c =? 0 then [] else c :: cstr r
  end.

(** ** Outcomes *)

Inductive fault := NullDeref | OutOfBounds | BufferOverflow | Uninitialised | IntOverflow.

(** [Ok a]: the call returns [a]; [Null]: it returns 0; [Fault]: it runs
    into undefined behaviour; [NoFuel]: the model ran out of steps. *)
Inductive res (A : Type) : Type :=
| Ok (a : A)
| Null
| Fault (f : fault)
| NoFuel.
Arguments Ok {A} a.
Arguments Null {A}.
Arguments Fault {A} f.
Arguments NoFuel {A}.

Definition rbind {A B} (r : res A) (k : A -> res B) : res B :=
  match r with
  | Ok a => k a
  | Null => Null
  | Fault f => Fault f
  | NoFuel => NoFuel
  end.

(** The parser's only global state is [ep], the error pointer. *)
Definition M (A : Type) : Type := option cursor -> res A * option cursor.

Definition ret {A} (a : A) : M A := fun ep => (Ok a, ep).

Definition bind {A B} (m : M A) (k : A -> M B) : M B :=
  fun ep =>
    match m ep with
    | (Ok a, ep') => k a ep'
    | (Null, ep') => (Null, ep')
    | (Fault f, ep') => (Fault f, ep')
    | (NoFuel, ep') => (NoFuel, ep')
    end.

Definition lift {A} (r : res A) : M A := fun ep => (r, ep).

(** [ep = p; return 0;] *)
Definition fail_at {A} (p : cursor) : M A := fun _ => (Null, Some p).

Notation "x <- m ;; k" := (bind m (fun x => k))
  (at level 60, m at next level, right associativity).

(** ** skip: whitespace and comments (sjson.cpp 313-342) *)

(** [while (in && *in && (unsigned char)*in<=32) ++in;] *)
Fixpoint skip_ws (p : cursor) : cursor :=
  match p with
  | [] => []
  | c :: r => if nz c && (c <=? 32) then skip_ws r else p
  end.

(** [while (in[0] && in[0] != 10 && in[0] != 13) ++in;] *)
Fixpoint skip_line (p : cursor) : cursor :=
  match p with
  | [] => []
  | c :: r => if nz c && (negb (c =? 10) && negb (c =? 13)) then skip_line r else p
  end.

(** The block-comment scan, from the label [find_next] to [in += 2].
    With [in] on the terminator, the read of [in[1]] is past it.  With [in] on a
    star that the terminator follows, [in += 2] steps past the terminator
    and the outer loop reads [*in] there: the fault is reported here. *)
Fixpoint skip_block (p : cursor) : res cursor :=
  match p with
  | [] => Fault OutOfBounds
  | c :: r =>
      if nz c && negb (c =? 42) then skip_block r
      else
        match r with
        | [] => Fault OutOfBounds
        | c1 :: r1 =>
            if nz c1 && negb (c1 =? 47) then skip_block r
            else Ok r1
        end
  end.

Fixpoint skip_loop (n : nat) (p : cursor) : res cursor :=
  match n with
  | O => NoFuel
  | S n =>
      let p := skip_ws p in
      if nz (cur p) && (cur p =? 47) then
        if nz (cur (tl p)) && (cur (tl p) =? 47) then skip_loop n (skip_line p)
        else if nz (cur (tl p)) && (cur (tl p) =? 42) then
          rbind (skip_block p) (skip_loop n)
        else Ok p
      else Ok p
  end.

(** [skip(in)]: a null [in] passes the guard of the first loop and is then
    dereferenced by the test of [*in] that follows it. *)
Definition skip (inp : option cursor) : res cursor :=
  match inp with
  | None => Fault NullDeref
  | Some p => skip_loop (S (length p)) p
  end.

(** ** The node (sjson.h 27-66), as the parser and the serializer see it *)

Definition sJSON_False : Z := 0.
Definition sJSON_True : Z := 1.
Definition sJSON_NULL : Z := 2.
Definition sJSON_Number : Z := 3.
Definition sJSON_String : Z := 4.
Definition sJSON_Array : Z := 5.
Definition sJSON_Object : Z := 6.
Definition sJSON_IsReference : Z := 256.

(** [next] and [prev] are implicit in the position a node has in the list
    of its parent's children; [nameString] exists with
    WRITE_SUPPORT_ENABLED, which the serializer needs. *)
Inductive sJSON : Type := mk_sJSON {
  type : Z;
  valueString : option (list Z);
  valueInt : Z;
  valueDouble : float;
  nameString : option (list Z);
  nameHash : Z;
  child : list sJSON
}.

(** [sJSON_New_Item]: a node of zeroes *)
Definition sJSON_New_Item : sJSON :=
  mk_sJSON 0 None 0 0%float None 0 [].

Definition set_type (x : Z) (i : sJSON) : sJSON :=
  mk_sJSON x (valueString i) (valueInt i) (valueDouble i) (nameString i) (nameHash i) (child i).
Definition set_valueString (x : option (list Z)) (i : sJSON) : sJSON :=
  mk_sJSON (type i) x (valueInt i) (valueDouble i) (nameString i) (nameHash i) (child i).
Definition set_valueInt (x : Z) (i : sJSON) : sJSON :=
  mk_sJSON (type i) (valueString i) x (valueDouble i) (nameString i) (nameHash i) (child i).
Definition set_valueDouble (x : float) (i : sJSON) : sJSON :=
  mk_sJSON (type i) (valueString i) (valueInt i) x (nameString i) (nameHash i) (child i).
Definition set_nameString (x : option (list Z)) (i : sJSON) : sJSON :=
  mk_sJSON (type i) (valueString i) (valueInt i) (valueDouble i) x (nameHash i) (child i).
Definition set_nameHash (x : Z) (i : sJSON) : sJSON :=
  mk_sJSON (type i) (valueString i) (valueInt i) (valueDouble i) (nameString i) x (child i).
Definition set_child (x : list sJSON) (i : sJSON) : sJSON :=
  mk_sJSON (type i) (valueString i) (valueInt i) (valueDouble i) (nameString i) (nameHash i) x.

(** ** The C library functions the code calls, after ISO C *)

(** [strncmp(s1, s2, n)] *)
Fixpoint strncmp (s1 s2 : list Z) (n : nat) : Z :=
  match n with
  | O => 0
  | S n =>
      if negb (cur s1 =? cur s2) then cur s1 - cur s2
      else if cur s1 =? 0 then 0
      else strncmp (tl s1) (tl s2) n
  end.

Definition isspace (c : Z) : bool := (c =? 32) || ((9 <=? c) && (c <=? 13)).

Definition hex_val (c : Z) : option Z :=
  if (48 <=? c) && (c <=? 57) then Some (c - 48)
  else if (97 <=? c) && (c <=? 102) then Some (c - 87)
  else if (65 <=? c) && (c <=? 70) then Some (c - 55)
  else None.

Fixpoint drop_space (s : list Z) : list Z :=
  match s with
  | c :: r => if isspace c then drop_space r else s
  | [] => []
  end.

(** the hexadecimal digits at the head of [s], at most [w] of them *)
Fixpoint scan_hex (w : nat) (s : list Z) (acc : option Z) : option Z :=
  match w, s with
  | S w, c :: r =>
      match hex_val c with
      | Some d => scan_hex w r (Some (16 * default 0 acc + d))
      | None => acc
      end
  | _, _ => acc
  end.

(** [sscanf(s, "%4x", &uc)]: white space is skipped, then a field of at
    most four bytes is read: an optional sign, an optional 0x, hexadecimal
    digits.  [None]: nothing is converted and [uc] is left as it was. *)
Definition sscanf_4x (s : list Z) : option Z :=
  let s := drop_space s in
  let '(neg, w, s) :=
    if cur s =? 45 then (true, 3%nat, tl s)
    else if cur s =? 43 then (false, 3%nat, tl s)
    else (false, 4%nat, s) in
  let '(w, s) :=
    if (cur s =? 48) && ((cur (tl s) =? 120) || (cur (tl s) =? 88)) && (2 <=? w)%nat
    then ((w - 2)%nat, tl (tl s)) else (w, s) in
  match scan_hex w s None with
  | Some v => Some (if neg then (2 ^ 32 - v) mod 2 ^ 32 else v)
  | None => None
  end.

Definition hex_digit (d : Z) : Z := if d <? 10 then 48 + d else 87 + d.

(** [sprintf(buf, "%04x", v)] for [0 <= v < 65536] *)
Definition fmt_04x (v : Z) : list Z :=
  [hex_digit (v / 4096 mod 16); hex_digit (v / 256 mod 16);
   hex_digit (v / 16 mod 16); hex_digit (v mod 16)].

Fixpoint dec_digits (k : nat) (n : Z) (acc : list Z) : list Z :=
  match k with
  | O => acc
  | S k => if n <? 10 then (48 + n) :: acc
           else dec_digits k (n / 10) ((48 + n mod 10) :: acc)
  end.

(** [sprintf(buf, "%d", v)] *)
Definition fmt_d (v : Z) : list Z :=
  if v <? 0 then 45 :: dec_digits (S (Z.to_nat (Z.log2 (- v)))) (- v) []
  else dec_digits (S (Z.to_nat (Z.log2 v))) v [].

(** ** Strings (sjson.cpp 155-300) *)

(** the first loop of [parse_string]: the length to allocate.  A backslash
    just before the terminator makes [ptr] step over it. *)
Fixpoint measure (ptr : cursor) (len : Z) : res Z :=
  match ptr with
  | [] => Ok len
  | c :: p1 =>
      if negb (c =? 34) && nz c then
        if c =? 92 then
          match p1 with
          | [] => Fault OutOfBounds
          | _ :: p2 => measure p2 (len + 1)
          end
        else measure p1 (len + 1)
      else Ok len
  end.

Definition firstByteMark (len : Z) : Z :=
  nth (Z.to_nat len) [0; 0; 192; 224; 240; 248; 252] 0.

(** a value stored into a [char] *)
Definition to_char (x : Z) : Z := Z.land x 255.

(** the [case 'u'] of [parse_string]: the bytes written for [uc], and [uc]
    as the shifts leave it *)
Definition utf8 (uc : Z) : list Z * Z :=
  let len := if uc <? 128 then 1 else if uc <? 2048 then 2 else 3 in
  if len =? 3 then
    let b3 := to_char (Z.land (Z.lor uc 128) 191) in
    let uc := Z.shiftr uc 6 in
    let b2 := to_char (Z.land (Z.lor uc 128) 191) in
    let uc := Z.shiftr uc 6 in
    ([to_char (Z.lor uc (firstByteMark len)); b2; b3], uc)
  else if len =? 2 then
    let b2 := to_char (Z.land (Z.lor uc 128) 191) in
    let uc := Z.shiftr uc 6 in
    ([to_char (Z.lor uc (firstByteMark len)); b2], uc)
  else ([to_char (Z.lor uc (firstByteMark len))], uc).

(** the second loop of [parse_string]: the bytes written to [out] and the
    final [ptr].  [uc] is [None] until [sscanf] has set it. *)
Fixpoint decode (ptr : cursor) (uc : option Z) : res (list Z * cursor) :=
  match ptr with
  | [] => Ok ([], [])
  | c :: p1 =>
      if negb (c =? 34) && nz c then
        if negb (c =? 92) then
          rbind (decode p1 uc) (fun r => Ok (c :: fst r, snd r))
        else
          match p1 with
          | [] => Fault OutOfBounds
          | e :: p2 =>
              let emit b := rbind (decode p2 uc) (fun r => Ok (b :: fst r, snd r)) in
              if e =? 98 then emit 8
              else if e =? 102 then emit 12
              else if e =? 110 then emit 10
              else if e =? 114 then emit 13
              else if e =? 116 then emit 9
              else if e =? 117 then
                match (match sscanf_4x p2 with Some v => Some v | None => uc end) with
                | None => Fault Uninitialised
                | Some u =>
                    match p2 with
                    | _ :: _ :: _ :: _ :: p6 =>
                        rbind (decode p6 (Some (snd (utf8 u))))
                              (fun r => Ok (fst (utf8 u) ++ fst r, snd r))
                    | _ => Fault OutOfBounds
                    end
                end
              else emit e
          end
      else Ok ([], ptr)
  end.

(** the UTF-8 encoding of a code point below 65536, in one to three bytes *)
Definition utf8_encode (cp : Z) : list Z :=
  if cp <? 128 then [cp]
  else if cp <? 2048 then [192 + cp / 64; 128 + cp mod 64]
  else [224 + cp / 4096; 128 + cp / 64 mod 64; 128 + cp mod 64].

(** the byte a two-byte escape stands for: b f n r t, backslash, quote *)
Definition simple_escape (e : Z) : option Z :=
  if e =? 98 then Some 8
  else if e =? 102 then Some 12
  else if e =? 110 then Some 10
  else if e =? 114 then Some 13
  else if e =? 116 then Some 9
  else if e =? 92 then Some 92
  else if e =? 34 then Some 34
  else None.

(** [parse_string(item, str)] *)
Definition parse_string (item : sJSON) (s : cursor) : M (sJSON * cursor) :=
  if negb (cur s =? 34) then fail_at s
  else
    len <- lift (measure (tl s) 0) ;;
    r <- lift (decode (tl s) None) ;;
    if Z.of_nat (length (fst r)) <=? len then
      let ptr := if cur (snd r) =? 34 then tl (snd r) else snd r in
      ret (set_type sJSON_String (set_valueString (Some (cstr (fst r))) item), ptr)
    else lift (Fault BufferOverflow).

Definition ident_char (c : Z) : bool :=
  nz c && ((c =? 95) || ((97 <=? c) && (c <=? 122)) || ((65 <=? c) && (c <=? 90))
           || ((48 <=? c) && (c <=? 57))).

Fixpoint ident (ptr : cursor) : list Z * cursor :=
  match ptr with
  | [] => ([], [])
  | c :: r => if ident_char c then (c :: fst (ident r), snd (ident r)) else ([], ptr)
  end.

(** [parse_string_or_identifier(item, str)] *)
Definition parse_string_or_identifier (item : sJSON) (s : cursor) : M (sJSON * cursor) :=
  if cur s =? 34 then parse_string item s
  else
    let c := cur s in
    if (c =? 95) || ((97 <=? c) && (c <=? 122)) || ((65 <=? c) && (c <=? 90)) then
      ret (set_type sJSON_String (set_valueString (Some (fst (ident s))) item), snd (ident s))
    else fail_at s.

(** [print_string_ptr(str)], without the terminator *)
Fixpoint escape (s : list Z) : list Z :=
  match s with
  | [] => []
  | c :: r =>
      if (31 <? c) && negb (c =? 34) && negb (c =? 92) then c :: escape r
      else
        92 :: (if c =? 92 then [92]
               else if c =? 34 then [34]
               else if c =? 8 then [98]
               else if c =? 12 then [102]
               else if c =? 10 then [110]
               else if c =? 13 then [114]
               else if c =? 9 then [116]
               else 117 :: fmt_04x c) ++ escape r
  end.

Definition print_string_ptr (s : option (list Z)) : list Z :=
  match s with
  | None => []
  | Some s => 34 :: escape s ++ [34]
  end.

Definition print_string (item : sJSON) : list Z := print_string_ptr (valueString item).

(** text with double quotes written as apostrophes, for the examples *)
Definition qstr (s : string) : list Z :=
  map (fun c => if c =? 39 then 34 else c) (str s).

(** ** Numbers (sjson.cpp 109-151) *)

Definition INT_MAX : Z := 2147483647.
Definition INT_MIN : Z := -2147483648.
Definition DBL_EPSILON : float := 0x1p-52%float.

(** an [int] converted to [double] *)
Definition double_of_int (z : Z) : float :=
  if z <? 0 then PrimFloat.opp (PrimFloat.of_uint63 (Uint63.of_Z (- z)))
  else PrimFloat.of_uint63 (Uint63.of_Z z).

(** the integer a finite double truncates to *)
Definition trunc (d : float) : option Z :=
  match Prim2SF d with
  | S754_zero _ => Some 0
  | S754_finite s m e =>
      let v := if 0 <=? e then Z.pos m * 2 ^ e else Z.pos m / 2 ^ (- e) in
      Some (if s then - v else v)
  | _ => None
  end.

(** [floor(d)] *)
Definition floor (d : float) : float :=
  match Prim2SF d with
  | S754_finite s m e =>
      if 0 <=? e then d
      else
        let q := Z.pos m / 2 ^ (- e) in
        if s then
          double_of_int (if Z.pos m mod 2 ^ (- e) =? 0 then - q else - q - 1)
        else double_of_int q
  | _ => d
  end.

Definition is_digit (c : Z) : bool := (48 <=? c) && (c <=? 57).

(** [do n = n*10.0 + (num[0]-'0'), num++; while (num[0]>='0' && num[0]<='9');],
    entered on a digit *)
Fixpoint int_digits (p : cursor) (n : float) : float * cursor :=
  match p with
  | [] => (n, [])
  | c :: r =>
      if is_digit c
      then int_digits r (PrimFloat.add (PrimFloat.mul n 10%float) (double_of_int (c - 48)))
      else (n, p)
  end.

Fixpoint frac_digits (p : cursor) (n scale : float) : float * float * cursor :=
  match p with
  | [] => (n, scale, [])
  | c :: r =>
      if is_digit c
      then frac_digits r (PrimFloat.add (PrimFloat.mul n 10%float) (double_of_int (c - 48)))
                       (PrimFloat.sub scale 1%float)
      else (n, scale, p)
  end.

(** the fractional part, [num] just after the point: the body of the
    do-while runs once whatever the byte is; on the terminator it steps
    over it and the loop test reads past it *)
Definition frac_part (p : cursor) (n scale : float) : res (float * float * cursor) :=
  match p with
  | [] => Fault OutOfBounds
  | c :: r =>
      Ok (frac_digits r (PrimFloat.add (PrimFloat.mul n 10%float) (double_of_int (c - 48)))
                      (PrimFloat.sub scale 1%float))
  end.

(** [while (num[0]>='0' && num[0]<='9') subscale = subscale*10 + (num[0]-'0'), num++;]
    in [int] arithmetic *)
Fixpoint exp_digits (p : cursor) (subscale : Z) : res (Z * cursor) :=
  match p with
  | [] => Ok (subscale, [])
  | c :: r =>
      if is_digit c then
        if subscale * 10 + (c - 48) <=? INT_MAX
        then exp_digits r (subscale * 10 + (c - 48))
        else Fault IntOverflow
      else Ok (subscale, p)
  end.

(** [if (num[0]=='-') sign=-1,num++;] *)
Definition scan_sign (num : cursor) : float * cursor :=
  if cur num =? 45 then ((-1)%float, tl num) else (1%float, num).

(** [if (num[0]=='0') num++;] *)
Definition scan_zero (num : cursor) : cursor :=
  if cur num =? 48 then tl num else num.

(** [if (num[0]>='1' && num[0]<='9') do ... while (...);] *)
Definition scan_int (num : cursor) : float * cursor :=
  if (49 <=? cur num) && (cur num <=? 57) then int_digits num 0%float
  else (0%float, num).

(** [if (num[0]=='.') {num++; do ... while (...);}] *)
Definition scan_frac (n : float) (num : cursor) : res (float * float * cursor) :=
  if cur num =? 46 then frac_part (tl num) n 0%float else Ok (n, 0%float, num).

(** the exponent: [subscale], [signsubscale] and the position after it *)
Definition scan_exp (num : cursor) : res (Z * Z * cursor) :=
  if (cur num =? 101) || (cur num =? 69) then
    let num := tl num in
    let '(signsubscale, num) :=
      if cur num =? 43 then (1, tl num)
      else if cur num =? 45 then (-1, tl num) else (1, num) in
    rbind (exp_digits num 0) (fun '(subscale, num) => Ok (subscale, signsubscale, num))
  else Ok (0, 1, num).

(** *** Number literals, as the grammar of JSON has them *)

(** sign, integer digits, fraction digits, exponent (its letter, its sign
    and its digits) *)
Record literal := mk_literal {
  l_neg : bool;
  l_int : list Z;
  l_frac : option (list Z);
  l_exp : option (Z * list Z * list Z)
}.

Definition literal_text (L : literal) : list Z :=
  (if l_neg L then [45] else []) ++ l_int L
  ++ match l_frac L with Some fd => 46 :: fd | None => [] end
  ++ match l_exp L with Some (m, sg, ed) => m :: sg ++ ed | None => [] end.

Definition digits (ds : list Z) : Prop := Forall (fun c => 48 <= c <= 57) ds.

Definition dec_value (ds : list Z) : Z := fold_left (fun s c => s * 10 + (c - 48)) ds 0.

Definition wf_literal (L : literal) : Prop :=
  digits (l_int L)
  /\ (l_int L = [48] \/ exists d ds, l_int L = d :: ds /\ 49 <= d)
  /\ match l_frac L with Some fd => fd <> [] /\ digits fd | None => True end
  /\ match l_exp L with
     | Some (m, sg, ed) =>
         (m = 101 \/ m = 69) /\ (sg = [] \/ sg = [43] \/ sg = [45])
         /\ ed <> [] /\ digits ed /\ dec_value ed <= INT_MAX
     | None => True
     end.

(** the text after a literal does not continue it *)
Definition number_end (rest : cursor) : bool :=
  negb (is_digit (cur rest)) && negb (cur rest =? 46)
  && negb (cur rest =? 101) && negb (cur rest =? 69).

(** the mantissa: the digits accumulated in double arithmetic *)
Definition mantissa (ds : list Z) : float :=
  fold_left (fun n c => PrimFloat.add (PrimFloat.mul n 10%float) (double_of_int (c - 48)))
            ds 0%float.

(** the scale: one negative power of ten for each digit of the fraction *)
Definition scale_of (fd : list Z) : float :=
  fold_left (fun s _ => PrimFloat.sub s 1%float) fd 0%float.

(** the signed exponent *)
Definition exponent_of (L : literal) : Z :=
  match l_exp L with
  | Some (_, sg, ed) => dec_value ed * (if bool_decide (sg = [45]) then -1 else 1)
  | None => 0
  end.

(** a digit accumulated into the mantissa *)
Definition acc_digit (n : float) (c : Z) : float :=
  PrimFloat.add (PrimFloat.mul n 10%float) (double_of_int (c - 48)).

(** the decimal value of digits, continued from [s] *)
Definition dec_from (s : Z) (ds : list Z) : Z :=
  fold_left (fun s c => s * 10 + (c - 48)) ds s.

(** ** The text the serializer writes *)

(** white space, as the serializer writes it between tokens *)
Definition blank (ws : list Z) : Prop := Forall (fun c => 0 < c <= 32) ws.

(** the first byte of a rendered value *)
Definition value_start (c : Z) : bool :=
  (c =? 110) || (c =? 102) || (c =? 116) || (c =? 45) || is_digit c
  || (c =? 91) || (c =? 123) || (c =? 34).

(** what may follow a rendered value *)
Definition value_end (rest : cursor) : bool :=
  (cur rest =? 0) || (cur rest =? 44) || (cur rest =? 93) || (cur rest =? 125)
  || (cur rest =? 10).

Definition value_text (e : list Z) : Prop :=
  exists c r, e = c :: r /\ value_start c = true.

(** the elements after the first, as [print_array] joins them *)
Fixpoint more (fmt : bool) (es : list (list Z)) : list Z :=
  match es with
  | [] => []
  | e :: r => [44] ++ (if fmt then [32] else []) ++ e ++ more fmt r
  end.

(** ** What the code takes from outside the repository *)

Class Externals := {
  (** [eastl::murmurString], a 32-bit hash of a string *)
  murmurString : list Z -> Z;
  (** [pow] of math.h *)
  pow : float -> float -> float;
  (** what the conversion [(int)n] yields when [n] truncates to no [int] *)
  cast_oor : float -> Z;
  (** [sprintf] with "%.0f", "%e" and "%f" *)
  fmt_0f : float -> list Z;
  fmt_e : float -> list Z;
  fmt_f : float -> list Z
}.

Section Model.
Context `{libc : Externals}.

(** [(int)d] *)
Definition double_to_int (d : float) : Z :=
  match trunc d with
  | Some z => if (INT_MIN <=? z) && (z <=? INT_MAX) then z
              else (cast_oor d + 2 ^ 31) mod 2 ^ 32 - 2 ^ 31
  | None => (cast_oor d + 2 ^ 31) mod 2 ^ 32 - 2 ^ 31
  end.

(** sign * mantissa * 10^(scale + exponent) *)
Definition literal_value (L : literal) : float :=
  PrimFloat.mul
    (PrimFloat.mul (if l_neg L then (-1)%float else 1%float)
                   (mantissa (l_int L ++ default [] (l_frac L))))
    (pow 10%float (PrimFloat.add (scale_of (default [] (l_frac L)))
                                 (double_of_int (exponent_of L)))).

(** [parse_number(item, num)], line by line *)
Definition parse_number (item : sJSON) (num : cursor) : res (sJSON * cursor) :=
  let '(sign, num) := scan_sign num in
  let num := scan_zero num in
  let '(n, num) := scan_int num in
  rbind (scan_frac n num) (fun '(n, scale, num) =>
  rbind (scan_exp num) (fun '(subscale, signsubscale, num) =>
  let n := PrimFloat.mul (PrimFloat.mul sign n)
             (pow 10%float (PrimFloat.add scale (double_of_int (subscale * signsubscale)))) in
  Ok (set_type sJSON_Number (set_valueInt (double_to_int n) (set_valueDouble n item)), num))).

(** [sprintf] into a buffer of [size] bytes: the text and its terminator
    have to fit *)
Definition sprintf_into (size : nat) (text : list Z) : res (list Z) :=
  if (length text <? size)%nat then Ok text else Fault BufferOverflow.

(** [print_number(item)]: 21 bytes are allocated for "%d", 64 for the
    conversions of the double *)
Definition print_number (item : sJSON) : res (list Z) :=
  let d := valueDouble item in
  if PrimFloat.leb (PrimFloat.abs (PrimFloat.sub (double_of_int (valueInt item)) d)) DBL_EPSILON
     && PrimFloat.leb d (double_of_int INT_MAX) && PrimFloat.leb (double_of_int INT_MIN) d
  then sprintf_into 21 (fmt_d (valueInt item))
  else if PrimFloat.leb (PrimFloat.abs (PrimFloat.sub (floor d) d)) DBL_EPSILON
  then sprintf_into 64 (fmt_0f d)
  else if PrimFloat.ltb (PrimFloat.abs d) 0x1.0c6f7a0b5ed8dp-20%float
          || PrimFloat.ltb 1000000000%float (PrimFloat.abs d)
  then sprintf_into 64 (fmt_e d)
  else sprintf_into 64 (fmt_f d).

(** ** The parser (sjson.cpp 345-601) *)

(** [skip(f(...))]: a null result of [f] goes into [skip] *)
Definition skip_result {A} (m : M (A * cursor)) : M (A * cursor) :=
  fun ep =>
    match m ep with
    | (Ok (a, v), ep') =>
        (rbind (skip (Some v)) (fun v' => Ok (a, v')), ep')
    | (Null, ep') => (rbind (skip None) (fun v' => @Null (A * cursor)), ep')
    | (Fault f, ep') => (Fault f, ep')
    | (NoFuel, ep') => (NoFuel, ep')
    end.

Definition skipM (p : cursor) : M cursor := lift (skip (Some p)).

Section Builders.

(** [parse_value], as the builders call it *)
Variable pv : sJSON -> option cursor -> M (sJSON * cursor).

(** the loop of [parse_array]: [done] are the nodes linked before [child] *)
Fixpoint array_loop (k : nat) (done : list sJSON) (child : sJSON) (value : cursor)
  : M (list sJSON * cursor) :=
  if negb (cur value =? 93) then
    match k with
    | O => lift NoFuel
    | S k =>
        v <- skipM (if cur value =? 44 then tl value else value) ;;
        r <- skip_result (pv sJSON_New_Item (Some v)) ;;
        array_loop k (done ++ [child]) (fst r) (snd r)
    end
  else ret (done ++ [child], value).

(** [parse_array(item, value)] *)
Definition parse_array (k : nat) (item : sJSON) (value : cursor) : M (sJSON * cursor) :=
  if negb (cur value =? 91) then fail_at value
  else
    let item := set_type sJSON_Array item in
    value <- skipM (tl value) ;;
    if cur value =? 93 then ret (item, tl value)
    else
      v <- skipM value ;;
      r <- skip_result (pv sJSON_New_Item (Some v)) ;;
      l <- array_loop k [] (fst r) (snd r) ;;
      let item := set_child (fst l) item in
      if cur (snd l) =? 93 then ret (item, tl (snd l))
      else fail_at (snd l).

(** one member: the key, its hash, the separator, the value *)
Definition parse_member (v : cursor) : M (sJSON * cursor) :=
  r <- skip_result (parse_string_or_identifier sJSON_New_Item v) ;;
  let child := fst r in
  let value := snd r in
  let child := set_nameHash (murmurString (default [] (valueString child))) child in
  let child := set_nameString (valueString child) child in
  let child := set_valueString None child in
  if negb (cur value =? 58) && negb (cur value =? 61) then fail_at value
  else
    v <- skipM (tl value) ;;
    skip_result (pv child (Some v)).

(** the loop of [parse_object] *)
Fixpoint object_loop (k : nat) (done : list sJSON) (child : sJSON) (value : cursor)
  : M (list sJSON * cursor) :=
  if negb (cur value =? 125) && negb (cur value =? 0) then
    match k with
    | O => lift NoFuel
    | S k =>
        v <- skipM (if cur value =? 44 then tl value else value) ;;
        r <- parse_member v ;;
        object_loop k (done ++ [child]) (fst r) (snd r)
    end
  else ret (done ++ [child], value).

(** [parse_object(item, value)] *)
Definition parse_object (k : nat) (item : sJSON) (value : cursor) : M (sJSON * cursor) :=
  let item := set_type sJSON_Object item in
  if cur value =? 125 then ret (item, tl value)
  else
    v <- skipM value ;;
    r <- parse_member v ;;
    l <- object_loop k [] (fst r) (snd r) ;;
    let item := set_child (fst l) item in
    let value := snd l in
    if cur value =? 0 then ret (item, value)
    else if cur value =? 125 then ret (item, tl value)
    else fail_at value.

End Builders.

(** [parse_value(item, value)] *)
Fixpoint parse_value (n : nat) (item : sJSON) (value : option cursor) : M (sJSON * cursor) :=
  match n with
  | O => lift NoFuel
  | S n =>
      match value with
      | None => lift Null
      | Some value =>
          if strncmp value (str "null") 4 =? 0 then
            ret (set_type sJSON_NULL item, skipn 4 value)
          else if strncmp value (str "false") 5 =? 0 then
            ret (set_type sJSON_False item, skipn 5 value)
          else if strncmp value (str "true") 4 =? 0 then
            ret (set_valueInt 1 (set_type sJSON_True item), skipn 4 value)
          else if (cur value =? 45) || ((48 <=? cur value) && (cur value <=? 57)) then
            lift (parse_number item value)
          else if cur value =? 91 then parse_array (parse_value n) n item value
          else if cur value =? 123 then
            v <- skipM (tl value) ;;
            parse_object (parse_value n) n item v
          else if cur value =? 34 then parse_string item value
          else fail_at value
      end
  end.

(** The dispatch of [parse_value] in the words of the specification: the
    first of the eight cases that matches the text at the cursor. *)
Inductive token := TNull | TFalse | TTrue | TNumber | TArray | TObject | TString | TOther.

Definition starts_with (k v : list Z) : bool := bool_decide (take (length k) v = k).

Definition classify (v : cursor) : token :=
  if starts_with (str "null") v then TNull
  else if starts_with (str "false") v then TFalse
  else if starts_with (str "true") v then TTrue
  else if (cur v =? 45) || is_digit (cur v) then TNumber
  else if cur v =? 91 then TArray
  else if cur v =? 123 then TObject
  else if cur v =? 34 then TString
  else TOther.

(** [sJSONparse(value)]: [ep] is reset, the result is the root or 0 *)
Definition sJSONparse (value : cursor) : res sJSON * option cursor :=
  (let n := S (length value) in
   value <- skipM value ;;
   r <- (if (cur value =? 123) || (cur value =? 91) then
           v <- skipM value ;;
           parse_value n sJSON_New_Item (Some v)
         else
           v <- skipM value ;;
           parse_object (parse_value n) n sJSON_New_Item v) ;;
   ret (fst r)) None.

(** [sJSONgetErrorPtr()] after a parse: the position [ep] holds, as an
    index into the text; [None] is the null pointer *)
Definition sJSONgetErrorPtr (text : cursor) (ep : option cursor) : option Z :=
  match ep with
  | None => None
  | Some p => Some (Z.of_nat (length text) - Z.of_nat (length p))
  end.

(** ** The serializer (sjson.cpp 367-692, WRITE_SUPPORT_ENABLED) *)

(** the renderings of the children of an array: the loop of [print_array]
    stops at the first child that fails *)
Fixpoint collect (l : list (res (list Z))) : res (list (list Z)) :=
  match l with
  | [] => Ok []
  | r :: l => rbind r (fun e => rbind (collect l) (fun es => Ok (e :: es)))
  end.

(** the renderings of the members of an object: the loop of [print_object]
    goes on after a member has failed, and fails at the end *)
Fixpoint collect_all (l : list (res (list Z))) : res (list (list Z)) :=
  match l with
  | [] => Ok []
  | Null :: l => match collect_all l with Ok _ => Null | r => r end
  | r :: l => rbind r (fun e => rbind (collect_all l) (fun es => Ok (e :: es)))
  end.

(** the composition loop of [print_array] *)
Fixpoint join_array (fmt : bool) (entries : list (list Z)) : list Z :=
  match entries with
  | [] => []
  | [e] => e
  | e :: r => e ++ [44] ++ (if fmt then [32] else []) ++ join_array fmt r
  end.

(** the composition loop of [print_object], [depth] already incremented *)
Fixpoint join_object (fmt : bool) (depth : nat) (members : list (list Z * list Z)) : list Z :=
  match members with
  | [] => []
  | (name, entry) :: r =>
      (if fmt then repeat 9 depth else []) ++ name ++ [58] ++ (if fmt then [9] else [])
      ++ entry ++ (match r with [] => [] | _ => [44] end) ++ (if fmt then [10] else [])
      ++ join_object fmt depth r
  end.

(** [print_value(item, depth, fmt)], with [print_array] and [print_object] *)
Fixpoint print_value (item : sJSON) (depth : nat) (fmt : bool) : res (list Z) :=
  let t := Z.land (type item) 255 in
  if t =? sJSON_NULL then Ok (str "null")
  else if t =? sJSON_False then Ok (str "false")
  else if t =? sJSON_True then Ok (str "true")
  else if t =? sJSON_Number then print_number item
  else if t =? sJSON_String then Ok (print_string item)
  else if t =? sJSON_Array then
    rbind (collect (map (fun c => print_value c (S depth) fmt) (child item)))
      (fun entries => Ok ([91] ++ join_array fmt entries ++ [93]))
  else if t =? sJSON_Object then
    rbind (collect_all (map (fun c => print_value c (S depth) fmt) (child item)))
      (fun entries =>
         Ok ([123] ++ (if fmt then [10] else [])
             ++ join_object fmt (S depth)
                  (combine (map (fun c => print_string_ptr (nameString c)) (child item)) entries)
             ++ (if fmt then repeat 9 depth else []) ++ [125]))
  else Null.

Definition sJSONprint (item : sJSON) : res (list Z) := print_value item 0 true.
Definition sJSONprintUnformatted (item : sJSON) : res (list Z) := print_value item 0 false.

(** ** The trees the parser returns, and their comparison *)

(** what [parse_value] starts from: a node with no value and no child *)
Definition base (i : sJSON) : Prop :=
  valueString i = None /\ valueInt i = 0 /\ valueDouble i = 0%float /\ child i = [].

(** the shape of a parsed value, kind by kind; elements of arrays carry no
    name, members of objects carry their key and its hash *)
Inductive shaped : sJSON -> Prop :=
| shaped_literal t :
    type t = sJSON_NULL \/ type t = sJSON_False ->
    valueString t = None -> valueInt t = 0 -> valueDouble t = 0%float -> child t = [] ->
    shaped t
| shaped_true t :
    type t = sJSON_True ->
    valueString t = None -> valueInt t = 1 -> valueDouble t = 0%float -> child t = [] ->
    shaped t
| shaped_number t :
    type t = sJSON_Number -> valueString t = None -> child t = [] -> shaped t
| shaped_string t s :
    type t = sJSON_String -> valueString t = Some s -> cstring s ->
    valueInt t = 0 -> valueDouble t = 0%float -> child t = [] -> shaped t
| shaped_array t :
    type t = sJSON_Array ->
    valueString t = None -> valueInt t = 0 -> valueDouble t = 0%float ->
    Forall (fun c => shaped c /\ nameString c = None /\ nameHash c = 0) (child t) ->
    shaped t
| shaped_object t :
    type t = sJSON_Object ->
    valueString t = None -> valueInt t = 0 -> valueDouble t = 0%float ->
    Forall (fun c => shaped c /\
              exists k, nameString c = Some k /\ cstring k /\ nameHash c = murmurString k)
           (child t) ->
    shaped t.

(** structural equality of trees, up to the values of their numbers *)
Inductive similar : sJSON -> sJSON -> Prop :=
| similar_node a b :
    type a = type b -> valueString a = valueString b ->
    nameString a = nameString b -> nameHash a = nameHash b ->
    (type a <> sJSON_Number -> valueInt a = valueInt b /\ valueDouble a = valueDouble b) ->
    Forall2 similar (child a) (child b) ->
    similar a b.

(** every number of the tree is rendered, within the buffer, as a number
    literal *)
Inductive literals : sJSON -> Prop :=
| literals_node t :
    (type t = sJSON_Number -> exists L, wf_literal L /\ print_number t = Ok (literal_text L)) ->
    Forall literals (child t) ->
    literals t.

(** the number of nodes of a tree *)
Fixpoint nodes (t : sJSON) : nat :=
  S (fold_right (fun c acc => (nodes c + acc)%nat) O (child t)).

Definition total (cs : list sJSON) : nat :=
  fold_right (fun c acc => (nodes c + acc)%nat) O cs.

(** *** The invariants of the proofs *)

(** an element of an array, a member of an object *)
Definition elem_ok (c : sJSON) : Prop :=
  shaped c /\ nameString c = None /\ nameHash c = 0.

Definition member_ok (c : sJSON) : Prop :=
  shaped c /\ exists k, nameString c = Some k /\ cstring k /\ nameHash c = murmurString k.

(** what the builders need of [parse_value] *)
Definition pv_sound (pv : sJSON -> option cursor -> M (sJSON * cursor)) : Prop :=
  forall item value ep t rest ep',
    base item -> cstring value -> pv item (Some value) ep = (Ok (t, rest), ep') ->
    shaped t /\ nameString t = nameString item /\ nameHash t = nameHash item /\ cstring rest.

(** the node [parse_value] makes of [item] is like [t] *)
Definition like (item t' t : sJSON) : Prop :=
  type t' = type t /\ valueString t' = valueString t
  /\ nameString t' = nameString item /\ nameHash t' = nameHash item
  /\ (type t <> sJSON_Number -> valueInt t' = valueInt t /\ valueDouble t' = valueDouble t)
  /\ Forall2 similar (child t') (child t).

(** parsing the text [e] with [n] steps gives a node like [c] *)
Definition reparses (n : nat) (c : sJSON) (e : list Z) : Prop :=
  forall item rest ep, base item -> value_end rest = true ->
    exists t', parse_value n item (Some (e ++ rest)) ep = (Ok (t', rest), ep) /\ like item t' c.

Definition elem_pair (n : nat) (c : sJSON) (e : list Z) : Prop :=
  reparses n c e /\ value_text e /\ nameString c = None /\ nameHash c = 0.

Definition member_pair (n : nat) (ce : sJSON * list Z) : Prop :=
  reparses n (fst ce) (snd ce) /\ value_text (snd ce)
  /\ exists k, nameString (fst ce) = Some k /\ cstring k
               /\ nameHash (fst ce) = murmurString k.

(** a member with its rendering: the rendered key and the rendered value *)
Definition named (ce : sJSON * list Z) : list Z * list Z :=
  (print_string_ptr (nameString (fst ce)), snd ce).

(** the text at which the loop of [parse_object] stands *)
Definition pending (fmt : bool) (depth : nat) (ms : list (sJSON * list Z)) (rest : cursor)
  : list Z :=
  match ms with
  | [] => 125 :: rest
  | _ => 44 :: (if fmt then [10] else [])
         ++ join_object fmt (S depth) (map named ms)
         ++ (if fmt then repeat 9 depth else []) ++ 125 :: rest
  end.

(** what follows the value of a member *)
Definition after_value (fmt : bool) (depth : nat) (ms : list (sJSON * list Z)) (rest : cursor)
  : list Z :=
  (match map named ms with [] => [] | _ => [44] end) ++ (if fmt then [10] else [])
  ++ join_object fmt (S depth) (map named ms)
  ++ (if fmt then repeat 9 depth else []) ++ 125 :: rest.

(** a member, from its key on *)
Definition from_key (fmt : bool) (depth : nat) (ce : sJSON * list Z)
    (ms : list (sJSON * list Z)) (rest : cursor) : list Z :=
  print_string_ptr (nameString (fst ce)) ++ 58 :: (if fmt then [9] else [])
  ++ snd ce ++ after_value fmt depth ms rest.

(** what the induction gives for a node and its rendering *)
Definition printed (depth : nat) (fmt : bool) (c : sJSON) (e : list Z) : Prop :=
  print_value c depth fmt = Ok e /\ value_text e /\ (nodes c <= length e)%nat
  /\ forall n, (nodes c < n)%nat -> reparses n c e.

Definition round_trips (t : sJSON) : Prop :=
  shaped t -> literals t -> forall depth fmt, exists out, printed depth fmt t out.

End Model.

(** induction on trees, with the hypothesis for every child *)
Fixpoint sJSON_induction (P : sJSON -> Prop)
    (H : forall t, Forall P (child t) -> P t) (t : sJSON) : P t :=
  match t with
  | mk_sJSON ty vs vi vd ns nh ch =>
      H (mk_sJSON ty vs vi vd ns nh ch)
        ((fix all (l : list sJSON) : Forall P l :=
            match l with
            | [] => @List.Forall_nil _ P
            | c :: r => @List.Forall_cons _ P c r (sJSON_induction P H c) (all r)
            end) ch)
  end.

(** ** A C library for the closed examples

    [pow] by repeated multiplication, which agrees with math.h where the
    products are exact and where they overflow; the conversions of [printf]
    by exact arithmetic, rounding to nearest even, with "inf" and "nan" as
    ISO C has them; out of range, [(int)n] as the x86 conversion gives it;
    an FNV-1a hash in the place of murmurString. *)

Definition ref_hash (s : list Z) : Z :=
  fold_left (fun h c => (Z.lxor h c * 16777619) mod 2 ^ 32) s 2166136261.

Fixpoint pow_nat (x : float) (k : nat) : float :=
  match k with
  | O => 1%float
  | S k => PrimFloat.mul x (pow_nat x k)
  end.

Definition ref_pow (x y : float) : float :=
  match trunc y with
  | Some z =>
      if PrimFloat.eqb (double_of_int z) y then
        if 0 <=? z then pow_nat x (Z.to_nat z)
        else PrimFloat.div 1%float (pow_nat x (Z.to_nat (- z)))
      else PrimFloat.nan
  | None => y
  end.

(** [a / b] rounded to the nearest integer, ties to even *)
Definition round_div (a b : Z) : Z :=
  let q := a / b in
  let r := a mod b in
  if 2 * r <? b then q
  else if b <? 2 * r then q + 1
  else if Z.even q then q else q + 1.

(** the decimal digits of [n], at least [w] of them *)
Definition pad_digits (w : nat) (n : Z) : list Z :=
  let ds := dec_digits (S (Z.to_nat (Z.log2 n))) n [] in
  repeat 48 (w - length ds) ++ ds.

(** the rendering of a double whose magnitude is [a / b] *)
Definition render (d : float) (finite : Z -> Z -> list Z) : list Z :=
  match Prim2SF d with
  | S754_nan => str "nan"
  | S754_infinity s => (if s then [45] else []) ++ str "inf"
  | S754_zero s => (if s then [45] else []) ++ finite 0 1
  | S754_finite s m e =>
      (if s then [45] else [])
      ++ (if 0 <=? e then finite (Z.pos m * 2 ^ e) 1 else finite (Z.pos m) (2 ^ (- e)))
  end.

(** the largest [x] from [x0] down with [10^x <= a / b] *)
Fixpoint exp10_down (k : nat) (x a b : Z) : Z :=
  match k with
  | O => x
  | S k =>
      if (if 0 <=? x then 10 ^ x * b <=? a else b <=? a * 10 ^ (- x)) then x
      else exp10_down k (x - 1) a b
  end.

Definition ref_fmt_0f (d : float) : list Z :=
  render d (fun a b => pad_digits 1 (round_div a b)).

Definition ref_fmt_f (d : float) : list Z :=
  render d (fun a b =>
    let N := round_div (a * 10 ^ 6) b in
    pad_digits 1 (N / 10 ^ 6) ++ [46] ++ pad_digits 6 (N mod 10 ^ 6)).

Definition ref_fmt_e (d : float) : list Z :=
  render d (fun a b =>
    if a =? 0 then str "0.000000e+00"
    else
      let x := exp10_down 800 400 a b in
      let N := if 0 <=? 6 - x then round_div (a * 10 ^ (6 - x)) b
               else round_div a (b * 10 ^ (x - 6)) in
      let '(N, x) := if N =? 10 ^ 7 then (10 ^ 6, x + 1) else (N, x) in
      pad_digits 1 (N / 10 ^ 6) ++ [46] ++ pad_digits 6 (N mod 10 ^ 6)
      ++ [101] ++ (if x <? 0 then [45] else [43]) ++ pad_digits 2 (Z.abs x)).

Definition reference_libc : Externals :=
  {| murmurString := ref_hash;
     pow := ref_pow;
     cast_oor := fun _ => INT_MIN;
     fmt_0f := ref_fmt_0f;
     fmt_e := ref_fmt_e;
     fmt_f := ref_fmt_f |}.

(** ** Closed examples *)

(** a document of the relaxed syntax: bare keys, [=] for [:], a comment *)
Definition example_doc : list Z := qstr "{a = 1.5, 'b': [2, true] /* c */}".

Definition example_tree : sJSON :=
  Eval vm_compute in
    match fst (sJSONparse (libc := reference_libc) example_doc) with
    | Ok t => t
    | _ => sJSON_New_Item
    end.

(** a number too large for a double *)
Definition overflow_doc : list Z := qstr "[1e999]".

(** the literal [-12.5e3] *)
Definition example_literal : literal :=
  mk_literal true [49; 50] (Some [53]) (Some (101, [], [51])).

(** the literal [2147483648], one more than the largest [int] *)
Definition int_overflow_literal : literal :=
  mk_literal false [50; 49; 52; 55; 52; 56; 51; 54; 52; 56] None None.

(** the array [[2, true]] *)
Definition example_array : sJSON :=
  mk_sJSON sJSON_Array None 0 0%float None 0
    [mk_sJSON sJSON_Number None 2 2%float None 0 [];
     mk_sJSON sJSON_True None 0 0%float None 0 []].

(** C1 as it is stated: for every document that parses *)
Definition round_trip_as_stated : Prop :=
  forall (E : Externals) (D : cursor) (t : sJSON) (ep : option cursor),
    cstring D -> sJSONparse D = (Ok t, ep) ->
    exists out1 out2 t1 t2,
      sJSONprint t = Ok out1 /\ sJSONprintUnformatted t = Ok out2
      /\ sJSONparse out1 = (Ok t1, None) /\ similar t1 t
      /\ sJSONparse out2 = (Ok t2, None) /\ similar t2 t.

(** C6 as it is stated: for every literal the parser accepts, the double
    stored is the value of the literal and the integer stored is its
    truncation *)
Definition parse_number_as_stated : Prop :=
  forall (E : Externals) (L : literal) (item : sJSON) (rest : cursor),
    wf_literal L -> number_end rest = true ->
    exists item',
      parse_number item (literal_text L ++ rest) = Ok (item', rest)
      /\ valueDouble item' = literal_value L
      /\ trunc (valueDouble item') = Some (valueInt item').

(** ** More of the text functions *)

(** where [skip] goes on: at white space and at the two bytes that open a
    comment *)
Definition skippable (p : cursor) : bool :=
  (nz (cur p) && (cur p <=? 32))
  || (nz (cur p) && (cur p =? 47)
      && ((nz (cur (tl p)) && (cur (tl p) =? 47))
          || (nz (cur (tl p)) && (cur (tl p) =? 42)))).

(** a star with a slash right behind it *)
Fixpoint closes (l : list Z) : bool :=
  match l with
  | [] => false
  | c :: r => ((c =? 42) && (cur r =? 47)) || closes r
  end.

(** a backslash followed by [u] in a string literal, [p] just behind its
    opening quote: the scan ends where the loops of [parse_string] end, at
    the closing quote or at the terminator, and steps over the byte behind
    a backslash as they do *)
Fixpoint u_escapes (p : cursor) : bool :=
  match p with
  | [] => false
  | c :: p1 =>
      if negb (c =? 34) && nz c then
        if c =? 92 then
          match p1 with
          | [] => false
          | e :: p2 => (e =? 117) || u_escapes p2
          end
        else u_escapes p1
      else false
  end.

(** the first loop of [print_string_ptr]: [len] counts one byte for a
    byte that is copied, two for the seven short escapes and six for the
    other bytes below 32; [len+3] bytes are allocated *)
Fixpoint escaped_len (s : list Z) (len : Z) : Z :=
  match s with
  | [] => len
  | c :: r =>
      let len := len + 1 in
      if (c =? 34) || (c =? 92) || (c =? 8) || (c =? 12) || (c =? 10) || (c =? 13) || (c =? 9)
      then escaped_len r (len + 1)
      else if c <? 32 then escaped_len r (len + 5)
      else escaped_len r len
  end.

(** the length [print_array] allocates: [len=5], and
    [len+=strlen(ret)+2+(fmt?1:0)] for each entry *)
Definition print_array_len (fmt : bool) (entries : list (list Z)) : Z :=
  fold_left (fun len e => len + Z.of_nat (length e) + 2 + (if fmt then 1 else 0)) entries 5.

(** the length [print_object] allocates, [depth] already incremented:
    [len=7], [if (fmt) len+=depth], and
    [len+=strlen(ret)+strlen(str)+2+(fmt?2+depth:0)] for each member *)
Definition print_object_len (fmt : bool) (depth : nat) (members : list (list Z * list Z)) : Z :=
  fold_left (fun len m => len + Z.of_nat (length (snd m)) + Z.of_nat (length (fst m)) + 2
                          + (if fmt then 2 + Z.of_nat depth else 0))
            members (7 + (if fmt then Z.of_nat depth else 0)).

(** the text [print_array] composes from the entries *)
Definition array_text (fmt : bool) (entries : list (list Z)) : list Z :=
  [91] ++ join_array fmt entries ++ [93].

(** the text [print_object] composes from the names and the entries, [depth]
    as the caller gave it *)
Definition object_text (fmt : bool) (depth : nat) (members : list (list Z * list Z)) : list Z :=
  [123] ++ (if fmt then [10] else []) ++ join_object fmt (S depth) members
  ++ (if fmt then repeat 9 depth else []) ++ [125].

(** what a step of the parser that starts at [v] leaves behind: on success
    a position of the text from [v] on, the error pointer as it was; on a
    null result an error pointer that is a position of the text from [v] on *)
Definition outcome_at {A} (v : cursor) (ep : option cursor)
    (r : res (A * cursor)) (ep' : option cursor) : Prop :=
  match r with
  | Ok (_, rest) => ep' = ep /\ rest `suffix_of` v
  | Null => exists p, ep' = Some p /\ p `suffix_of` v
  | _ => True
  end.

Definition tracks {A} (v : cursor) (m : M (A * cursor)) : Prop :=
  forall ep r ep', m ep = (r, ep') -> outcome_at v ep r ep'.

Section Printable.
Context `{libc : Externals}.

(** a tree whose nodes all have one of the seven kinds, and whose numbers
    all fit the buffer of [print_number] *)
Inductive printable : sJSON -> Prop :=
| printable_node t :
    0 <= Z.land (type t) 255 <= 6 ->
    (Z.land (type t) 255 = sJSON_Number -> exists text, print_number t = Ok text) ->
    (Z.land (type t) 255 = sJSON_Array \/ Z.land (type t) 255 = sJSON_Object ->
     Forall printable (child t)) ->
    printable t.

End Printable.

(** ** Chains of nodes in memory (sjson.cpp 694-809) *)

Module Chain.

Definition loc := positive.
Definition ptr := option loc.

(** [struct sJSON] *)
Record node := mk_node {
  next : ptr;
  prev : ptr;
  child : ptr;
  type : Z;
  valueString : option (list Z);
  valueInt : Z;
  valueDouble : float;
  nameString : option (list Z);
  nameHash : Z
}.

Definition set_next (x : ptr) (n : node) : node :=
  mk_node x (prev n) (child n) (type n) (valueString n) (valueInt n) (valueDouble n)
          (nameString n) (nameHash n).
Definition set_prev (x : ptr) (n : node) : node :=
  mk_node (next n) x (child n) (type n) (valueString n) (valueInt n) (valueDouble n)
          (nameString n) (nameHash n).
Definition set_child (x : ptr) (n : node) : node :=
  mk_node (next n) (prev n) x (type n) (valueString n) (valueInt n) (valueDouble n)
          (nameString n) (nameHash n).
Definition set_name (s : option (list Z)) (h : Z) (n : node) : node :=
  mk_node (next n) (prev n) (child n) (type n) (valueString n) (valueInt n) (valueDouble n)
          s h.

(** the memory: the nodes that are allocated *)
Abbreviation store := (gmap loc node).

(** [p->...] on a pointer that is null or not allocated is a fault *)
Definition deref (h : store) (p : ptr) : res node :=
  match p with
  | None => Fault NullDeref
  | Some l => match h !! l with Some n => Ok n | None => Fault OutOfBounds end
  end.

(** [p->field = ...] *)
Definition update (h : store) (p : ptr) (f : node -> node) : res store :=
  match p with
  | None => Fault NullDeref
  | Some l => match h !! l with Some n => Ok (<[l := f n]> h) | None => Fault OutOfBounds end
  end.

(** a loop that follows [next] ends within [S (size h)] steps or never *)
Definition steps (h : store) : nat := S (size h).

Fixpoint count (k : nat) (h : store) (c : ptr) (i : Z) : res Z :=
  match c with
  | None => Ok i
  | Some _ =>
      match k with
      | O => NoFuel
      | S k => rbind (deref h c) (fun n => count k h (next n) (i + 1))
      end
  end.

(** [sJSONgetArraySize(array)] *)
Definition sJSONgetArraySize (h : store) (array : ptr) : res Z :=
  rbind (deref h array) (fun a => count (steps h) h (child a) 0).

(** [while (c && item>0) { item--; c=c->next; }] *)
Fixpoint walk (item : nat) (h : store) (c : ptr) : res ptr :=
  match item, c with
  | S item, Some _ => rbind (deref h c) (fun n => walk item h (next n))
  | _, _ => Ok c
  end.

(** [sJSONgetArrayItem(array, item)] *)
Definition sJSONgetArrayItem (h : store) (array : ptr) (item : Z) : res ptr :=
  rbind (deref h array) (fun a => walk (Z.to_nat item) h (child a)).

(** [while(c && (c->nameHash != stringHash)) c=c->next;], counting the steps *)
Fixpoint find (k : nat) (h : store) (c : ptr) (stringHash : Z) (i : Z) : res (ptr * Z) :=
  match c with
  | None => Ok (None, i)
  | Some _ =>
      rbind (deref h c) (fun n =>
        if negb (nameHash n =? stringHash) then
          match k with
          | O => NoFuel
          | S k => find k h (next n) stringHash (i + 1)
          end
        else Ok (c, i))
  end.

(** [sJSONgetObjectItem(object, stringHash)] *)
Definition sJSONgetObjectItem (h : store) (object : ptr) (stringHash : Z) : res ptr :=
  rbind (deref h object) (fun o =>
  rbind (find (steps h) h (child o) stringHash 0) (fun r => Ok (fst r))).

(** [suffix_object(prev, item)] *)
Definition suffix_object (h : store) (prev item : ptr) : res store :=
  rbind (update h prev (set_next item)) (fun h => update h item (set_prev prev)).

(** [while (c && c->next) c=c->next;] *)
Fixpoint last_node (k : nat) (h : store) (c : ptr) : res ptr :=
  match c with
  | None => Ok None
  | Some _ =>
      rbind (deref h c) (fun n =>
        match next n with
        | None => Ok c
        | Some _ =>
            match k with
            | O => NoFuel
            | S k => last_node k h (next n)
            end
        end)
  end.

(** [sJSONaddItemToArray(array, item)] *)
Definition sJSONaddItemToArray (h : store) (array item : ptr) : res store :=
  rbind (deref h array) (fun a =>
    match item with
    | None => Ok h
    | Some _ =>
        match child a with
        | None => update h array (set_child item)
        | Some _ =>
            rbind (last_node (steps h) h (child a)) (fun c => suffix_object h c item)
        end
    end).

Section Hash.
Context `{libc : Externals}.

(** [sJSONaddItemToObject(object, string, item)] *)
Definition sJSONaddItemToObject (h : store) (object : ptr) (string : list Z) (item : ptr)
  : res store :=
  match item with
  | None => Ok h
  | Some _ =>
      rbind (update h item (set_name (Some string) (murmurString string)))
            (fun h => sJSONaddItemToArray h object item)
  end.

(** [sJSONdetachItemFromArray(array, which)]: the node returned and the
    memory after the call *)
Definition sJSONdetachItemFromArray (h : store) (array : ptr) (which : Z) : res (ptr * store) :=
  rbind (deref h array) (fun a =>
  rbind (walk (Z.to_nat which) h (child a)) (fun c =>
    match c with
    | None => Ok (None, h)
    | Some _ =>
        rbind (deref h c) (fun n =>
        rbind (match prev n with
               | Some _ => update h (prev n) (set_next (next n))
               | None => Ok h
               end) (fun h =>
        rbind (deref h c) (fun n =>
        rbind (match next n with
               | Some _ => update h (next n) (set_prev (prev n))
               | None => Ok h
               end) (fun h =>
        rbind (deref h array) (fun a =>
        rbind (deref h c) (fun n =>
        rbind (if bool_decide (c = child a) then update h array (set_child (next n))
               else Ok h) (fun h =>
        rbind (update h c (fun n => set_prev None (set_next None n))) (fun h =>
        Ok (c, h)))))))))
    end)).

(** [sJSONdetachItemFromObject(object, string)] *)
Definition sJSONdetachItemFromObject (h : store) (object : ptr) (string : list Z)
  : res (ptr * store) :=
  rbind (deref h object) (fun o =>
  rbind (find (steps h) h (child o) (murmurString string) 0) (fun r =>
    match fst r with
    | Some _ => sJSONdetachItemFromArray h object (snd r)
    | None => Ok (None, h)
    end)).

End Hash.

(** the chain that starts at [p], its first node's [prev] being [q], is the
    list [l] of nodes *)
Fixpoint dll (h : store) (p q : ptr) (l : list loc) : Prop :=
  match l with
  | [] => p = None
  | x :: l' =>
      p = Some x /\ exists n, h !! x = Some n /\ prev n = q /\ dll h (next n) (Some x) l'
  end.

(** the children of the node at [a] are the nodes [l], in this order *)
Definition is_chain (h : store) (a : loc) (l : list loc) : Prop :=
  (exists n, h !! a = Some n /\ dll h (child n) None l) /\ NoDup l /\ a ∉ l.

(** a node that is in no chain *)
Definition detached (h : store) (v : loc) : Prop :=
  exists n, h !! v = Some n /\ next n = None /\ prev n = None.

(** the hash stored in the node at [x] *)
Definition hash_at (h : store) (x : loc) : option Z := nameHash <$> h !! x.

(** what a node holds besides its links to its siblings *)
Definition payload (n : node) :=
  (type n, valueString n, valueInt n, valueDouble n, nameString n, nameHash n).

(** the store after [p->field = ...], when [p] is null or allocated *)
Definition upd (h : store) (p : ptr) (f : node -> node) : store :=
  match p with
  | Some x => match h !! x with Some n => <[x := f n]> h | None => h end
  | None => h
  end.

(** C2 as it is stated: whatever the object holds already *)
Definition add_then_get_as_stated : Prop :=
  forall (E : Externals) (h : store) (o : loc) (l : list loc) (k : list Z) (v : loc),
    is_chain h o l -> detached h v -> v ∉ l -> v <> o ->
    exists h1 h2 r,
      sJSONaddItemToObject h (Some o) k (Some v) = Ok h1
      /\ sJSONgetObjectItem h1 (Some o) (murmurString k) = Ok (Some v)
      /\ sJSONdetachItemFromObject h1 (Some o) k = Ok (r, h2)
      /\ sJSONgetObjectItem h2 (Some o) (murmurString k) = Ok None.

(** a node of zeroes *)
Definition zero_node : node := mk_node None None None 0 None 0 0%float None 0.

(** the node of a number *)
Definition number_node (prv nxt : ptr) (v : Z) : node :=
  mk_node nxt prv None sJSON_Number None v (double_of_int v) None 0.

(** an object at 1 whose only member, at 2, carries the hash [hash] of its
    key; a node at 3 that is in no chain *)
Definition dup_store (hash : Z) : store :=
  <[1%positive := mk_node None None (Some 2%positive) sJSON_Object None 0 0%float None 0]>
  (<[2%positive := set_name (Some (str "k")) hash zero_node]>
  (<[3%positive := zero_node]> ∅)).

(** an empty object at 1 and a node at 3 that is in no chain *)
Definition empty_object_store : store :=
  <[1%positive := mk_node None None None sJSON_Object None 0 0%float None 0]>
  (<[3%positive := zero_node]> ∅).

(** the array [10, 20, 30]: the array at 1, its elements at 2, 3 and 4 *)
Definition three_store : store :=
  <[1%positive := mk_node None None (Some 2%positive) sJSON_Array None 0 0%float None 0]>
  (<[2%positive := number_node None (Some 3%positive) 10]>
  (<[3%positive := number_node (Some 2%positive) (Some 4%positive) 20]>
  (<[4%positive := number_node (Some 3%positive) None 30]> ∅))).

(** *** Allocation, deletion, references, replacement, constructors
    (sjson.cpp 83-106, 732-775, 794-868)

    A string a node owns is a value of the node: the store holds nodes
    only. *)

(** [sJSON_New_Item()]: a node of zeroes at an address that is not in use *)
Definition sJSON_New_Item (h : store) : loc * store :=
  let l := fresh (dom h) in (l, <[l := zero_node]> h).

(** [sJSON_free(c)] for a node; what is not allocated cannot be freed *)
Definition free (h : store) (c : loc) : res store :=
  match h !! c with
  | Some _ => Ok (delete c h)
  | None => Fault OutOfBounds
  end.

(** the loop and the recursion of [sJSONdelete] *)
Fixpoint delete_chain (k : nat) (h : store) (c : ptr) : res store :=
  match c with
  | None => Ok h
  | Some x =>
      match k with
      | O => NoFuel
      | S k =>
          rbind (deref h c) (fun n =>
          rbind (if (Z.land (type n) sJSON_IsReference =? 0) && bool_decide (child n <> None)
                 then delete_chain k h (child n) else Ok h) (fun h =>
          rbind (free h x) (fun h => delete_chain k h (next n))))
      end
  end.

(** [sJSONdelete(c)] *)
Definition sJSONdelete (h : store) (c : ptr) : res store := delete_chain (steps h) h c.

(** [json::Map::hasMapMember(nameHash)] of json.h, on the node of the map *)
Definition hasMapMember (h : store) (myData : ptr) (nameHash : Z) : res bool :=
  rbind (sJSONgetObjectItem h myData nameHash) (fun item => Ok (bool_decide (item <> None))).

(** [sJSONcreateNull()], [sJSONcreateTrue()], [sJSONcreateFalse()],
    [sJSONcreateBool(b)], [sJSONcreateArray()], [sJSONcreateObject()]: a new
    node with its kind *)
Definition create_kind (h : store) (kind : Z) : ptr * store :=
  let '(l, h) := sJSON_New_Item h in
  (Some l, <[l := mk_node None None None kind None 0 0%float None 0]> h).

Definition sJSONcreateNull (h : store) : ptr * store := create_kind h sJSON_NULL.
Definition sJSONcreateTrue (h : store) : ptr * store := create_kind h sJSON_True.
Definition sJSONcreateFalse (h : store) : ptr * store := create_kind h sJSON_False.
Definition sJSONcreateBool (h : store) (b : Z) : ptr * store :=
  create_kind h (if b =? 0 then sJSON_False else sJSON_True).
Definition sJSONcreateArray (h : store) : ptr * store := create_kind h sJSON_Array.
Definition sJSONcreateObject (h : store) : ptr * store := create_kind h sJSON_Object.

(** [sJSONcreateString(string)] *)
Definition sJSONcreateString (h : store) (string : list Z) : ptr * store :=
  let '(l, h) := sJSON_New_Item h in
  (Some l, <[l := mk_node None None None sJSON_String (Some string) 0 0%float None 0]> h).

(** a constructor of nodes: it allocates one node, which is in no chain *)
Definition allocates {A} (mk : store -> A -> ptr * store) (node_of : A -> node) : Prop :=
  forall h x,
    mk h x = (Some (fresh (dom h)), <[fresh (dom h) := node_of x]> h)
    /\ next (node_of x) = None /\ prev (node_of x) = None.

(** the loop of the four array constructors: [i] counts from 0 to [count],
    [numbers[i]] is read, [p] is the node made last *)
Fixpoint fill_array {A} (mk : store -> A -> ptr * store) (k : nat) (i : nat)
    (numbers : list A) (h : store) (a p : ptr) : res store :=
  match k with
  | O => Ok h
  | S k =>
      match numbers !! i with
      | None => Fault OutOfBounds
      | Some x =>
          let '(n, h) := mk h x in
          rbind (match i with
                 | O => update h a (set_child n)
                 | S _ => suffix_object h p n
                 end) (fun h =>
          fill_array mk k (S i) numbers h a n)
      end
  end.

Definition create_array {A} (mk : store -> A -> ptr * store) (h : store)
    (numbers : list A) (count : Z) : res (ptr * store) :=
  let '(a, h) := sJSONcreateArray h in
  rbind (fill_array mk (Z.to_nat count) O numbers h a None) (fun h => Ok (a, h)).

(** what [create_reference] makes of a copy of the node: no name, no
    siblings, the flag set; the child and the values are those of the node *)
Definition reference_node (n : node) : node :=
  mk_node None None (child n) (Z.lor (type n) sJSON_IsReference)
          (valueString n) (valueInt n) (valueDouble n) None 0.

(** the nodes the constructors make *)
Definition string_node (s : list Z) : node :=
  mk_node None None None sJSON_String (Some s) 0 0%float None 0.

(** [sJSONcreateStringArray(strings, count)] *)
Definition sJSONcreateStringArray (h : store) (strings : list (list Z)) (count : Z)
  : res (ptr * store) :=
  create_array sJSONcreateString h strings count.

Section Numbers.
Context `{libc : Externals}.

Definition double_node (num : float) : node :=
  mk_node None None None sJSON_Number None (double_to_int num) num None 0.

(** [sJSONcreateNumber(num)] *)
Definition sJSONcreateNumber (h : store) (num : float) : ptr * store :=
  let '(l, h) := sJSON_New_Item h in (Some l, <[l := double_node num]> h).

(** [sJSONcreateDoubleArray(numbers, count)] *)
Definition sJSONcreateDoubleArray (h : store) (numbers : list float) (count : Z)
  : res (ptr * store) :=
  create_array sJSONcreateNumber h numbers count.

(** [sJSONcreateIntArray(numbers, count)]: each [int] is converted to
    [double] for [sJSONcreateNumber] *)
Definition sJSONcreateIntArray (h : store) (numbers : list Z) (count : Z)
  : res (ptr * store) :=
  create_array (fun h z => sJSONcreateNumber h (double_of_int z)) h numbers count.

(** [create_reference(item)] *)
Definition create_reference (h : store) (item : ptr) : res (ptr * store) :=
  let '(l, h1) := sJSON_New_Item h in
  rbind (deref h item) (fun n => Ok (Some l, <[l := reference_node n]> h1)).

(** [sJSONaddItemReferenceToArray(array, item)] *)
Definition sJSONaddItemReferenceToArray (h : store) (array item : ptr) : res store :=
  rbind (create_reference h item) (fun r => sJSONaddItemToArray (snd r) array (fst r)).

(** [sJSONaddItemReferenceToObject(object, string, item)] *)
Definition sJSONaddItemReferenceToObject (h : store) (object : ptr) (string : list Z)
    (item : ptr) : res store :=
  rbind (create_reference h item) (fun r =>
    sJSONaddItemToObject (snd r) object string (fst r)).

(** [sJSONdeleteItemFromArray(array, which)] *)
Definition sJSONdeleteItemFromArray (h : store) (array : ptr) (which : Z) : res store :=
  rbind (sJSONdetachItemFromArray h array which) (fun r => sJSONdelete (snd r) (fst r)).

(** [sJSONdeleteItemFromObject(object, string)] *)
Definition sJSONdeleteItemFromObject (h : store) (object : ptr) (string : list Z)
  : res store :=
  rbind (sJSONdetachItemFromObject h object string) (fun r => sJSONdelete (snd r) (fst r)).

(** [sJSONreplaceItemInArray(array, which, newitem)] *)
Definition sJSONreplaceItemInArray (h : store) (array : ptr) (which : Z) (newitem : ptr)
  : res store :=
  rbind (deref h array) (fun a =>
  rbind (walk (Z.to_nat which) h (child a)) (fun c =>
    match c with
    | None => Ok h
    | Some _ =>
        rbind (deref h c) (fun n =>
        rbind (update h newitem (set_next (next n))) (fun h =>
        rbind (deref h c) (fun n =>
        rbind (update h newitem (set_prev (prev n))) (fun h =>
        rbind (deref h newitem) (fun m =>
        rbind (match next m with
               | Some _ => update h (next m) (set_prev newitem)
               | None => Ok h
               end) (fun h =>
        rbind (deref h array) (fun a =>
        rbind (if bool_decide (c = child a) then update h array (set_child newitem)
               else rbind (deref h newitem) (fun m => update h (prev m) (set_next newitem)))
              (fun h =>
        rbind (update h c (fun n => set_prev None (set_next None n))) (fun h =>
        sJSONdelete h c)))))))))
    end)).

(** [sJSONreplaceItemInObject(object, string, newitem)] *)
Definition sJSONreplaceItemInObject (h : store) (object : ptr) (string : list Z)
    (newitem : ptr) : res store :=
  rbind (deref h object) (fun o =>
  rbind (find (steps h) h (child o) (murmurString string) 0) (fun r =>
    match fst r with
    | Some _ =>
        rbind (update h newitem (set_name (Some string) (murmurString string))) (fun h =>
        sJSONreplaceItemInArray h object (snd r) newitem)
    | None => Ok h
    end)).

End Numbers.

(** what the loop of the array constructors keeps, [h0] being the memory
    before the call: the children of [a] are the chain [l], [a] and the
    nodes of the chain are new, the nodes that were there before are
    untouched, the child at each index holds what the constructor makes of
    the element at that index, and [a] is an array *)
Definition filled {A} (node_of : A -> node) (numbers : list A) (h0 : store) (a : loc)
    (h : store) (l : list loc) : Prop :=
  is_chain h a l
  /\ (forall x, x ∈ a :: l -> h0 !! x = None)
  /\ (forall x, is_Some (h0 !! x) -> h !! x = h0 !! x)
  /\ (forall (j : nat) x, l !! j = Some x ->
        exists v, numbers !! j = Some v
                  /\ payload <$> h !! x = Some (payload (node_of v)))
  /\ type <$> h !! a = Some sJSON_Array.

(** a node with no child, or a reference: what [sJSONdelete] frees with the
    node is the node alone *)
Definition leaf (n : node) : Prop :=
  child n = None \/ Z.land (type n) sJSON_IsReference <> 0.

(** the array [10, 20, 30] of [three_store] and a number at 5 that is in no
    chain *)
Definition spare_store : store := <[5%positive := number_node None None 40]> three_store.

(** an object at 1 with the members [a], [b] and [b] again, at 2, 3 and 4,
    each with the hash [hash] gives its key, and a number at 5 that is in
    no chain *)
Definition members_store (hash : list Z -> Z) : store :=
  <[1%positive := mk_node None None (Some 2%positive) sJSON_Object None 0 0%float None 0]>
  (<[2%positive := set_name (Some (str "a")) (hash (str "a"))
                     (number_node None (Some 3%positive) 10)]>
  (<[3%positive := set_name (Some (str "b")) (hash (str "b"))
                     (number_node (Some 2%positive) (Some 4%positive) 20)]>
  (<[4%positive := set_name (Some (str "b")) (hash (str "b"))
                     (number_node (Some 3%positive) None 30)]>
  (<[5%positive := number_node None None 40]> ∅)))).

End Chain.

(** * The skipper, the dispatcher and the entry point *)

(** ** skip *)

Lemma skip_ws_suffix p : skip_ws p `suffix_of` p.
Proof.
  induction p as [|c r IH]; simpl; [done|].
  destruct (nz c && (c <=? 32)); [by apply suffix_cons_r|done].
Qed.

Lemma skip_line_suffix p : skip_line p `suffix_of` p.
Proof.
  induction p as [|c r IH]; simpl; [done|].
  destruct (nz c && _); [by apply suffix_cons_r|done].
Qed.

Lemma skip_block_cases p :
  skip_block p = Fault OutOfBounds
  \/ exists q, skip_block p = Ok q /\ q `suffix_of` p /\ (length q < length p)%nat.
Proof.
  induction p as [|c r IH]; simpl; [by left|].
  assert (Hr : skip_block r = Fault OutOfBounds
          \/ exists q, skip_block r = Ok q /\ q `suffix_of` (c :: r)
                       /\ (length q < length (c :: r))%nat).
  { destruct IH as [?|(q & ? & ? & ?)]; [by left|right].
    exists q. split; [done|]. split; [by apply suffix_cons_r|simpl; lia]. }
  destruct (nz c && negb (c =? 42)); [done|].
  destruct r as [|c1 r1]; [by left|].
  destruct (nz c1 && negb (c1 =? 47)); [done|].
  right. exists r1. split; [done|]. split; [|simpl; lia].
  by apply suffix_cons_r, suffix_cons_r.
Qed.

Lemma suffix_length_le {A} (q p : list A) : q `suffix_of` p -> (length q <= length p)%nat.
Proof. intros [k ->]. rewrite length_app. lia. Qed.

(** the model of the loop has steps enough: [skip] ends, with a position
    of the text or with a read past its terminator *)
Lemma skip_loop_cases n : forall p, (length p < n)%nat ->
  skip_loop n p = Fault OutOfBounds
  \/ exists q, skip_loop n p = Ok q /\ q `suffix_of` p.
Proof.
  induction n as [|n IH]; intros p Hn; [lia|].
  simpl.
  pose proof (skip_ws_suffix p) as Hws.
  pose proof (suffix_length_le _ _ Hws) as Hwl.
  destruct (skip_ws p) as [|c r] eqn:Ew; simpl.
  { right. eexists. split; [done|]. done. }
  destruct (nz c && (c =? 47)) eqn:Ec; [|right; eexists; split; [done|done]].
  destruct (nz (cur r) && (cur r =? 47)) eqn:Ec1.
  - pose proof (skip_line_suffix r) as Hls.
    assert (nz c && (negb (c =? 10) && negb (c =? 13)) = true) as ->.
    { apply andb_true_iff in Ec as [-> Ec]. apply Z.eqb_eq in Ec. subst c. done. }
    destruct (IH (skip_line r)) as [?|(q & ? & ?)].
    + apply suffix_length_le in Hls. simpl in Hwl. lia.
    + by left.
    + right. exists q. split; [done|]. etrans; [done|]. etrans; [done|].
      etrans; [|done]. by apply suffix_cons_r.
  - destruct (nz (cur r) && (cur r =? 42)) eqn:Ec2;
      [|right; eexists; split; [done|done]].
    destruct (skip_block_cases (c :: r)) as [E|(q & E & Hq & Hql)].
    + simpl in E. rewrite E. by left.
    + simpl in E. rewrite E. simpl.
      destruct (IH q) as [?|(q' & ? & ?)].
      * simpl in *. lia.
      * by left.
      * right. exists q'. split; [done|]. etrans; [done|]. by etrans.
Qed.

Lemma skip_cases p :
  skip (Some p) = Fault OutOfBounds \/ exists q, skip (Some p) = Ok q /\ q `suffix_of` p.
Proof. apply skip_loop_cases. lia. Qed.

Lemma skip_suffix p q : skip (Some p) = Ok q -> q `suffix_of` p.
Proof.
  intros H. destruct (skip_cases p) as [E|(q' & E & Hq)]; rewrite E in H; [done|].
  by inversion H; subst.
Qed.

(** C9, on the inputs where it fails: on a block comment that is never closed,
    [skip] does not return a position of the text.  On the text [/*] the scan
    for the closing star stops on the star that opens the comment, finds the
    terminator behind it and moves two bytes on, past the terminator; on
    [/* abc] the scan stops on the terminator and the byte behind it is read.
    A text whose comment opener comes after a token is returned as it is. *)
Theorem skip_unterminated_comment :
  skip (Some (str "/*")) = Fault OutOfBounds
  /\ skip (Some (str "/* abc")) = Fault OutOfBounds
  /\ skip (Some (str "x /* **")) = Ok (str "x /* **").
Proof. repeat split; vm_compute; reflexivity. Qed.

Lemma skip_ws_blank ws c r :
  blank ws -> 32 < c -> skip_ws (ws ++ c :: r) = c :: r.
Proof.
  intros Hws Hc. induction Hws as [|w ws Hw _ IH]; simpl.
  - assert ((c <=? 32) = false) as -> by lia. by rewrite andb_false_r.
  - unfold nz. assert ((w =? 0) = false) as -> by lia.
    assert ((w <=? 32) = true) as -> by lia. simpl. exact IH.
Qed.

Lemma skip_blank ws c r :
  blank ws -> 32 < c -> c <> 47 -> skip (Some (ws ++ c :: r)) = Ok (c :: r).
Proof.
  intros Hws Hc Hc'. unfold skip. cbn [skip_loop].
  rewrite skip_ws_blank by done. cbn [cur hd].
  assert ((c =? 47) = false) as -> by lia. by rewrite andb_false_r.
Qed.

Lemma skip_token c r : 32 < c -> c <> 47 -> skip (Some (c :: r)) = Ok (c :: r).
Proof. intros. apply (skip_blank []); [constructor|done|done]. Qed.

Section Parser.
Context `{libc : Externals}.

(** C5, on the inputs where it fails: on the text [{"k": }] the value dispatcher
    records the position of the closing brace, at offset 6, in the error
    pointer and returns null; [parse_object] hands that null to [skip], which
    reads through it, so [sJSONparse] does not return null.  The same happens
    in an array that is never closed, as in [[1 2]; a failure of the key, as
    in the text [a], does come back as null with the error pointer set. *)
Theorem parse_missing_value_faults :
  sJSONparse (qstr "{'k': }") = (Fault NullDeref, Some (str "}"))
  /\ sJSONgetErrorPtr (qstr "{'k': }") (Some (str "}")) = Some 6
  /\ sJSONparse (qstr "[1 2") = (Fault NullDeref, Some [])
  /\ sJSONparse (qstr "a") = (Null, Some []).
Proof. repeat split; vm_compute; reflexivity. Qed.

Lemma strncmp_starts_with k : forall v,
  Forall (fun c => c <> 0) k ->
  (strncmp v k (length k) =? 0) = starts_with k v.
Proof.
  unfold starts_with.
  induction k as [|c k IH]; intros v Hk.
  - done.
  - inversion Hk as [|? ? Hc Hk']; subst.
    destruct v as [|d v]; cbn [length strncmp]; unfold cur; cbn [hd tl take].
    + rewrite bool_decide_false by done.
      destruct (0 =? c) eqn:E; [lia|]. cbn [negb]. apply Z.eqb_neq. lia.
    + destruct (d =? c) eqn:Ed; cbn [negb].
      * apply Z.eqb_eq in Ed. subst d.
        destruct (c =? 0) eqn:E; [lia|].
        rewrite IH by done. apply bool_decide_ext. split; [by intros ->|].
        intros E'. by injection E'.
      * rewrite bool_decide_false by (intros E; inversion E; lia). apply Z.eqb_neq. lia.
Qed.

Lemma parse_value_classify (n : nat) (item : sJSON) (value : cursor) (ep : option cursor) :
  parse_value (S n) item (Some value) ep =
    match classify value with
    | TNull => (Ok (set_type sJSON_NULL item, skipn 4 value), ep)
    | TFalse => (Ok (set_type sJSON_False item, skipn 5 value), ep)
    | TTrue => (Ok (set_valueInt 1 (set_type sJSON_True item), skipn 4 value), ep)
    | TNumber => (parse_number item value, ep)
    | TArray => parse_array (parse_value n) n item value ep
    | TObject =>
        bind (skipM (tl value))
             (fun v => parse_object (parse_value n) n item v) ep
    | TString => parse_string item value ep
    | TOther => (Null, Some value)
    end.
Proof.
  cbn [parse_value]. unfold classify.
  rewrite <- !strncmp_starts_with by (repeat constructor; done).
  change (length (str "null")) with 4%nat.
  change (length (str "false")) with 5%nat.
  change (length (str "true")) with 4%nat.
  unfold is_digit.
  repeat match goal with |- context [if ?b then _ else _] => destruct b end; reflexivity.
Qed.

(** C4: with fuel left, [parse_value] at a cursor takes the first case that
    applies of: the text starts with [null], with [false], with [true] (the
    keyword is consumed and the cursor left right behind it, whatever
    follows); the next byte is a minus sign or a digit (a number); it is an
    opening bracket (an array); an opening brace (an object); a double quote
    (a string); in every other case it returns null and the error pointer
    holds the cursor it was called at.  The three last conjuncts spell out
    that no word boundary is asked for after a keyword. *)
Theorem parse_value_dispatch (n : nat) (item : sJSON) (value : cursor) (ep : option cursor) :
  parse_value (S n) item (Some value) ep =
    match classify value with
    | TNull => (Ok (set_type sJSON_NULL item, skipn 4 value), ep)
    | TFalse => (Ok (set_type sJSON_False item, skipn 5 value), ep)
    | TTrue => (Ok (set_valueInt 1 (set_type sJSON_True item), skipn 4 value), ep)
    | TNumber => (parse_number item value, ep)
    | TArray => parse_array (parse_value n) n item value ep
    | TObject =>
        bind (skipM (tl value))
             (fun v => parse_object (parse_value n) n item v) ep
    | TString => parse_string item value ep
    | TOther => (Null, Some value)
    end
  /\ (forall rest, parse_value (S n) item (Some (str "null" ++ rest)) ep
                   = (Ok (set_type sJSON_NULL item, rest), ep))
  /\ (forall rest, parse_value (S n) item (Some (str "false" ++ rest)) ep
                   = (Ok (set_type sJSON_False item, rest), ep))
  /\ (forall rest, parse_value (S n) item (Some (str "true" ++ rest)) ep
                   = (Ok (set_valueInt 1 (set_type sJSON_True item), rest), ep)).
Proof.
  split; [apply parse_value_classify|repeat split; intros rest; reflexivity].
Qed.

End Parser.

(** * Strings *)

Lemma hex_val_range h d : hex_val h = Some d ->
  0 <= d < 16 /\ (48 <= h <= 57 \/ 97 <= h <= 102 \/ 65 <= h <= 70).
Proof.
  unfold hex_val. intros H.
  destruct ((48 <=? h) && (h <=? 57)) eqn:E1; [inversion H; lia|].
  destruct ((97 <=? h) && (h <=? 102)) eqn:E2; [inversion H; lia|].
  destruct ((65 <=? h) && (h <=? 70)) eqn:E3; [inversion H; lia|done].
Qed.

Lemma sscanf_4x_hex h1 h2 h3 h4 d1 d2 d3 d4 rest :
  hex_val h1 = Some d1 -> hex_val h2 = Some d2 ->
  hex_val h3 = Some d3 -> hex_val h4 = Some d4 ->
  sscanf_4x (h1 :: h2 :: h3 :: h4 :: rest) = Some (4096 * d1 + 256 * d2 + 16 * d3 + d4).
Proof.
  intros H1 H2 H3 H4.
  pose proof (hex_val_range _ _ H1) as [_ R1].
  pose proof (hex_val_range _ _ H2) as [_ R2].
  unfold sscanf_4x. cbn [drop_space].
  assert (isspace h1 = false) as -> by (unfold isspace; lia).
  unfold cur. cbn [hd tl].
  assert ((h1 =? 45) = false) as -> by lia.
  assert ((h1 =? 43) = false) as -> by lia.
  cbv beta iota zeta. cbn [hd tl].
  assert (((h2 =? 120) || (h2 =? 88)) = false) as -> by lia.
  rewrite andb_false_r. cbn [andb scan_hex].
  rewrite H1, H2, H3, H4. cbn [default]. unfold id. f_equal. lia.
Qed.

(** a property of the integers below [k], checked one by one *)
Lemma table_below (P : Z -> bool) (k : nat) :
  forallb (fun n => P (Z.of_nat n)) (seq 0 k) = true ->
  forall z, 0 <= z < Z.of_nat k -> P z = true.
Proof.
  intros H z Hz. rewrite forallb_forall in H.
  assert (In (Z.to_nat z) (seq 0 k)) as Hin by (apply in_seq; lia).
  apply H in Hin. by rewrite Z2Nat.id in Hin by lia.
Qed.

(** a continuation byte: [*--ptr2 = ((uc | 0x80) & 0xBF)] *)
Lemma continuation_byte x : 0 <= x -> to_char (Z.land (Z.lor x 128) 191) = 128 + x mod 64.
Proof.
  intros Hx. unfold to_char.
  assert (Hr : 0 <= x mod 64 < 64) by (apply Z.mod_pos_bound; lia).
  assert (Z.land (Z.lor x 128) 191 = Z.lor (x mod 64) 128) as ->.
  { change 191 with (Z.lor (Z.ones 6) 128).
    rewrite Z.land_lor_distr_r, Z.land_lor_distr_l, Z.land_ones by lia.
    change (Z.land 128 (Z.ones 6)) with 0. rewrite Z.lor_0_r.
    change (2 ^ 6) with 64. f_equal.
    rewrite Z.land_lor_distr_l. change (Z.land 128 128) with 128.
    apply Z.bits_inj'. intros n Hn. rewrite Z.lor_spec, Z.land_spec.
    destruct (Z.testbit x n), (Z.testbit 128 n); reflexivity. }
  pose proof (table_below
    (fun r => Z.land (Z.lor r 128) 255 =? 128 + r) 64 eq_refl (x mod 64) Hr) as H.
  cbv beta in H. lia.
Qed.

(** the leading byte: [*--ptr2 = (uc | firstByteMark[len])] *)
Lemma leading_byte_2 y : 0 <= y < 32 -> to_char (Z.lor y 192) = 192 + y.
Proof.
  intros Hy. unfold to_char.
  pose proof (table_below (fun r => Z.land (Z.lor r 192) 255 =? 192 + r) 32 eq_refl y Hy) as H.
  cbv beta in H. lia.
Qed.

Lemma leading_byte_3 y : 0 <= y < 16 -> to_char (Z.lor y 224) = 224 + y.
Proof.
  intros Hy. unfold to_char.
  pose proof (table_below (fun r => Z.land (Z.lor r 224) 255 =? 224 + r) 16 eq_refl y Hy) as H.
  cbv beta in H. lia.
Qed.

Lemma leading_byte_1 y : 0 <= y < 128 -> to_char (Z.lor y 0) = y.
Proof.
  intros Hy. unfold to_char. rewrite Z.lor_0_r.
  change 255 with (Z.ones 8). rewrite Z.land_ones by lia.
  apply Z.mod_small. change (2 ^ 8) with 256. lia.
Qed.

Lemma utf8_utf8_encode cp : 0 <= cp < 65536 -> fst (utf8 cp) = utf8_encode cp.
Proof.
  intros Hcp. unfold utf8, utf8_encode.
  destruct (cp <? 128) eqn:E1.
  - change (1 =? 3) with false. change (1 =? 2) with false. cbv iota. cbn [fst].
    change (firstByteMark 1) with 0.
    rewrite leading_byte_1 by lia. reflexivity.
  - destruct (cp <? 2048) eqn:E2.
    + change (2 =? 3) with false. change (2 =? 2) with true. cbv iota. cbn [fst].
      change (firstByteMark 2) with 192.
      rewrite continuation_byte by lia.
      rewrite Z.shiftr_div_pow2 by lia. change (2 ^ 6) with 64.
      rewrite leading_byte_2; [reflexivity|].
      split; [apply Z.div_pos; lia|apply Z.div_lt_upper_bound; lia].
    + change (3 =? 3) with true. cbv iota. cbn [fst].
      change (firstByteMark 3) with 224.
      rewrite !Z.shiftr_div_pow2 by lia. change (2 ^ 6) with 64.
      rewrite !continuation_byte by (first [lia | apply Z.div_pos; lia]).
      rewrite Z.div_div by lia. change (64 * 64) with 4096.
      rewrite leading_byte_3; [reflexivity|].
      split; [apply Z.div_pos; lia|apply Z.div_lt_upper_bound; lia].
Qed.

Lemma cstr_cstring s : cstring s -> cstr s = s.
Proof.
  induction 1 as [|c s Hc _ IH]; simpl; [done|].
  assert ((c =? 0) = false) as -> by lia. by rewrite IH.
Qed.

Lemma hex_val_digit d : 0 <= d < 16 -> hex_val (hex_digit d) = Some d.
Proof.
  intros Hd. unfold hex_val, hex_digit.
  destruct (d <? 10) eqn:E.
  - assert (((48 <=? 48 + d) && (48 + d <=? 57)) = true) as -> by lia. f_equal. lia.
  - assert (((48 <=? 87 + d) && (87 + d <=? 57)) = false) as -> by lia.
    assert (((97 <=? 87 + d) && (87 + d <=? 102)) = true) as -> by lia. f_equal. lia.
Qed.

Lemma sscanf_fmt_04x_table rest :
  forallb (fun n => bool_decide (sscanf_4x (fmt_04x (Z.of_nat n) ++ rest) = Some (Z.of_nat n)))
          (seq 0 256) = true.
Proof. vm_compute. reflexivity. Qed.

Lemma sscanf_fmt_04x c rest : 0 <= c < 256 -> sscanf_4x (fmt_04x c ++ rest) = Some c.
Proof.
  intros Hc. pose proof (sscanf_fmt_04x_table rest) as H.
  rewrite forallb_forall in H.
  assert (In (Z.to_nat c) (seq 0 256)) as Hin by (apply in_seq; lia).
  apply H in Hin. rewrite Z2Nat.id in Hin by lia. by apply bool_decide_eq_true in Hin.
Qed.

(** *** the steps of the decoding loop *)

Lemma decode_plain c p uc :
  c <> 0 -> c <> 34 -> c <> 92 ->
  decode (c :: p) uc = rbind (decode p uc) (fun r => Ok (c :: fst r, snd r)).
Proof.
  intros H0 H1 H2. cbn [decode]. unfold nz.
  assert ((c =? 34) = false) as -> by lia.
  assert ((c =? 0) = false) as -> by lia.
  assert ((c =? 92) = false) as -> by lia. done.
Qed.

Lemma decode_quote p uc : decode (34 :: p) uc = Ok ([], 34 :: p).
Proof. reflexivity. Qed.

Lemma decode_simple e b p uc :
  simple_escape e = Some b ->
  decode (92 :: e :: p) uc = rbind (decode p uc) (fun r => Ok (b :: fst r, snd r)).
Proof.
  unfold simple_escape. intros H. cbn [decode]. cbn [Z.eqb negb nz andb Pos.eqb].
  destruct (e =? 98); [by inversion H|].
  destruct (e =? 102); [by inversion H|].
  destruct (e =? 110); [by inversion H|].
  destruct (e =? 114); [by inversion H|].
  destruct (e =? 116); [by inversion H|].
  destruct (e =? 117) eqn:Eu.
  { apply Z.eqb_eq in Eu. subst e. done. }
  destruct (e =? 92) eqn:E1; [inversion H; subst; apply Z.eqb_eq in E1; by subst e|].
  destruct (e =? 34) eqn:E2; [inversion H; subst; apply Z.eqb_eq in E2; by subst e|done].
Qed.

Lemma decode_unicode h1 h2 h3 h4 d1 d2 d3 d4 p uc :
  hex_val h1 = Some d1 -> hex_val h2 = Some d2 ->
  hex_val h3 = Some d3 -> hex_val h4 = Some d4 ->
  let cp := 4096 * d1 + 256 * d2 + 16 * d3 + d4 in
  decode (92 :: 117 :: h1 :: h2 :: h3 :: h4 :: p) uc =
    rbind (decode p (Some (snd (utf8 cp)))) (fun r => Ok (utf8_encode cp ++ fst r, snd r)).
Proof.
  intros H1 H2 H3 H4 cp. cbn [decode]. cbn [Z.eqb negb nz andb Pos.eqb].
  rewrite (sscanf_4x_hex _ _ _ _ _ _ _ _ _ H1 H2 H3 H4). fold cp.
  rewrite utf8_utf8_encode; [done|].
  apply hex_val_range in H1 as [? _]. apply hex_val_range in H2 as [? _].
  apply hex_val_range in H3 as [? _]. apply hex_val_range in H4 as [? _].
  unfold cp. lia.
Qed.

Lemma measure_plain c p len :
  c <> 0 -> c <> 34 -> c <> 92 -> measure (c :: p) len = measure p (len + 1).
Proof.
  intros H0 H1 H2. cbn [measure]. unfold nz.
  assert ((c =? 34) = false) as -> by lia.
  assert ((c =? 0) = false) as -> by lia.
  assert ((c =? 92) = false) as -> by lia. done.
Qed.

Lemma measure_escaped e p len : measure (92 :: e :: p) len = measure p (len + 1).
Proof. reflexivity. Qed.

Lemma hex_digit_plain d : 0 <= d < 16 ->
  hex_digit d <> 0 /\ hex_digit d <> 34 /\ hex_digit d <> 92.
Proof. intros Hd. unfold hex_digit. destruct (d <? 10) eqn:E; lia. Qed.

Lemma measure_fmt_04x c p len :
  measure (fmt_04x c ++ p) len = measure p (len + 4).
Proof.
  unfold fmt_04x. cbn [app].
  repeat (rewrite measure_plain; try (apply hex_digit_plain; apply Z.mod_pos_bound; lia)).
  f_equal. lia.
Qed.

(** the escapes [print_string_ptr] writes for one byte *)
Lemma escape_cons c r :
  1 <= c <= 255 ->
  (c <> 34 /\ c <> 92 /\ 31 < c /\ escape (c :: r) = c :: escape r)
  \/ (exists e, simple_escape e = Some c /\ escape (c :: r) = 92 :: e :: escape r)
  \/ (c < 32 /\ escape (c :: r) = 92 :: 117 :: fmt_04x c ++ escape r).
Proof.
  intros Hc. cbn [escape].
  destruct ((31 <? c) && negb (c =? 34) && negb (c =? 92)) eqn:E.
  { left. repeat split; try lia. }
  right.
  destruct (c =? 92) eqn:E1. { left. exists 92. apply Z.eqb_eq in E1. by subst. }
  destruct (c =? 34) eqn:E2. { left. exists 34. apply Z.eqb_eq in E2. by subst. }
  destruct (c =? 8) eqn:E3. { left. exists 98. apply Z.eqb_eq in E3. by subst. }
  destruct (c =? 12) eqn:E4. { left. exists 102. apply Z.eqb_eq in E4. by subst. }
  destruct (c =? 10) eqn:E5. { left. exists 110. apply Z.eqb_eq in E5. by subst. }
  destruct (c =? 13) eqn:E6. { left. exists 114. apply Z.eqb_eq in E6. by subst. }
  destruct (c =? 9) eqn:E7. { left. exists 116. apply Z.eqb_eq in E7. by subst. }
  right. split; [lia|done].
Qed.

Lemma decode_escape s : cstring s -> forall rest uc,
  decode (escape s ++ 34 :: rest) uc = Ok (s, 34 :: rest).
Proof.
  induction 1 as [|c r Hc _ IH]; intros rest uc; [reflexivity|].
  destruct (escape_cons c r Hc) as [(? & ? & ? & ->)|[(e & He & ->)|[? ->]]].
  - cbn [app]. rewrite decode_plain by lia. by rewrite IH.
  - cbn [app]. rewrite (decode_simple e c) by done. by rewrite IH.
  - cbn [app]. rewrite <- app_assoc. cbn [decode]. cbn [Z.eqb negb nz andb Pos.eqb].
    rewrite sscanf_fmt_04x by lia.
    unfold fmt_04x at 1. cbn [app]. rewrite IH. cbn [rbind fst snd].
    rewrite utf8_utf8_encode by lia. unfold utf8_encode.
    assert ((c <? 128) = true) as -> by lia. done.
Qed.

Lemma measure_escape s : cstring s -> forall rest len,
  exists m, measure (escape s ++ 34 :: rest) len = Ok m /\ len + Z.of_nat (length s) <= m.
Proof.
  induction 1 as [|c r Hc _ IH]; intros rest len.
  - exists len. split; [reflexivity|simpl; lia].
  - destruct (escape_cons c r Hc) as [(? & ? & ? & ->)|[(e & He & ->)|[? ->]]].
    + cbn [app]. rewrite measure_plain by lia.
      destruct (IH rest (len + 1)) as (m & -> & Hm). exists m. split; [done|].
      cbn [length]. lia.
    + cbn [app]. rewrite measure_escaped.
      destruct (IH rest (len + 1)) as (m & -> & Hm). exists m. split; [done|].
      cbn [length]. lia.
    + cbn [app]. rewrite <- app_assoc. rewrite measure_escaped, measure_fmt_04x.
      destruct (IH rest (len + 1 + 4)) as (m & -> & Hm). exists m. split; [done|].
      cbn [length]. lia.
Qed.

(** decoding what [print_string_ptr] wrote gives the string back *)
Lemma parse_string_print s item rest ep :
  cstring s ->
  parse_string item (print_string_ptr (Some s) ++ rest) ep
  = (Ok (set_type sJSON_String (set_valueString (Some s) item), rest), ep).
Proof.
  intros Hs. unfold parse_string, print_string_ptr.
  cbn [app cur hd tl Z.eqb Pos.eqb negb].
  rewrite <- app_assoc. cbn [app].
  destruct (measure_escape s Hs rest 0) as (m & Hm & Hle).
  unfold bind, lift. rewrite Hm, decode_escape by done.
  cbn [fst snd cur hd tl Z.eqb Pos.eqb].
  assert ((Z.of_nat (length s) <=? m) = true) as -> by lia.
  by rewrite cstr_cstring.
Qed.

(** C7: in the second pass of [parse_string], a backslash followed by one of
    [b f n r t], a backslash or a double quote yields the one byte the escape
    stands for; a backslash, [u] and four hexadecimal digits yield the UTF-8
    encoding, of one to three bytes, of the code point the digits denote.  The
    literal with [\u00e9] decodes to the bytes 0xC3 0xA9, and the two halves
    of a surrogate pair are encoded one by one, in three bytes each. *)
Theorem decode_escapes :
  (forall e b p uc, simple_escape e = Some b ->
     decode (92 :: e :: p) uc = rbind (decode p uc) (fun r => Ok (b :: fst r, snd r)))
  /\ (forall h1 h2 h3 h4 d1 d2 d3 d4 p uc,
        hex_val h1 = Some d1 -> hex_val h2 = Some d2 ->
        hex_val h3 = Some d3 -> hex_val h4 = Some d4 ->
        exists uc',
          decode (92 :: 117 :: h1 :: h2 :: h3 :: h4 :: p) uc =
            rbind (decode p uc')
              (fun r => Ok (utf8_encode (4096 * d1 + 256 * d2 + 16 * d3 + d4) ++ fst r, snd r)))
  /\ fst (parse_string sJSON_New_Item (qstr "'\u00e9'") None)
     = Ok (set_type sJSON_String (set_valueString (Some [195; 169]) sJSON_New_Item), [])
  /\ fst (parse_string sJSON_New_Item (qstr "'\ud83d\ude00'") None)
     = Ok (set_type sJSON_String
             (set_valueString (Some [237; 160; 189; 237; 184; 128]) sJSON_New_Item), []).
Proof.
  split; [exact decode_simple|]. split; [|split; vm_compute; reflexivity].
  intros. eexists. by apply decode_unicode.
Qed.

(** C8: for every string [s] of bytes 1..127, so with control characters,
    double quotes and backslashes, [parse_string] on the text that
    [print_string_ptr] renders for [s] consumes all of it and stores [s]. *)
Theorem string_escape_roundtrip (s : list Z) (item : sJSON) (ep : option cursor) :
  Forall (fun c => 1 <= c <= 127) s ->
  parse_string item (print_string_ptr (Some s)) ep
  = (Ok (set_type sJSON_String (set_valueString (Some s) item), []), ep).
Proof.
  intros Hs. rewrite <- (app_nil_r (print_string_ptr (Some s))).
  apply parse_string_print. eapply Forall_impl; [exact Hs|]. simpl. lia.
Qed.

(** * Numbers *)

Lemma is_digit_true c : 48 <= c <= 57 -> is_digit c = true.
Proof. unfold is_digit. lia. Qed.

Lemma int_digits_app ds : forall rest n,
  digits ds -> is_digit (cur rest) = false ->
  int_digits (ds ++ rest) n = (fold_left acc_digit ds n, rest).
Proof.
  induction ds as [|d ds IH]; intros rest n Hd Hr.
  - cbn [app fold_left]. destruct rest as [|c r]; [done|].
    cbn [int_digits]. unfold cur in Hr. cbn [hd] in Hr. by rewrite Hr.
  - inversion Hd; subst. cbn [app int_digits fold_left].
    rewrite is_digit_true by done. by apply IH.
Qed.

Lemma frac_digits_app ds : forall rest n s,
  digits ds -> is_digit (cur rest) = false ->
  frac_digits (ds ++ rest) n s
  = (fold_left acc_digit ds n, fold_left (fun s _ => PrimFloat.sub s 1%float) ds s, rest).
Proof.
  induction ds as [|d ds IH]; intros rest n s Hd Hr.
  - cbn [app fold_left]. destruct rest as [|c r]; [done|].
    cbn [frac_digits]. unfold cur in Hr. cbn [hd] in Hr. by rewrite Hr.
  - inversion Hd; subst. cbn [app frac_digits fold_left].
    rewrite is_digit_true by done. by apply IH.
Qed.

Lemma dec_from_ge ds : forall s, 0 <= s -> digits ds -> s <= dec_from s ds.
Proof.
  induction ds as [|d ds IH]; intros s Hs Hd; [simpl; lia|].
  inversion Hd; subst. cbn [dec_from fold_left].
  etrans; [|apply IH; [lia|done]]. lia.
Qed.

Lemma exp_digits_app ds : forall rest s,
  digits ds -> is_digit (cur rest) = false -> 0 <= s -> dec_from s ds <= INT_MAX ->
  exp_digits (ds ++ rest) s = Ok (dec_from s ds, rest).
Proof.
  induction ds as [|d ds IH]; intros rest s Hd Hr Hs Hmax.
  - cbn [app dec_from fold_left]. destruct rest as [|c r]; [done|].
    cbn [exp_digits]. unfold cur in Hr. cbn [hd] in Hr. by rewrite Hr.
  - inversion Hd; subst. cbn [app exp_digits].
    rewrite is_digit_true by done.
    cbn [dec_from fold_left] in Hmax. fold (dec_from (s * 10 + (d - 48)) ds) in Hmax.
    pose proof (dec_from_ge ds (s * 10 + (d - 48)) ltac:(lia) ltac:(done)).
    assert ((s * 10 + (d - 48) <=? INT_MAX) = true) as -> by lia.
    rewrite IH; try done; lia.
Qed.

Section Numbers.
Context `{libc : Externals}.

Lemma cur_app_digit ds rest : ds <> [] -> cur (ds ++ rest) = cur ds.
Proof. by destruct ds. Qed.

Lemma parse_number_text (L : literal) (item : sJSON) (rest : cursor) :
  wf_literal L -> number_end rest = true ->
  let item' := set_type sJSON_Number
                 (set_valueInt (double_to_int (literal_value L))
                    (set_valueDouble (literal_value L) item)) in
  parse_number item (literal_text L ++ rest) = Ok (item', rest)
  /\ valueDouble item' = literal_value L
  /\ (forall z, trunc (literal_value L) = Some z -> INT_MIN <= z <= INT_MAX ->
                valueInt item' = z).
Proof.
  intros (Hint & Hshape & Hfrac & Hexp) Hend item'.
  split; [|split; [reflexivity|]].
  2:{ intros z Hz Hr. unfold item'. cbn [valueInt set_type set_valueInt].
      unfold double_to_int.
      rewrite Hz. by assert (((INT_MIN <=? z) && (z <=? INT_MAX)) = true) as -> by lia. }
  unfold number_end in Hend.
  apply andb_true_iff in Hend as [Hend He2]. apply andb_true_iff in Hend as [Hend He1].
  apply andb_true_iff in Hend as [Hdig Hdot].
  apply negb_true_iff in Hdig, Hdot, He1, He2.
  unfold item', literal_value, exponent_of. clear item'.
  destruct L as [neg ip fr ex]. cbn [l_neg l_int l_frac l_exp] in *.
  unfold literal_text. cbn [l_neg l_int l_frac l_exp].
  set (etxt := match ex with Some (m, sg, ed) => m :: sg ++ ed | None => [] end).
  set (ftxt := match fr with Some fd => 46 :: fd | None => [] end).
  rewrite <- !app_assoc.
  assert (Hce : is_digit (cur (etxt ++ rest)) = false /\ (cur (etxt ++ rest) =? 46) = false).
  { unfold etxt. destruct ex as [[[m sg] ed]|]; [|done].
    destruct Hexp as ([-> | ->] & _). all: done. }
  assert (Hcf : is_digit (cur (ftxt ++ etxt ++ rest)) = false).
  { unfold ftxt. destruct fr; [done|]. apply Hce. }
  assert (exists d ds, ip = d :: ds /\ 48 <= d <= 57) as (d0 & ds0 & Eip & Hd0).
  { destruct Hshape as [->|(d & ds & -> & Hd)]; [by exists 48, []|].
    exists d, ds. split; [done|]. inversion Hint; subst. lia. }
  unfold parse_number.
  (* the sign *)
  assert (scan_sign ((if neg then [45] else []) ++ ip ++ ftxt ++ etxt ++ rest)
          = (if neg then (-1)%float else 1%float, ip ++ ftxt ++ etxt ++ rest)) as ->.
  { unfold scan_sign. destruct neg; [done|]. rewrite Eip. cbn [app]. unfold cur. cbn [hd].
    by assert ((d0 =? 45) = false) as -> by lia. }
  (* the leading zero and the integer digits *)
  assert (scan_int (scan_zero (ip ++ ftxt ++ etxt ++ rest))
          = (mantissa ip, ftxt ++ etxt ++ rest)) as ->.
  { unfold scan_int, scan_zero. destruct Hshape as [->|(d & ds & -> & Hd)].
    - cbn [app]. change (cur (48 :: ftxt ++ etxt ++ rest)) with 48.
      cbn [tl Z.eqb Pos.eqb].
      unfold is_digit in Hcf.
      destruct (49 <=? cur (ftxt ++ etxt ++ rest)) eqn:E1; [|done].
      destruct (cur (ftxt ++ etxt ++ rest) <=? 57) eqn:E2; [|done]. lia.
    - inversion Hint; subst. cbn [app]. unfold cur. cbn [hd].
      assert ((d =? 48) = false) as -> by lia. cbn [hd].
      assert (((49 <=? d) && (d <=? 57)) = true) as -> by lia.
      rewrite (int_digits_app (d :: ds) (ftxt ++ etxt ++ rest)); done. }
  (* the fraction *)
  assert (scan_frac (mantissa ip) (ftxt ++ etxt ++ rest)
          = Ok (mantissa (ip ++ default [] fr), scale_of (default [] fr), etxt ++ rest)) as ->.
  { unfold scan_frac, ftxt. destruct fr as [fd|]; cbn [default].
    - destruct Hfrac as [Hne Hfd]. destruct fd as [|f fs]; [done|].
      inversion Hfd; subst. unfold cur. cbn [app hd tl Z.eqb Pos.eqb frac_part].
      rewrite frac_digits_app by (done || apply Hce).
      unfold mantissa, scale_of, id. rewrite ?app_comm_cons, fold_left_app. done.
    - cbn [app]. destruct Hce as [_ ->]. by rewrite app_nil_r. }
  cbn [rbind].
  (* the exponent *)
  assert (scan_exp (etxt ++ rest)
          = Ok (match ex with Some (_, _, ed) => dec_value ed | None => 0 end,
                match ex with
                | Some (_, sg, _) => if bool_decide (sg = [45]) then -1 else 1
                | None => 1
                end, rest)) as ->.
  { unfold scan_exp, etxt. destruct ex as [[[m sg] ed]|].
    - destruct Hexp as (Hm & Hsg & Hne & Hed & Hmax).
      assert (((cur ((m :: sg ++ ed) ++ rest) =? 101)
               || (cur ((m :: sg ++ ed) ++ rest) =? 69)) = true) as ->.
      { unfold cur. cbn [app hd]. lia. }
      cbn [app tl]. cbv zeta.
      destruct ed as [|e es]; [done|]. inversion Hed; subst.
      destruct Hsg as [-> | [-> | ->]]; cbn [app]; unfold cur; cbn [hd tl Z.eqb Pos.eqb].
      + assert ((e =? 43) = false) as -> by lia.
        assert ((e =? 45) = false) as -> by lia.
        change (e :: es ++ rest) with ((e :: es) ++ rest).
        rewrite (exp_digits_app (e :: es)); try done.
      + change (e :: es ++ rest) with ((e :: es) ++ rest).
        rewrite (exp_digits_app (e :: es)); try done.
      + change (e :: es ++ rest) with ((e :: es) ++ rest).
        rewrite (exp_digits_app (e :: es)); try done.
    - cbn [app]. rewrite He1, He2. done. }
  cbn [rbind].
  do 4 f_equal.
  - destruct ex as [[[m sg] ed]|]; done.
  - destruct ex as [[[m sg] ed]|]; done.
Qed.

(** C6, amended: for every number literal of the JSON grammar (an optional
    minus sign; an integer part that is [0] or starts with a digit from 1 to
    9; an optional fraction of one or more digits; an optional exponent, with
    an optional sign, whose digits denote at most [INT_MAX]), followed by a
    byte that does not continue it, [parse_number] consumes the literal and
    stores [sign * mantissa * 10^(scale + exponent)] as [valueDouble], where
    the mantissa accumulates the digits of the integer and the fractional
    part, the scale is minus the number of fractional digits and the exponent
    is the signed exponent, or 0; [valueInt] is the conversion of that double
    to [int], which is the truncation of the value when that truncation is in
    the range of [int]; out of that range nothing is said of it. *)
Theorem parse_number_literal (L : literal) (item : sJSON) (rest : cursor) :
  wf_literal L -> number_end rest = true ->
  let item' := set_type sJSON_Number
                 (set_valueInt (double_to_int (literal_value L))
                    (set_valueDouble (literal_value L) item)) in
  parse_number item (literal_text L ++ rest) = Ok (item', rest)
  /\ valueDouble item' = literal_value L
  /\ (forall z, trunc (literal_value L) = Some z -> INT_MIN <= z <= INT_MAX ->
                valueInt item' = z).
Proof. apply parse_number_text. Qed.

End Numbers.

(** * What the parser returns *)

(** ** Inversion of the monad *)

Lemma bind_ok {A B} (m : M A) (k : A -> M B) ep b ep' :
  bind m k ep = (Ok b, ep') ->
  exists a ep1, m ep = (Ok a, ep1) /\ k a ep1 = (Ok b, ep').
Proof.
  unfold bind. destruct (m ep) as [[a| |f|] ep1]; intros H; try discriminate.
  by exists a, ep1.
Qed.

Lemma skipM_ok p ep q ep' :
  skipM p ep = (Ok q, ep') -> skip (Some p) = Ok q /\ ep' = ep.
Proof. unfold skipM, lift. intros H. by inversion H. Qed.

Lemma skip_result_ok {A} (m : M (A * cursor)) ep a q ep' :
  skip_result m ep = (Ok (a, q), ep') ->
  exists v, m ep = (Ok (a, v), ep') /\ skip (Some v) = Ok q.
Proof.
  unfold skip_result. destruct (m ep) as [[[a0 v]| |f|] ep1]; intros H; try discriminate.
  destruct (skip (Some v)) as [v'| | |] eqn:E; simpl in H; try discriminate.
  inversion H; subst. by exists v.
Qed.

Lemma cstring_suffix q p : q `suffix_of` p -> cstring p -> cstring q.
Proof. intros [k ->] H. by apply Forall_app in H as [_ ?]. Qed.

Lemma skip_cstring p q : skip (Some p) = Ok q -> cstring p -> cstring q.
Proof. intros H. apply cstring_suffix. by apply skip_suffix. Qed.

Lemma suffix_tl {A} (p : list A) : tl p `suffix_of` p.
Proof. destruct p; [done|]. by apply suffix_cons_r. Qed.

Lemma suffix_drop {A} n (p : list A) : drop n p `suffix_of` p.
Proof. exists (take n p). by rewrite take_drop. Qed.

(** ** What the scanners leave *)

Lemma int_digits_suffix p : forall n, snd (int_digits p n) `suffix_of` p.
Proof.
  induction p as [|c r IH]; intros n; cbn [int_digits]; [done|].
  destruct (is_digit c); [|done]. by apply suffix_cons_r.
Qed.

Lemma frac_digits_suffix p : forall n s, snd (frac_digits p n s) `suffix_of` p.
Proof.
  induction p as [|c r IH]; intros n s; cbn [frac_digits]; [done|].
  destruct (is_digit c); [|done]. by apply suffix_cons_r.
Qed.

Lemma exp_digits_suffix p : forall s z q, exp_digits p s = Ok (z, q) -> q `suffix_of` p.
Proof.
  induction p as [|c r IH]; intros s z q; cbn [exp_digits].
  - intros H. by inversion H.
  - destruct (is_digit c); [|intros H; by inversion H].
    destruct (_ <=? _); [|done]. intros H. apply suffix_cons_r. by eapply IH.
Qed.

(** ** What the string decoder leaves *)

Lemma to_char_range x : 0 <= to_char x <= 255.
Proof.
  unfold to_char.
  assert (Z.land x 255 = x mod 256) as ->.
  { change 255 with (Z.ones 8). by rewrite Z.land_ones by lia. }
  pose proof (Z.mod_pos_bound x 256 ltac:(lia)). lia.
Qed.

Lemma utf8_range u : Forall (fun c => 0 <= c <= 255) (fst (utf8 u)).
Proof.
  unfold utf8. destruct (_ =? 3); [|destruct (_ =? 2)]; cbn [fst];
    repeat constructor; apply to_char_range.
Qed.

Lemma cstr_range buf : Forall (fun c => 0 <= c <= 255) buf -> cstring (cstr buf).
Proof.
  induction 1 as [|c r Hc _ IH]; cbn [cstr]; [constructor|].
  destruct (c =? 0) eqn:E; [constructor|]. constructor; [lia|done].
Qed.

Lemma decode_range n : forall p uc out q,
  (length p <= n)%nat -> cstring p -> decode p uc = Ok (out, q) ->
  Forall (fun c => 0 <= c <= 255) out /\ q `suffix_of` p.
Proof.
  induction n as [|n IH]; intros p uc out q Hn Hp H.
  { destruct p; [|simpl in Hn; lia]. inversion H; subst. split; [constructor|done]. }
  destruct p as [|c p1]; [inversion H; subst; split; [constructor|done]|].
  inversion Hp as [|? ? Hc Hp1]; subst.
  cbn [decode] in H.
  destruct (negb (c =? 34) && nz c); [|inversion H; subst; split; [constructor|done]].
  assert (forall b r, 0 <= b <= 255 -> (length r <= n)%nat -> cstring r ->
            r `suffix_of` p1 ->
            rbind (decode r uc) (fun r0 => Ok (b :: fst r0, snd r0)) = Ok (out, q) ->
            Forall (fun c => 0 <= c <= 255) out /\ q `suffix_of` c :: p1) as Hemit.
  { intros b r Hb Hr Hcr Hs Hd.
    destruct (decode r uc) as [[o q']| | |] eqn:E; try done.
    cbn [rbind fst snd] in Hd. inversion Hd; subst.
    destruct (IH _ _ _ _ Hr Hcr E) as [Ho Hq].
    split; [by constructor|]. apply suffix_cons_r. by etrans. }
  simpl in Hn.
  destruct (negb (c =? 92)).
  { apply (Hemit c p1); try done; lia. }
  destruct p1 as [|e p2]; [done|].
  inversion Hp1 as [|? ? He Hp2]; subst. simpl in Hn.
  assert (p2 `suffix_of` e :: p2) as Hs2 by (by apply suffix_cons_r).
  destruct (e =? 98); [apply (Hemit 8 p2); try done; lia|].
  destruct (e =? 102); [apply (Hemit 12 p2); try done; lia|].
  destruct (e =? 110); [apply (Hemit 10 p2); try done; lia|].
  destruct (e =? 114); [apply (Hemit 13 p2); try done; lia|].
  destruct (e =? 116); [apply (Hemit 9 p2); try done; lia|].
  destruct (e =? 117); [|apply (Hemit e p2); try done; lia].
  destruct (match sscanf_4x p2 with Some v => Some v | None => uc end) as [u|]; [|done].
  destruct p2 as [|a1 [|a2 [|a3 [|a4 p6]]]]; try done.
  destruct (decode p6 (Some (snd (utf8 u)))) as [[o q']| | |] eqn:E; try done.
  cbn [rbind fst snd] in H. inversion H; subst.
  assert (cstring p6) as Hp6.
  { inversion Hp2 as [|? ? _ H3]; subst. inversion H3 as [|? ? _ H4]; subst.
    inversion H4 as [|? ? _ H5]; subst. by inversion H5. }
  assert (length p6 <= n)%nat as Hn6 by (cbn [length] in Hn; lia).
  destruct (IH _ _ _ _ Hn6 Hp6 E) as [Ho Hq].
  split; [apply Forall_app; split; [apply utf8_range|done]|].
  etrans; [done|]. by do 6 apply suffix_cons_r.
Qed.

Lemma ident_shape p : cstring p -> cstring (fst (ident p)) /\ snd (ident p) `suffix_of` p.
Proof.
  induction 1 as [|c r Hc _ [IH1 IH2]]; cbn [ident]; [split; [constructor|done]|].
  destruct (ident_char c); cbn [fst snd]; [|split; [constructor|done]].
  split; [by constructor|by apply suffix_cons_r].
Qed.

Lemma parse_string_shape item v ep t r ep' :
  cstring v -> parse_string item v ep = (Ok (t, r), ep') ->
  (exists s, t = set_type sJSON_String (set_valueString (Some s) item) /\ cstring s)
  /\ r `suffix_of` v /\ ep' = ep.
Proof.
  intros Hv. unfold parse_string.
  destruct (negb (cur v =? 34)); [done|].
  unfold bind, lift.
  destruct (measure (tl v) 0) as [len| | |]; try done.
  destruct (decode (tl v) None) as [[out q]| | |] eqn:E; try done.
  cbn [fst snd]. destruct (_ <=? len); [|done].
  intros H. inversion H; subst.
  assert (cstring (tl v)) as Htl by (apply (cstring_suffix _ v); [apply suffix_tl|done]).
  destruct (decode_range _ _ _ _ _ (le_n _) Htl E) as [Ho Hq].
  split; [eexists; split; [done|by apply cstr_range]|]. split; [|done].
  destruct (cur q =? 34).
  - etrans; [apply suffix_tl|]. etrans; [done|]. apply suffix_tl.
  - etrans; [done|]. apply suffix_tl.
Qed.

Lemma parse_key_shape item v ep t r ep' :
  cstring v -> parse_string_or_identifier item v ep = (Ok (t, r), ep') ->
  (exists s, t = set_type sJSON_String (set_valueString (Some s) item) /\ cstring s)
  /\ r `suffix_of` v /\ ep' = ep.
Proof.
  intros Hv. unfold parse_string_or_identifier.
  destruct (cur v =? 34); [by apply parse_string_shape|].
  destruct (_ || _); [|done].
  intros H. inversion H; subst.
  destruct (ident_shape v Hv) as [? ?]. split; [eauto|done].
Qed.

Section Sound.
Context `{libc : Externals}.

Lemma parse_number_shape item v t r :
  parse_number item v = Ok (t, r) ->
  (exists d i, t = set_type sJSON_Number (set_valueInt i (set_valueDouble d item)))
  /\ r `suffix_of` v.
Proof.
  unfold parse_number.
  destruct (scan_sign v) as [sign v1] eqn:E1.
  assert (v1 `suffix_of` v) as S1.
  { unfold scan_sign in E1. destruct (cur v =? 45); inversion E1; subst; [apply suffix_tl|done]. }
  assert (scan_zero v1 `suffix_of` v1) as S2.
  { unfold scan_zero. destruct (cur v1 =? 48); [apply suffix_tl|done]. }
  destruct (scan_int (scan_zero v1)) as [n v3] eqn:E3.
  assert (v3 `suffix_of` scan_zero v1) as S3.
  { unfold scan_int in E3. destruct (_ && _).
    - pose proof (int_digits_suffix (scan_zero v1) 0%float) as H. by rewrite E3 in H.
    - by inversion E3. }
  destruct (scan_frac n v3) as [[[n4 sc] v4]| | |] eqn:E4; try done.
  assert (v4 `suffix_of` v3) as S4.
  { unfold scan_frac in E4. destruct (cur v3 =? 46); [|by inversion E4].
    destruct v3 as [|c0 [|c1 v3']]; try done. cbn [tl frac_part] in E4.
    inversion E4 as [E]. 
    lazymatch type of E with
    | frac_digits ?p ?a ?b = _ => pose proof (frac_digits_suffix p a b) as H
    end.
    rewrite E in H. cbn [snd] in H. by apply suffix_cons_r, suffix_cons_r. }
  cbn [rbind].
  destruct (scan_exp v4) as [[[ss sg] v5]| | |] eqn:E5; try done.
  assert (v5 `suffix_of` v4) as S5.
  { unfold scan_exp in E5. destruct (_ || _); [|by inversion E5].
    cbv zeta in E5.
    destruct (cur (tl v4) =? 43).
    - destruct (exp_digits (tl (tl v4)) 0) as [[z q]| | |] eqn:E; try done.
      inversion E5; subst. apply exp_digits_suffix in E.
      etrans; [done|]. etrans; apply suffix_tl.
    - destruct (cur (tl v4) =? 45).
      + destruct (exp_digits (tl (tl v4)) 0) as [[z q]| | |] eqn:E; try done.
        inversion E5; subst. apply exp_digits_suffix in E.
        etrans; [done|]. etrans; apply suffix_tl.
      + destruct (exp_digits (tl v4) 0) as [[z q]| | |] eqn:E; try done.
        inversion E5; subst. apply exp_digits_suffix in E.
        etrans; [done|]. apply suffix_tl. }
  cbn [rbind]. intros H. inversion H; subst. split; [eauto|].
  etrans; [done|]. etrans; [done|]. etrans; [done|]. by etrans.
Qed.

Lemma base_new : base sJSON_New_Item.
Proof. done. Qed.

Section Builders.
Context (pv : sJSON -> option cursor -> M (sJSON * cursor)) (Hpv : pv_sound pv).

Lemma array_loop_sound k : forall done child value ep l rest ep',
  Forall elem_ok done -> elem_ok child -> cstring value ->
  array_loop pv k done child value ep = (Ok (l, rest), ep') ->
  Forall elem_ok l /\ cstring rest.
Proof.
  induction k as [|k IH]; intros done child value ep l rest ep' Hdone Hchild Hv H;
    cbn [array_loop] in H; destruct (negb (cur value =? 93)); try done.
  - by inversion H.
  - inversion H; subst. split; [|done]. apply Forall_app. split; [done|by constructor].
  - apply bind_ok in H as (v & ep1 & Hs & H). apply skipM_ok in Hs as [Hs ->].
    apply bind_ok in H as ([c v2] & ep2 & Hr & H).
    apply skip_result_ok in Hr as (v1 & Hr & Hs2).
    assert (cstring v) as Hcv.
    { apply (skip_cstring _ _ Hs). destruct (cur value =? 44); [|done].
      apply (cstring_suffix _ value); [apply suffix_tl|done]. }
    destruct (Hpv _ _ _ _ _ _ base_new Hcv Hr) as (Hc1 & Hc2 & Hc3 & Hc4).
    cbn [fst snd] in H.
    apply (IH (done ++ [child]) c v2 ep2 l rest ep');
      [apply Forall_app; split; [done|by constructor]|done|by eapply skip_cstring|exact H].
  - inversion H; subst. split; [|done]. apply Forall_app. split; [done|by constructor].
Qed.

Lemma parse_array_sound k item value ep t rest ep' :
  base item -> cstring value ->
  parse_array pv k item value ep = (Ok (t, rest), ep') ->
  shaped t /\ nameString t = nameString item /\ nameHash t = nameHash item /\ cstring rest.
Proof.
  intros (Hb1 & Hb2 & Hb3 & Hb4) Hv. unfold parse_array.
  destruct (negb (cur value =? 91)); [done|]. intros H.
  apply bind_ok in H as (v & ep1 & Hs & H). apply skipM_ok in Hs as [Hs ->].
  assert (cstring v) as Hcv.
  { apply (skip_cstring _ _ Hs). apply (cstring_suffix _ value); [apply suffix_tl|done]. }
  destruct (cur v =? 93).
  { inversion H; subst. split; [|split; [done|split; [done|]]].
    - apply shaped_array; try done. cbn [child set_type]. rewrite Hb4. constructor.
    - apply (cstring_suffix _ v); [apply suffix_tl|done]. }
  apply bind_ok in H as (v1 & ep2 & Hs1 & H). apply skipM_ok in Hs1 as [Hs1 ->].
  apply bind_ok in H as ([c v2] & ep3 & Hr & H).
  apply skip_result_ok in Hr as (v3 & Hr & Hs2).
  destruct (Hpv _ _ _ _ _ _ base_new (skip_cstring _ _ Hs1 Hcv) Hr) as (Hc1 & Hc2 & Hc3 & Hc4).
  apply bind_ok in H as ([l v4] & ep4 & Hl & H). cbn [fst snd] in *.
  destruct (array_loop_sound _ _ _ _ _ _ _ _ (Forall_nil_2 _) (conj Hc1 (conj Hc2 Hc3))
              (skip_cstring _ _ Hs2 Hc4) Hl) as [Hl1 Hl2].
  destruct (cur v4 =? 93); [|done]. inversion H; subst.
  split; [|split; [done|split; [done|]]].
  - by apply shaped_array.
  - apply (cstring_suffix _ v4); [apply suffix_tl|done].
Qed.

Lemma parse_member_sound v ep t rest ep' :
  cstring v -> parse_member pv v ep = (Ok (t, rest), ep') ->
  member_ok t /\ cstring rest.
Proof.
  intros Hv H. unfold parse_member in H.
  apply bind_ok in H as ([c v1] & ep1 & Hr & H).
  apply skip_result_ok in Hr as (v0 & Hr & Hs).
  apply parse_key_shape in Hr as ((s & -> & Hs') & Hsuf & ->); [|done].
  cbn [fst snd] in H.
  destruct (negb (cur v1 =? 58) && negb (cur v1 =? 61)); [done|].
  apply bind_ok in H as (v2 & ep2 & Hs2 & H). apply skipM_ok in Hs2 as [Hs2 ->].
  apply skip_result_ok in H as (v3 & H & Hs3).
  assert (cstring v1) as Hv1 by (eapply skip_cstring; [done|by eapply cstring_suffix]).
  assert (cstring v2) as Hv2.
  { apply (skip_cstring _ _ Hs2). apply (cstring_suffix _ v1); [apply suffix_tl|done]. }
  apply Hpv in H as (H1 & H2 & H3 & H4); [|done|done].
  split; [|by eapply skip_cstring].
  split; [done|]. exists s. cbn in H2, H3. done.
Qed.

Lemma object_loop_sound k : forall done child value ep l rest ep',
  Forall member_ok done -> member_ok child -> cstring value ->
  object_loop pv k done child value ep = (Ok (l, rest), ep') ->
  Forall member_ok l /\ cstring rest.
Proof.
  induction k as [|k IH]; intros done child value ep l rest ep' Hdone Hchild Hv H;
    cbn [object_loop] in H;
    destruct (negb (cur value =? 125) && negb (cur value =? 0)); try done.
  - by inversion H.
  - inversion H; subst. split; [|done]. apply Forall_app. split; [done|by constructor].
  - apply bind_ok in H as (v & ep1 & Hs & H). apply skipM_ok in Hs as [Hs ->].
    apply bind_ok in H as ([c v2] & ep2 & Hr & H).
    assert (cstring v) as Hcv.
    { apply (skip_cstring _ _ Hs). destruct (cur value =? 44); [|done].
      apply (cstring_suffix _ value); [apply suffix_tl|done]. }
    destruct (parse_member_sound _ _ _ _ _ Hcv Hr) as [Hm Hc].
    cbn [fst snd] in H.
    apply (IH (done ++ [child]) c v2 ep2 l rest ep');
      [apply Forall_app; split; [done|by constructor]|done|done|exact H].
  - inversion H; subst. split; [|done]. apply Forall_app. split; [done|by constructor].
Qed.

Lemma parse_object_sound k item value ep t rest ep' :
  base item -> cstring value ->
  parse_object pv k item value ep = (Ok (t, rest), ep') ->
  shaped t /\ nameString t = nameString item /\ nameHash t = nameHash item /\ cstring rest.
Proof.
  intros (Hb1 & Hb2 & Hb3 & Hb4) Hv. unfold parse_object.
  destruct (cur value =? 125).
  { intros H. inversion H; subst. split; [|split; [done|split; [done|]]].
    - apply shaped_object; try done. cbn [child set_type]. rewrite Hb4. constructor.
    - apply (cstring_suffix _ value); [apply suffix_tl|done]. }
  intros H.
  apply bind_ok in H as (v & ep1 & Hs & H). apply skipM_ok in Hs as [Hs ->].
  apply bind_ok in H as ([c v2] & ep2 & Hr & H).
  destruct (parse_member_sound _ _ _ _ _ (skip_cstring _ _ Hs Hv) Hr) as [Hm Hc].
  apply bind_ok in H as ([l v4] & ep4 & Hl & H). cbn [fst snd] in *.
  destruct (object_loop_sound _ _ _ _ _ _ _ _ (Forall_nil_2 _) Hm Hc Hl) as [Hl1 Hl2].
  assert (shaped (set_child l (set_type sJSON_Object item))) as Hsh
    by (by apply shaped_object).
  destruct (cur v4 =? 0).
  { inversion H; subst. done. }
  destruct (cur v4 =? 125); [|done]. inversion H; subst.
  split; [done|]. split; [done|]. split; [done|].
  apply (cstring_suffix _ v4); [apply suffix_tl|done].
Qed.

End Builders.

Lemma parse_value_sound n : pv_sound (parse_value n).
Proof.
  induction n as [|n IH]; intros item value ep t rest ep' Hb Hv H; [done|].
  rewrite parse_value_classify in H.
  pose proof Hb as (Hb1 & Hb2 & Hb3 & Hb4).
  destruct (classify value).
  - inversion H; subst. split; [|split; [done|split; [done|]]].
    + apply shaped_literal; try done. by left.
    + apply (cstring_suffix _ value); [apply suffix_drop|done].
  - inversion H; subst. split; [|split; [done|split; [done|]]].
    + apply shaped_literal; try done. by right.
    + apply (cstring_suffix _ value); [apply suffix_drop|done].
  - inversion H; subst. split; [|split; [done|split; [done|]]].
    + by apply shaped_true.
    + apply (cstring_suffix _ value); [apply suffix_drop|done].
  - injection H as H1 H2.
    apply parse_number_shape in H1 as [(d & i & ->) Hs].
    split; [|split; [done|split; [done|]]].
    + by apply shaped_number.
    + by eapply cstring_suffix.
  - by eapply parse_array_sound.
  - apply bind_ok in H as (v & ep1 & Hs & H). apply skipM_ok in Hs as [Hs ->].
    eapply parse_object_sound; [exact IH|done| |exact H].
    apply (skip_cstring _ _ Hs). apply (cstring_suffix _ value); [apply suffix_tl|done].
  - apply parse_string_shape in H as ((s & -> & Hs) & Hsuf & ->); [|done].
    split; [|split; [done|split; [done|]]].
    + by eapply shaped_string.
    + by eapply cstring_suffix.
  - done.
Qed.

End Sound.

(** * Parsing what the serializer renders *)

Lemma join_array_more fmt e es : join_array fmt (e :: es) = e ++ more fmt es.
Proof.
  revert e. induction es as [|e' es IH]; intros e.
  - by rewrite app_nil_r.
  - change (join_array fmt (e :: e' :: es))
      with (e ++ [44] ++ (if fmt then [32] else []) ++ join_array fmt (e' :: es)).
    by rewrite IH.
Qed.

Lemma collect_map {A} (f : A -> res (list Z)) cs es :
  Forall2 (fun c e => f c = Ok e) cs es -> collect (map f cs) = Ok es.
Proof.
  induction 1 as [|c e cs es Hc _ IH]; [done|].
  cbn [map collect]. by rewrite Hc, IH.
Qed.

Lemma collect_all_map {A} (f : A -> res (list Z)) cs es :
  Forall2 (fun c e => f c = Ok e) cs es -> collect_all (map f cs) = Ok es.
Proof.
  induction 1 as [|c e cs es Hc _ IH]; [done|].
  cbn [map collect_all]. by rewrite Hc, IH.
Qed.

Lemma value_start_token c : value_start c = true -> 32 < c /\ c <> 47 /\ c <> 93 /\ c <> 125.
Proof. unfold value_start, is_digit. lia. Qed.

Lemma value_end_number rest : value_end rest = true -> number_end rest = true.
Proof. unfold value_end, number_end, is_digit. lia. Qed.

Lemma skip_nil : skip (Some []) = Ok [].
Proof. reflexivity. Qed.

(** ** Running the monad *)

Lemma bind_eq {A B} (m : M A) (k : A -> M B) ep a ep1 :
  m ep = (Ok a, ep1) -> bind m k ep = k a ep1.
Proof. unfold bind. by intros ->. Qed.

Lemma skipM_eq p q ep : skip (Some p) = Ok q -> skipM p ep = (Ok q, ep).
Proof. unfold skipM, lift. by intros ->. Qed.

Lemma skip_result_eq {A} (m : M (A * cursor)) ep a v q ep1 :
  m ep = (Ok (a, v), ep1) -> skip (Some v) = Ok q ->
  skip_result m ep = (Ok (a, q), ep1).
Proof. unfold skip_result. by intros -> ->. Qed.

Lemma value_end_skip c r : value_end (c :: r) = true -> c <> 10 -> skip (Some (c :: r)) = Ok (c :: r).
Proof.
  unfold value_end, cur. cbn [hd]. intros H Hc.
  destruct (c =? 0) eqn:E0.
  { apply Z.eqb_eq in E0. subst c. reflexivity. }
  apply skip_token; lia.
Qed.

Section Reparse.
Context `{libc : Externals}.

Lemma print_value_eq item depth fmt :
  print_value item depth fmt =
  let t := Z.land (type item) 255 in
  if t =? sJSON_NULL then Ok (str "null")
  else if t =? sJSON_False then Ok (str "false")
  else if t =? sJSON_True then Ok (str "true")
  else if t =? sJSON_Number then print_number item
  else if t =? sJSON_String then Ok (print_string item)
  else if t =? sJSON_Array then
    rbind (collect (map (fun c => print_value c (S depth) fmt) (child item)))
      (fun entries => Ok ([91] ++ join_array fmt entries ++ [93]))
  else if t =? sJSON_Object then
    rbind (collect_all (map (fun c => print_value c (S depth) fmt) (child item)))
      (fun entries =>
         Ok ([123] ++ (if fmt then [10] else [])
             ++ join_object fmt (S depth)
                  (combine (map (fun c => print_string_ptr (nameString c)) (child item)) entries)
             ++ (if fmt then repeat 9 depth else []) ++ [125]))
  else Null.
Proof. destruct item. reflexivity. Qed.

Section Fuel.
Context (n : nat).

Lemma like_similar_elem c' c :
  like sJSON_New_Item c' c -> nameString c = None -> nameHash c = 0 -> similar c' c.
Proof.
  intros (H1 & H2 & H3 & H4 & H5 & H6) Hn Hh.
  apply similar_node; try done.
  - by rewrite H3, Hn.
  - by rewrite H4, Hh.
  - rewrite H1. exact H5.
Qed.

Lemma array_loop_reparse fmt rest cs es :
  Forall2 (elem_pair n) cs es ->
  forall k done child ep, (length cs <= k)%nat ->
  exists cs',
    array_loop (parse_value n) k done child (more fmt es ++ 93 :: rest) ep
    = (Ok ((done ++ [child]) ++ cs', 93 :: rest), ep)
    /\ Forall2 similar cs' cs.
Proof.
  induction 1 as [|c e cs es (Hre & (c0 & r0 & -> & Hc0) & Hn & Hh) _ IH];
    intros k done child ep Hk.
  - exists []. split; [|constructor]. rewrite app_nil_r.
    destruct k; reflexivity.
  - destruct k as [|k]; [simpl in Hk; lia|].
    apply value_start_token in Hc0 as (Hc1 & Hc2 & Hc3 & Hc4).
    set (X := more fmt es ++ 93 :: rest).
    assert (more fmt ((c0 :: r0) :: es) ++ 93 :: rest
            = 44 :: (if fmt then [32] else []) ++ c0 :: (r0 ++ X)) as ->.
    { cbn [more]. rewrite <- !app_assoc. reflexivity. }
    cbn [array_loop cur hd Z.eqb Pos.eqb negb tl].
    assert (value_end X = true) as Hend.
    { unfold X. destruct es; reflexivity. }
    assert (skip (Some X) = Ok X) as Hsk.
    { unfold X. destruct es; apply skip_token; lia. }
    destruct (Hre sJSON_New_Item X ep base_new Hend) as (c' & Hp & Hl).
    erewrite bind_eq.
    2:{ apply skipM_eq. apply (skip_blank (if fmt then [32] else [])); [|done|done].
        destruct fmt; repeat constructor; lia. }
    change ((c0 :: r0) ++ X) with (c0 :: (r0 ++ X)) in Hp.
    erewrite bind_eq; [|by eapply skip_result_eq].
    cbn [fst snd].
    destruct (IH k (done ++ [child]) c' ep) as (cs' & Hloop & Hsim); [simpl in Hk; lia|].
    exists (c' :: cs'). split.
    + fold X in Hloop. rewrite Hloop. by rewrite <- !app_assoc.
    + constructor; [|done]. by apply like_similar_elem.
Qed.

Lemma parse_array_reparse fmt cs es item rest ep k :
  Forall2 (elem_pair n) cs es -> (length cs <= S k)%nat -> child item = [] ->
  exists l,
    parse_array (parse_value n) k item ([91] ++ join_array fmt es ++ [93] ++ rest) ep
    = (Ok (set_child l (set_type sJSON_Array item), rest), ep)
    /\ Forall2 similar l cs.
Proof.
  intros Hall Hk Hch. unfold parse_array.
  destruct Hall as [|c e cs es (Hre & (c0 & r0 & -> & Hc0) & Hn & Hh) Hall].
  - exists []. split; [|constructor].
    change ([91] ++ join_array fmt [] ++ [93] ++ rest) with (91 :: 93 :: rest).
    cbn [cur hd tl Z.eqb Pos.eqb negb].
    erewrite bind_eq; [|apply skipM_eq, skip_token; lia].
    cbn [cur hd tl Z.eqb Pos.eqb]. unfold ret.
    do 2 f_equal. destruct item. cbn in Hch. subst. reflexivity.
  - apply value_start_token in Hc0 as (Hc1 & Hc2 & Hc3 & Hc4).
    rewrite join_array_more.
    set (X := more fmt es ++ 93 :: rest).
    assert ([91] ++ ((c0 :: r0) ++ more fmt es) ++ [93] ++ rest = 91 :: c0 :: (r0 ++ X)) as ->.
    { rewrite <- !app_assoc. reflexivity. }
    cbn [cur hd tl Z.eqb Pos.eqb negb].
    erewrite bind_eq; [|apply skipM_eq, skip_token; lia].
    cbn [cur hd]. assert ((c0 =? 93) = false) as -> by lia.
    erewrite bind_eq; [|apply skipM_eq, skip_token; lia].
    assert (value_end X = true) as Hend.
    { unfold X. destruct es; reflexivity. }
    assert (skip (Some X) = Ok X) as Hsk.
    { unfold X. destruct es; apply skip_token; lia. }
    destruct (Hre sJSON_New_Item X ep base_new Hend) as (c' & Hp & Hl).
    change ((c0 :: r0) ++ X) with (c0 :: (r0 ++ X)) in Hp.
    erewrite bind_eq; [|by eapply skip_result_eq].
    cbn [fst snd].
    destruct (array_loop_reparse fmt rest cs es Hall k [] c' ep) as (cs' & Hloop & Hsim);
      [simpl in Hk; lia|].
    fold X in Hloop. erewrite bind_eq; [|exact Hloop].
    cbn [fst snd cur hd tl Z.eqb Pos.eqb app]. unfold ret.
    exists (c' :: cs'). split; [done|].
    constructor; [|done]. by apply like_similar_elem.
Qed.

(** *** Objects *)

Lemma blank_repeat_tab d : blank (repeat 9 d).
Proof. induction d; cbn [repeat]; constructor; (lia || done). Qed.

Lemma blank_app a b : blank a -> blank b -> blank (a ++ b).
Proof. intros. apply Forall_app. done. Qed.

Lemma like_similar_member k item c' c :
  like item c' c -> nameString item = Some k -> nameHash item = murmurString k ->
  nameString c = Some k -> nameHash c = murmurString k -> similar c' c.
Proof.
  intros (H1 & H2 & H3 & H4 & H5 & H6) Hn Hh Hcn Hch.
  apply similar_node; try done.
  - by rewrite H3, Hn, Hcn.
  - by rewrite H4, Hh, Hch.
  - rewrite H1. exact H5.
Qed.

Lemma join_object_cons fmt depth ce ms rest :
  join_object fmt (S depth) (map named (ce :: ms))
  ++ (if fmt then repeat 9 depth else []) ++ 125 :: rest
  = (if fmt then repeat 9 (S depth) else []) ++ from_key fmt depth ce ms rest.
Proof.
  unfold from_key, after_value. cbn [map join_object named].
  destruct ce as [c e]. cbn [fst snd named]. rewrite <- !app_assoc. reflexivity.
Qed.

Lemma after_value_skip fmt depth ms rest :
  skip (Some (after_value fmt depth ms rest)) = Ok (pending fmt depth ms rest)
  /\ value_end (after_value fmt depth ms rest) = true.
Proof.
  unfold after_value, pending. destruct ms as [|m ms].
  - cbn [map join_object app]. split.
    + rewrite app_assoc. apply skip_blank; [|lia|lia].
      apply blank_app.
      * destruct fmt; [repeat constructor; lia|constructor].
      * destruct fmt; [apply blank_repeat_tab|constructor].
    + destruct fmt; [reflexivity|]. reflexivity.
  - cbn [map]. split; [apply skip_token; lia|reflexivity].
Qed.

(** one member: from its key to the text the loop stands at next *)
Lemma parse_member_reparse fmt depth ce ms rest ep :
  (member_pair n) ce ->
  exists c',
    parse_member (parse_value n) (from_key fmt depth ce ms rest) ep
    = (Ok (c', pending fmt depth ms rest), ep)
    /\ similar c' (fst ce).
Proof.
  intros (Hre & (c0 & r0 & He & Hc0) & (k & Hk & Hck & Hh)).
  destruct (after_value_skip fmt depth ms rest) as [Hsk Hend].
  unfold from_key. rewrite Hk.
  unfold parse_member, parse_string_or_identifier.
  change (cur (print_string_ptr (Some k) ++ _)) with 34.
  cbn [Z.eqb Pos.eqb].
  erewrite bind_eq.
  2:{ eapply skip_result_eq; [apply parse_string_print; done|]. apply skip_token; lia. }
  cbn [fst snd cur hd tl Z.eqb Pos.eqb negb andb].
  cbn [valueString set_type set_valueString set_nameHash set_nameString default].
  set (item := set_valueString None _).
  assert (base item) as Hb by done.
  destruct (Hre item (after_value fmt depth ms rest) ep Hb Hend) as (c' & Hp & Hl).
  apply value_start_token in Hc0 as (Hc1 & Hc2 & Hc3 & Hc4).
  erewrite bind_eq.
  2:{ apply skipM_eq. rewrite He. cbn [app].
      apply (skip_blank (if fmt then [9] else [])); [|done|done].
      destruct fmt; repeat constructor; lia. }
  rewrite He in Hp. cbn [app] in Hp.
  exists c'. split; [by eapply skip_result_eq|].
  eapply like_similar_member; [exact Hl|done|done|done|done].
Qed.

Lemma object_loop_reparse fmt depth rest ms :
  Forall (member_pair n) ms ->
  forall k done child ep, (length ms <= k)%nat ->
  exists cs',
    object_loop (parse_value n) k done child (pending fmt depth ms rest) ep
    = (Ok ((done ++ [child]) ++ cs', 125 :: rest), ep)
    /\ Forall2 similar cs' (map fst ms).
Proof.
  induction 1 as [|ce ms Hce _ IH]; intros k done child ep Hk.
  - exists []. split; [|constructor]. rewrite app_nil_r.
    destruct k; reflexivity.
  - destruct k as [|k]; [simpl in Hk; lia|].
    pose proof Hce as (_ & _ & (kk & Hkk & _)).
    assert (from_key fmt depth ce ms rest
            = 34 :: tl (from_key fmt depth ce ms rest)) as E.
    { unfold from_key. rewrite Hkk. reflexivity. }
    unfold pending at 1. rewrite join_object_cons.
    cbn [object_loop cur hd tl Z.eqb Pos.eqb negb andb].
    erewrite bind_eq.
    2:{ apply skipM_eq. rewrite app_assoc. rewrite E.
        apply skip_blank; [|lia|lia].
        apply blank_app.
        - destruct fmt; [repeat constructor; lia|constructor].
        - destruct fmt; [apply (blank_repeat_tab (S depth))|constructor]. }
    destruct (parse_member_reparse fmt depth ce ms rest ep Hce) as (c' & Hm & Hsim).
    rewrite <- E. erewrite bind_eq; [|exact Hm].
    cbn [fst snd].
    destruct (IH k (done ++ [child]) c' ep) as (cs' & Hloop & Hs); [simpl in Hk; lia|].
    exists (c' :: cs'). split.
    + rewrite Hloop. by rewrite <- !app_assoc.
    + cbn [map]. by constructor.
Qed.

Lemma parse_object_reparse (fmt : bool) depth ms item rest ep k :
  Forall (member_pair n) ms -> (length ms <= S k)%nat -> child item = [] ->
  exists l,
    bind (skipM ((if fmt then [10] else [])
                 ++ join_object fmt (S depth) (map named ms)
                 ++ (if fmt then repeat 9 depth else []) ++ 125 :: rest))
         (fun v => parse_object (parse_value n) k item v) ep
    = (Ok (set_child l (set_type sJSON_Object item), rest), ep)
    /\ Forall2 similar l (map fst ms).
Proof.
  intros Hall Hk Hch.
  destruct Hall as [|ce ms Hce Hall].
  - exists []. split; [|constructor].
    cbn [map join_object app].
    erewrite bind_eq.
    2:{ apply skipM_eq. rewrite app_assoc. apply skip_blank; [|lia|lia].
        apply blank_app.
        - destruct fmt; [repeat constructor; lia|constructor].
        - destruct fmt; [apply blank_repeat_tab|constructor]. }
    unfold parse_object. cbn [cur hd tl Z.eqb Pos.eqb]. unfold ret.
    do 2 f_equal. destruct item. cbn in Hch. subst. reflexivity.
  - pose proof Hce as (_ & _ & (kk & Hkk & _)).
    assert (from_key fmt depth ce ms rest
            = 34 :: tl (from_key fmt depth ce ms rest)) as E.
    { unfold from_key. rewrite Hkk. reflexivity. }
    rewrite join_object_cons.
    erewrite bind_eq.
    2:{ apply skipM_eq. rewrite app_assoc. rewrite E.
        apply skip_blank; [|lia|lia].
        apply blank_app.
        - destruct fmt; [repeat constructor; lia|constructor].
        - destruct fmt; [apply (blank_repeat_tab (S depth))|constructor]. }
    unfold parse_object. cbn [cur hd tl Z.eqb Pos.eqb].
    erewrite bind_eq; [|apply skipM_eq, skip_token; lia].
    destruct (parse_member_reparse fmt depth ce ms rest ep Hce) as (c' & Hm & Hsim).
    rewrite <- E. erewrite bind_eq; [|exact Hm].
    cbn [fst snd].
    destruct (object_loop_reparse fmt depth rest ms Hall k [] c' ep) as (cs' & Hloop & Hs);
      [simpl in Hk; lia|].
    erewrite bind_eq; [|exact Hloop].
    cbn [fst snd cur hd tl Z.eqb Pos.eqb app]. unfold ret.
    exists (c' :: cs'). split; [done|]. cbn [map]. by constructor.
Qed.

End Fuel.

Lemma classify_start c r :
  c <> 110 -> c <> 102 -> c <> 116 ->
  classify (c :: r) =
    if (c =? 45) || is_digit c then TNumber
    else if c =? 91 then TArray
    else if c =? 123 then TObject
    else if c =? 34 then TString
    else TOther.
Proof.
  intros H1 H2 H3. unfold classify, starts_with.
  rewrite !bool_decide_false; [done| | |]; cbn; intros E; inversion E; lia.
Qed.

Lemma nodes_eq t : nodes t = S (fold_right (fun c acc => (nodes c + acc)%nat) O (child t)).
Proof. by destruct t. Qed.

Lemma nodes_pos t : (1 <= nodes t)%nat.
Proof. rewrite nodes_eq. lia. Qed.

Lemma total_length cs : (length cs <= total cs)%nat.
Proof.
  induction cs as [|c cs IH]; cbn [total fold_right length]; [lia|].
  pose proof (nodes_pos c). unfold total in IH. lia.
Qed.

Lemma total_elem cs c : c ∈ cs -> (nodes c <= total cs)%nat.
Proof.
  induction 1 as [c cs|c c' cs _ IH]; cbn [total fold_right]; [lia|].
  unfold total in IH. lia.
Qed.

Lemma more_length fmt es :
  (list_sum (map (@length Z) es) <= length (more fmt es))%nat.
Proof.
  induction es as [|e es IH]; [done|].
  cbn [map more]. unfold list_sum in *. cbn [fold_right]. rewrite !length_app. lia.
Qed.

Lemma join_array_length fmt es :
  (list_sum (map (@length Z) es) <= length (join_array fmt es))%nat.
Proof.
  destruct es as [|e es]; [done|]. rewrite join_array_more.
  pose proof (more_length fmt es). cbn [map]. unfold list_sum in *. cbn [fold_right].
  rewrite length_app. lia.
Qed.

Lemma join_object_length fmt depth (ms : list (list Z * list Z)) :
  (list_sum (map (fun m => length (snd m)) ms) <= length (join_object fmt depth ms))%nat.
Proof.
  induction ms as [|[nm e] ms IH]; [done|].
  cbn [map join_object snd]. unfold list_sum in *. cbn [fold_right].
  rewrite !length_app. lia.
Qed.

Lemma children_printed depth fmt (Q : sJSON -> Prop) cs :
  Forall round_trips cs -> Forall (fun c => shaped c /\ Q c) cs -> Forall literals cs ->
  exists es, Forall2 (printed depth fmt) cs es.
Proof.
  induction cs as [|c cs IH]; intros H1 H2 H3; [exists []; constructor|].
  inversion H1; inversion H2 as [|? ? [? ?]]; inversion H3; subst.
  destruct IH as [es Hes]; try done.
  destruct (H4 ltac:(done) ltac:(done) depth fmt) as [e He].
  exists (e :: es). by constructor.
Qed.

Lemma printed_total depth fmt cs es :
  Forall2 (printed depth fmt) cs es -> (total cs <= list_sum (map (@length Z) es))%nat.
Proof.
  induction 1 as [|c e cs es (_ & _ & H & _) _ IH]; [done|].
  cbn [total fold_right map]. unfold total, list_sum in *. cbn [fold_right]. lia.
Qed.

Lemma printed_collect depth fmt cs es :
  Forall2 (printed depth fmt) cs es ->
  collect (map (fun c => print_value c depth fmt) cs) = Ok es
  /\ collect_all (map (fun c => print_value c depth fmt) cs) = Ok es.
Proof.
  intros H.
  assert (Forall2 (fun c e => print_value c depth fmt = Ok e) cs es) as H'.
  { eapply Forall2_impl; [exact H|]. by intros c e [? _]. }
  split; [by apply collect_map|by apply collect_all_map].
Qed.

Lemma land_type ty : 0 <= ty <= 6 -> Z.land ty 255 = ty.
Proof.
  intros H.
  assert (ty = 0 \/ ty = 1 \/ ty = 2 \/ ty = 3 \/ ty = 4 \/ ty = 5 \/ ty = 6) as Hc by lia.
  destruct Hc as [->|[->|[->|[->|[->|[->| ->]]]]]]; reflexivity.
Qed.

Lemma literal_text_start L :
  wf_literal L ->
  exists c r, literal_text L = c :: r /\ ((c =? 45) || is_digit c) = true.
Proof.
  intros (Hint & Hshape & _). destruct L as [neg ip fr ex]. cbn [l_int] in *.
  unfold literal_text. cbn [l_neg l_int l_frac l_exp].
  destruct neg.
  - eexists _, _. split; reflexivity.
  - assert (exists d ds, ip = d :: ds /\ 48 <= d <= 57) as (d & ds & -> & Hd).
    { destruct Hshape as [->|(d & ds & -> & Hd)]; [by exists 48, []|].
      exists d, ds. split; [done|]. inversion Hint; subst. lia. }
    eexists _, _. split; [reflexivity|unfold is_digit; lia].
Qed.

Lemma print_array_eq t depth fmt :
  type t = sJSON_Array ->
  print_value t depth fmt =
    rbind (collect (map (fun c => print_value c (S depth) fmt) (child t)))
      (fun entries => Ok ([91] ++ join_array fmt entries ++ [93])).
Proof. intros H. rewrite print_value_eq, H. reflexivity. Qed.

Lemma print_object_eq t depth fmt :
  type t = sJSON_Object ->
  print_value t depth fmt =
    rbind (collect_all (map (fun c => print_value c (S depth) fmt) (child t)))
      (fun entries =>
         Ok ([123] ++ (if fmt then [10] else [])
             ++ join_object fmt (S depth)
                  (combine (map (fun c => print_string_ptr (nameString c)) (child t)) entries)
             ++ (if fmt then repeat 9 depth else []) ++ [125])).
Proof. intros H. rewrite print_value_eq, H. reflexivity. Qed.

Lemma like_leaf item t' t :
  base item -> type t' = type t ->
  valueString t' = valueString t ->
  nameString t' = nameString item -> nameHash t' = nameHash item ->
  (type t <> sJSON_Number -> valueInt t' = valueInt t /\ valueDouble t' = valueDouble t) ->
  child t' = [] -> child t = [] ->
  like item t' t.
Proof.
  intros _ H1 H2 H3 H4 H5 H6 H7. unfold like. rewrite H6, H7.
  repeat split; try done; try (by apply H5).
Qed.

Lemma combine_named (cs : list sJSON) (es : list (list Z)) :
  combine (map (fun c => print_string_ptr (nameString c)) cs) es = map named (combine cs es).
Proof.
  revert es. induction cs as [|c cs IH]; intros [|e es]; cbn [map combine]; try done.
  by rewrite IH.
Qed.

Lemma map_fst_combine (cs : list sJSON) (es : list (list Z)) :
  length cs = length es -> map fst (combine cs es) = cs.
Proof.
  revert es. induction cs as [|c cs IH]; intros [|e es] H; cbn [map combine fst]; try done.
  rewrite IH; [done|]. simpl in H. lia.
Qed.

Lemma printed_elem_pairs n depth fmt cs es :
  Forall2 (printed depth fmt) cs es ->
  (forall c, c ∈ cs -> (nodes c < n)%nat) ->
  Forall (fun c => shaped c /\ nameString c = None /\ nameHash c = 0) cs ->
  Forall2 (elem_pair n) cs es.
Proof.
  induction 1 as [|c e cs es (_ & Hvt & _ & Hre) _ IHes]; intros Hlt Hel; [constructor|].
  inversion Hel as [|? ? (_ & Hn1 & Hn2)]; subst.
  constructor.
  - split; [apply Hre, Hlt; left|]. done.
  - apply IHes; [|done]. intros c' Hc'. apply Hlt. by right.
Qed.

Lemma printed_member_pairs n depth fmt cs es :
  Forall2 (printed depth fmt) cs es ->
  (forall c, c ∈ cs -> (nodes c < n)%nat) ->
  Forall (fun c => shaped c /\
            exists k, nameString c = Some k /\ cstring k /\ nameHash c = murmurString k) cs ->
  Forall (member_pair n) (combine cs es).
Proof.
  induction 1 as [|c e cs es (_ & Hvt & _ & Hre) _ IHes]; intros Hlt Hmem; [constructor|].
  inversion Hmem as [|? ? (_ & Hnm)]; subst.
  cbn [combine]. constructor.
  - split; [apply Hre, Hlt; left|]. done.
  - apply IHes; [|done]. intros c' Hc'. apply Hlt. by right.
Qed.

Lemma round_trips_all t : round_trips t.
Proof.
  induction t as [t IH] using sJSON_induction.
  intros Hsh Hlit depth fmt.
  inversion Hsh as [t0 Hty Hvs Hvi Hvd Hch|t0 Hty Hvs Hvi Hvd Hch|t0 Hty Hvs Hch
                    |t0 s Hty Hvs Hs Hvi Hvd Hch|t0 Hty Hvs Hvi Hvd Hel
                    |t0 Hty Hvs Hvi Hvd Hmem]; subst t0.
  - (* null, false *)
    destruct Hty as [Hty|Hty].
    + exists (str "null"). split; [by rewrite print_value_eq, Hty|].
      split; [by eexists _, _|]. split; [rewrite nodes_eq, Hch; simpl; lia|].
      intros n Hn item rest ep Hb Hend. destruct n as [|n]; [lia|].
      exists (set_type sJSON_NULL item). split; [reflexivity|].
      pose proof Hb as (Hb1 & Hb2 & Hb3 & Hb4).
      apply like_leaf; cbn; try done; try congruence.
      intros _. split; congruence.
    + exists (str "false"). split; [by rewrite print_value_eq, Hty|].
      split; [by eexists _, _|]. split; [rewrite nodes_eq, Hch; simpl; lia|].
      intros n Hn item rest ep Hb Hend. destruct n as [|n]; [lia|].
      exists (set_type sJSON_False item). split; [reflexivity|].
      pose proof Hb as (Hb1 & Hb2 & Hb3 & Hb4).
      apply like_leaf; cbn; try done; try congruence.
      intros _. split; congruence.
  - (* true *)
    exists (str "true"). split; [by rewrite print_value_eq, Hty|].
    split; [by eexists _, _|]. split; [rewrite nodes_eq, Hch; simpl; lia|].
    intros n Hn item rest ep Hb Hend. destruct n as [|n]; [lia|].
    exists (set_valueInt 1 (set_type sJSON_True item)). split; [reflexivity|].
    pose proof Hb as (Hb1 & Hb2 & Hb3 & Hb4).
    apply like_leaf; cbn; try done; try congruence.
    intros _. split; congruence.
  - (* number *)
    inversion Hlit as [t0 Hnum _]; subst t0.
    destruct (Hnum Hty) as (L & HL & Hpr).
    destruct (literal_text_start L HL) as (c & r & Hcr & Hc).
    exists (literal_text L). split; [by rewrite print_value_eq, Hty|].
    split; [|split].
    { rewrite Hcr. exists c, r. split; [done|]. unfold value_start.
      unfold is_digit in *. lia. }
    { rewrite nodes_eq, Hch, Hcr. simpl. lia. }
    intros n Hn item rest ep Hb Hend. destruct n as [|n]; [lia|].
    rewrite parse_value_classify.
    assert (classify (literal_text L ++ rest) = TNumber) as ->.
    { rewrite Hcr. cbn [app]. rewrite classify_start by (unfold is_digit in Hc; lia).
      by rewrite Hc. }
    destruct (parse_number_text L item rest HL (value_end_number _ Hend))
      as (Hpn & _ & _).
    rewrite Hpn. eexists. split; [reflexivity|].
    pose proof Hb as (Hb1 & Hb2 & Hb3 & Hb4).
    apply like_leaf; cbn; try done; try congruence.
  - (* string *)
    exists (print_string_ptr (Some s)). split.
    { rewrite print_value_eq, Hty. unfold print_string. by rewrite Hvs. }
    split; [by eexists _, _|]. split; [rewrite nodes_eq, Hch; simpl; lia|].
    intros n Hn item rest ep Hb Hend. destruct n as [|n]; [lia|].
    rewrite parse_value_classify.
    assert (classify (print_string_ptr (Some s) ++ rest) = TString) as ->.
    { unfold print_string_ptr. cbn [app]. by rewrite classify_start. }
    rewrite parse_string_print by done. eexists. split; [reflexivity|].
    pose proof Hb as (Hb1 & Hb2 & Hb3 & Hb4).
    apply like_leaf; cbn; try done; try congruence.
    intros _. split; congruence.
  - (* array *)
    inversion Hlit as [t0 _ Hlc]; subst t0.
    destruct (children_printed (S depth) fmt _ (child t) IH Hel Hlc) as [es Hes].
    exists ([91] ++ join_array fmt es ++ [93]). split.
    { rewrite print_array_eq by done. by rewrite (proj1 (printed_collect _ _ _ _ Hes)). }
    split; [by eexists _, _|]. split.
    { rewrite nodes_eq. pose proof (printed_total _ _ _ _ Hes).
      pose proof (join_array_length fmt es). fold (total (child t)).
      rewrite !length_app. simpl. lia. }
    intros n Hn item rest ep Hb Hend. destruct n as [|n]; [lia|].
    rewrite parse_value_classify.
    assert (classify (([91] ++ join_array fmt es ++ [93]) ++ rest) = TArray) as ->.
    { cbn [app]. by rewrite classify_start. }
    rewrite nodes_eq in Hn. fold (total (child t)) in Hn.
    assert (Forall2 (elem_pair n) (child t) es) as Hpairs.
    { eapply printed_elem_pairs; [exact Hes| |exact Hel].
      intros c Hc. apply total_elem in Hc. lia. }
    pose proof Hb as (Hb1 & Hb2 & Hb3 & Hb4).
    destruct (parse_array_reparse n fmt (child t) es item rest ep n Hpairs) as (l & Hp & Hl);
      [pose proof (total_length (child t)); lia|done|].
    rewrite <- !app_assoc. rewrite Hp. eexists. split; [reflexivity|].
    unfold like. cbn. repeat split; try done; try congruence.
  - (* object *)
    inversion Hlit as [t0 _ Hlc]; subst t0.
    destruct (children_printed (S depth) fmt _ (child t) IH Hmem Hlc) as [es Hes].
    eexists. split.
    { rewrite print_object_eq by done. by rewrite (proj2 (printed_collect _ _ _ _ Hes)). }
    rewrite combine_named.
    split; [by eexists _, _|]. split.
    { rewrite nodes_eq. pose proof (printed_total _ _ _ _ Hes).
      pose proof (join_object_length fmt (S depth) (map named (combine (child t) es))).
      fold (total (child t)).
      assert (map (fun m : list Z * list Z => length (snd m)) (map named (combine (child t) es))
              = map (@length Z) es) as E.
      { clear -Hes. induction Hes; [done|]. cbn [combine map named snd]. by f_equal. }
      rewrite E in *.
      rewrite !length_app. simpl. lia. }
    intros n Hn item rest ep Hb Hend. destruct n as [|n]; [lia|].
    rewrite parse_value_classify.
    match goal with |- context [classify ?x] => assert (classify x = TObject) as -> end.
    { cbn [app]. by rewrite classify_start. }
    rewrite nodes_eq in Hn. fold (total (child t)) in Hn.
    assert (Forall (member_pair n) (combine (child t) es)) as Hpairs.
    { eapply printed_member_pairs; [exact Hes| |exact Hmem].
      intros c Hc. apply total_elem in Hc. lia. }
    pose proof Hb as (Hb1 & Hb2 & Hb3 & Hb4).
    assert (length (child t) = length es) as Hlen by (by eapply Forall2_length).
    destruct (parse_object_reparse n fmt depth (combine (child t) es) item rest ep n Hpairs)
      as (l & Hp & Hl).
    { rewrite length_combine. pose proof (total_length (child t)). lia. }
    { done. }
    rewrite map_fst_combine in Hl by done.
    cbn [app tl]. rewrite <- !app_assoc. cbn [app]. rewrite Hp.
    eexists. split; [reflexivity|].
    unfold like. cbn. repeat split; try done; try congruence.
Qed.

Lemma parse_array_type pv k item value ep t rest ep' :
  parse_array pv k item value ep = (Ok (t, rest), ep') -> type t = sJSON_Array.
Proof.
  unfold parse_array. destruct (negb (cur value =? 91)); [done|]. intros H.
  apply bind_ok in H as (v & ep1 & _ & H).
  destruct (cur v =? 93); [by inversion H|].
  apply bind_ok in H as (v1 & ep2 & _ & H).
  apply bind_ok in H as (r & ep3 & _ & H).
  apply bind_ok in H as (l & ep4 & _ & H).
  destruct (cur (snd l) =? 93); [by inversion H|done].
Qed.

Lemma parse_object_type pv k item value ep t rest ep' :
  parse_object pv k item value ep = (Ok (t, rest), ep') -> type t = sJSON_Object.
Proof.
  unfold parse_object. destruct (cur value =? 125); [intros H; by inversion H|]. intros H.
  apply bind_ok in H as (v & ep1 & _ & H).
  apply bind_ok in H as (r & ep3 & _ & H).
  apply bind_ok in H as (l & ep4 & _ & H).
  destruct (cur (snd l) =? 0); [by inversion H|].
  destruct (cur (snd l) =? 125); [by inversion H|done].
Qed.

(** the root [sJSONparse] returns *)
Lemma sJSONparse_sound D t ep :
  cstring D -> sJSONparse D = (Ok t, ep) ->
  shaped t /\ nameString t = None /\ nameHash t = 0
  /\ (type t = sJSON_Array \/ type t = sJSON_Object).
Proof.
  intros HD H. unfold sJSONparse in H.
  apply bind_ok in H as (value & ep1 & Hs & H). apply skipM_ok in Hs as [Hs ->].
  pose proof (skip_cstring _ _ Hs HD) as Hv.
  apply bind_ok in H as ([t0 r0] & ep2 & Hp & H). inversion H; subst. cbn [fst] in *.
  destruct ((cur value =? 123) || (cur value =? 91)) eqn:Ec.
  - apply bind_ok in Hp as (v & ep3 & Hs1 & Hp). apply skipM_ok in Hs1 as [Hs1 ->].
    pose proof (skip_cstring _ _ Hs1 Hv) as Hv1.
    destruct (parse_value_sound _ _ _ _ _ _ _ base_new Hv1 Hp)
      as (H1 & H2 & H3 & _).
    split; [done|]. split; [done|]. split; [done|].
    assert (v = value) as ->.
    { destruct value as [|c r]; [done|]. unfold cur in Ec. cbn [hd] in Ec.
      rewrite skip_token in Hs1 by lia. by inversion Hs1. }
    rewrite parse_value_classify in Hp.
    destruct value as [|c r]; [done|]. unfold cur in Ec. cbn [hd] in Ec.
    rewrite classify_start in Hp by lia.
    assert (((c =? 45) || is_digit c) = false) as E by (unfold is_digit; lia).
    rewrite E in Hp.
    destruct (c =? 91) eqn:E91; [left; by eapply parse_array_type|].
    assert ((c =? 123) = true) as E2 by lia. rewrite E2 in Hp. right.
    apply bind_ok in Hp as (v' & ep4 & _ & Hp). by eapply parse_object_type.
  - apply bind_ok in Hp as (v & ep3 & Hs1 & Hp). apply skipM_ok in Hs1 as [Hs1 ->].
    pose proof (skip_cstring _ _ Hs1 Hv) as Hv1.
    destruct (parse_object_sound _
                (parse_value_sound _) _ _ _ _ _ _ _
                base_new Hv1 Hp) as (H1 & H2 & H3 & _).
    split; [done|]. split; [done|]. split; [done|]. right. by eapply parse_object_type.
Qed.

Lemma reparse_root t fmt :
  shaped t -> literals t -> nameString t = None -> nameHash t = 0 ->
  type t = sJSON_Array \/ type t = sJSON_Object ->
  exists out t',
    print_value t 0 fmt = Ok out
    /\ sJSONparse out = (Ok t', None) /\ similar t' t.
Proof.
  intros Hsh Hlit Hn Hh Hty.
  destruct (round_trips_all t Hsh Hlit O fmt) as (out & Hpr & _ & Hlen & Hre).
  assert (exists c r, out = c :: r /\ (c = 91 \/ c = 123)) as (c & r & -> & Hc).
  { destruct Hty as [Hty|Hty].
    - rewrite print_array_eq in Hpr by done.
      destruct (collect _); try done. inversion Hpr. eexists _, _. split; [reflexivity|]. by left.
    - rewrite print_object_eq in Hpr by done.
      destruct (collect_all _); try done. inversion Hpr. eexists _, _. split; [reflexivity|]. by right. }
  destruct (Hre (S (length (c :: r))) ltac:(lia) sJSON_New_Item [] None base_new eq_refl)
    as (t' & Hp & Hl).
  rewrite app_nil_r in Hp.
  exists (c :: r), t'. split; [done|]. split; [|by apply like_similar_elem].
  unfold sJSONparse.
  erewrite bind_eq; [|apply skipM_eq, skip_token; lia].
  cbn [cur hd].
  assert (((c =? 123) || (c =? 91)) = true) as -> by lia.
  erewrite bind_eq.
  2:{ erewrite bind_eq; [|apply skipM_eq, skip_token; lia]. exact Hp. }
  reflexivity.
Qed.

(** C1, amended: if a text parses to a tree [t] and every number of [t] is
    rendered by [print_number], within its buffer, as a number literal (so
    none of them is an infinity or a NaN, and none has an integral value of
    more than 63 characters), then [sJSONprint] and [sJSONprintUnformatted]
    both render [t], and [sJSONparse] on either rendering returns, with the
    error pointer clear, a tree that equals [t] up to the values of its
    numbers. *)
Theorem parse_print_parse (D : cursor) (t : sJSON) (ep : option cursor) :
  cstring D -> sJSONparse D = (Ok t, ep) -> literals t ->
  exists out1 out2 t1 t2,
    sJSONprint t = Ok out1
    /\ sJSONprintUnformatted t = Ok out2
    /\ sJSONparse out1 = (Ok t1, None) /\ similar t1 t
    /\ sJSONparse out2 = (Ok t2, None) /\ similar t2 t.
Proof.
  intros HD Hp Hlit.
  destruct (sJSONparse_sound D t ep HD Hp) as (Hsh & Hn & Hh & Hty).
  destruct (reparse_root t true Hsh Hlit Hn Hh Hty) as (out1 & t1 & H1 & H2 & H3).
  destruct (reparse_root t false Hsh Hlit Hn Hh Hty) as (out2 & t2 & H4 & H5 & H6).
  by exists out1, out2, t1, t2.
Qed.

End Reparse.

(** * Closed instances *)

(** a list of digits, checked one by one *)
Ltac all_digits := unfold digits; repeat (apply Forall_cons; split; [lia|]); apply Forall_nil_2.

(** the bytes of a text, checked by computation *)
Lemma is_cstring_cstring (s : list Z) : is_cstring s = true -> cstring s.
Proof.
  intros H. apply Forall_forall. intros c Hc.
  unfold is_cstring in H. rewrite forallb_forall in H.
  apply list_elem_of_In in Hc. specialize (H c Hc). lia.
Qed.

(** C1 as it is stated does not hold: [1e999] parses, [pow] overflows and
    the number stored is an infinity, which the serializer renders as [inf];
    on the text [[inf]] the dispatcher fails and [parse_array] hands its
    null result to [skip]. *)
Lemma round_trip_fails : ~ round_trip_as_stated.
Proof.
  intros H.
  destruct (sJSONparse (libc := reference_libc) overflow_doc) as [r ep] eqn:Hp.
  destruct r as [t| | |]; try (vm_compute in Hp; discriminate Hp).
  destruct (H reference_libc overflow_doc t ep)
    as (out1 & out2 & t1 & t2 & _ & Hout & _ & _ & Hre & _).
  - apply is_cstring_cstring. reflexivity.
  - exact Hp.
  - vm_compute in Hp. injection Hp as <- <-.
    vm_compute in Hout. injection Hout as <-.
    vm_compute in Hre. discriminate Hre.
Qed.

(** C1, amended, on a document of the relaxed syntax: its tree is rendered
    in both layouts and both renderings parse back to a similar tree. *)
Lemma parse_print_parse_example :
  exists out1 out2 t1 t2,
    sJSONprint (libc := reference_libc) example_tree = Ok out1
    /\ sJSONprintUnformatted (libc := reference_libc) example_tree = Ok out2
    /\ sJSONparse (libc := reference_libc) out1 = (Ok t1, None) /\ similar t1 example_tree
    /\ sJSONparse (libc := reference_libc) out2 = (Ok t2, None) /\ similar t2 example_tree.
Proof.
  apply (parse_print_parse (libc := reference_libc) example_doc example_tree None).
  - apply is_cstring_cstring. vm_compute. reflexivity.
  - vm_compute. reflexivity.
  - apply literals_node; [intros Hty; vm_compute in Hty; discriminate Hty|].
    apply Forall_cons. split.
    + apply literals_node; [intros _|apply Forall_nil_2].
      exists (mk_literal false [49] (Some [53; 48; 48; 48; 48; 48]) None).
      split; [|vm_compute; reflexivity].
      split; [|split; [|split]]; simpl.
      * all_digits.
      * right. eexists _, _. split; [reflexivity|lia].
      * split; [discriminate|]. all_digits.
      * exact I.
    + apply Forall_cons. split; [|apply Forall_nil_2].
      apply literals_node; [intros Hty; vm_compute in Hty; discriminate Hty|].
      apply Forall_cons. split.
      * apply literals_node; [intros _|apply Forall_nil_2].
        exists (mk_literal false [50] None None).
        split; [|vm_compute; reflexivity].
        split; [|split; [|split]]; simpl.
        -- all_digits.
        -- right. eexists _, _. split; [reflexivity|lia].
        -- exact I.
        -- exact I.
      * apply Forall_cons. split; [|apply Forall_nil_2].
        apply literals_node; [intros Hty; vm_compute in Hty; discriminate Hty|].
        apply Forall_nil_2.
Defined.

(** C6 as it is stated does not hold: the literal [2147483648] is accepted
    and the double stored is 2147483648, whose truncation is not an [int];
    the integer stored is what the conversion gives out of range, here
    -2147483648. *)
Lemma parse_number_truncation_fails : ~ parse_number_as_stated.
Proof.
  intros H.
  destruct (H reference_libc int_overflow_literal sJSON_New_Item [])
    as (item' & Hp & _ & Ht).
  - split; [|split; [|split]]; simpl.
    + all_digits.
    + right. eexists _, _. split; [reflexivity|lia].
    + exact I.
    + exact I.
  - reflexivity.
  - vm_compute in Hp. injection Hp as <-.
    vm_compute in Ht. discriminate Ht.
Qed.

(** C6 on the literal [-12.5e3], followed by a comma: the value stored is
    -1 * 125 * 10^(-1 + 3). *)
Lemma parse_number_literal_example :
  parse_number (libc := reference_libc) sJSON_New_Item (str "-12.5e3,")
  = Ok (set_type sJSON_Number
          (set_valueInt (-12500) (set_valueDouble (-12500)%float sJSON_New_Item)), [44])
  /\ literal_value (libc := reference_libc) example_literal = (-12500)%float.
Proof.
  assert (Hwf : wf_literal example_literal).
  { split; [|split; [|split]]; simpl.
    - all_digits.
    - right. eexists _, _. split; [reflexivity|lia].
    - split; [discriminate|]. all_digits.
    - split; [by left|]. split; [by left|]. split; [discriminate|].
      split; [all_digits|]. vm_compute. discriminate. }
  assert (Hend : number_end [44] = true) by reflexivity.
  pose proof (parse_number_literal (libc := reference_libc)
                example_literal sJSON_New_Item [44] Hwf Hend) as H.
  cbv zeta in H. destruct H as (Hp & Hd & _).
  split; [exact Hp|exact Hd].
Defined.

(** C7 on the text of a line feed escape and the escape of U+00E9, up to
    the closing quote. *)
Lemma decode_escapes_example :
  decode [92; 110; 92; 117; 48; 48; 101; 57; 34] None = Ok ([10; 195; 169], [34]).
Proof.
  destruct decode_escapes as (Hs & Hu & _).
  rewrite (Hs 110 10 _ None eq_refl).
  destruct (Hu 48 48 101 57 0 0 14 9 [34] None eq_refl eq_refl eq_refl eq_refl) as (uc' & ->).
  reflexivity.
Defined.

(** C8 on a string with a control character, a double quote, a backslash,
    a line feed, a letter and DEL. *)
Lemma string_escape_roundtrip_example :
  parse_string sJSON_New_Item (print_string_ptr (Some [1; 34; 92; 10; 97; 127])) None
  = (Ok (set_type sJSON_String
           (set_valueString (Some [1; 34; 92; 10; 97; 127]) sJSON_New_Item), []), None).
Proof.
  apply (string_escape_roundtrip [1; 34; 92; 10; 97; 127] sJSON_New_Item None).
  repeat (apply Forall_cons; split; [lia|]). apply Forall_nil_2.
Defined.

(** * The chains of siblings *)

Module ChainFacts.
Import Chain.

#[local] Arguments steps : simpl never.

Lemma dll_lookup h l : forall p q,
  dll h p q l ->
  p = head l /\
  forall (i : nat) x, l !! i = Some x ->
    exists n, h !! x = Some n /\ next n = l !! S i /\
              prev n = match i with O => q | S j => l !! j end.
Proof.
  induction l as [|y l IH]; intros p q H; simpl in H.
  - split; [done|]. intros i x Hi. by rewrite lookup_nil in Hi.
  - destruct H as (-> & n & Hn & Hq & Hd).
    destruct (IH _ _ Hd) as [Hhd Hall].
    split; [done|].
    intros [|i] x Hi; simpl in Hi.
    + inversion Hi; subst x. exists n. split; [done|]. split; [|done].
      rewrite Hhd. by destruct l.
    + destruct (Hall i x Hi) as (m & Hm & Hnx & Hpv).
      exists m. split; [done|]. split; [done|].
      destruct i; simpl; [done|]. done.
Qed.

Lemma lookup_dll h l : forall p q,
  p = head l ->
  (forall (i : nat) x, l !! i = Some x ->
    exists n, h !! x = Some n /\ next n = l !! S i /\
              prev n = match i with O => q | S j => l !! j end) ->
  dll h p q l.
Proof.
  induction l as [|y l IH]; intros p q Hp Hall; simpl.
  - done.
  - split; [done|].
    destruct (Hall O y eq_refl) as (n & Hn & Hnx & Hpv).
    exists n. split; [done|]. split; [done|].
    apply IH.
    + rewrite Hnx. by destruct l.
    + intros i x Hi. destruct (Hall (S i) x Hi) as (m & Hm & Hmx & Hmp).
      exists m. split; [done|]. split; [done|].
      destruct i; simpl in *; [|done]. done.
Qed.

Lemma chain_length (h : store) (l : list loc) :
  NoDup l -> (forall x, x ∈ l -> is_Some (h !! x)) -> (length l <= size h)%nat.
Proof.
  intros Hnd Hin.
  rewrite <- size_dom.
  unfold size, set_size. simpl.
  apply submseteq_length, NoDup_submseteq; [done|].
  intros x Hx. apply elem_of_elements, elem_of_dom. by apply Hin.
Qed.

Section Linked.
Context (h : store) (l : list loc) (q : ptr).
Hypothesis Hl : forall (i : nat) x, l !! i = Some x ->
    exists n, h !! x = Some n /\ next n = l !! S i /\
              prev n = match i with O => q | S j => l !! j end.

Lemma walk_lookup k : forall i : nat, walk k h (l !! i) = Ok (l !! (i + k)%nat).
Proof.
  induction k as [|k IH]; intros i; simpl.
  - rewrite Nat.add_0_r. by destruct (l !! i).
  - destruct (l !! i) as [x|] eqn:Hi.
    + destruct (Hl i x Hi) as (n & Hn & Hnx & _).
      simpl. rewrite Hn. simpl. rewrite Hnx, IH. f_equal. f_equal. lia.
    + symmetry. f_equal. apply lookup_ge_None. apply lookup_ge_None in Hi. lia.
Qed.

Lemma count_lookup k : forall (i : nat) acc,
  (length l <= i + k)%nat -> (i <= length l)%nat ->
  count k h (l !! i) acc = Ok (acc + Z.of_nat (length l - i)).
Proof.
  induction k as [|k IH]; intros i acc Hk Hi.
  - assert (l !! i = None) as -> by (apply lookup_ge_None; lia).
    simpl. f_equal. lia.
  - destruct (l !! i) as [x|] eqn:Hx.
    + destruct (Hl i x Hx) as (n & Hn & Hnx & _).
      apply lookup_lt_Some in Hx.
      simpl. rewrite Hn. simpl. rewrite Hnx, IH by lia. f_equal. lia.
    + apply lookup_ge_None in Hx. simpl. f_equal. lia.
Qed.

Lemma find_hit k hash : forall (d i : nat) acc x,
  (d <= k)%nat ->
  l !! (i + d)%nat = Some x -> hash_at h x = Some hash ->
  (forall j y, (i <= j < i + d)%nat -> l !! j = Some y -> hash_at h y <> Some hash) ->
  find k h (l !! i) hash acc = Ok (Some x, acc + Z.of_nat d).
Proof.
  induction k as [|k IH]; intros d i acc x Hd Hx Hh Hno.
  - assert (d = O) as -> by lia. rewrite Nat.add_0_r in Hx. rewrite Hx.
    simpl. unfold hash_at in Hh. destruct (h !! x) as [n|]; [|done].
    simpl in *. inversion Hh as [Hh']. rewrite Z.eqb_refl. simpl. f_equal. f_equal. lia.
  - destruct d as [|d].
    + rewrite Nat.add_0_r in Hx. rewrite Hx.
      simpl. unfold hash_at in Hh. destruct (h !! x) as [n|]; [|done].
      simpl in *. inversion Hh as [Hh']. rewrite Z.eqb_refl. simpl. f_equal. f_equal. lia.
    + assert (is_Some (l !! i)) as [y Hy].
      { apply lookup_lt_is_Some. apply lookup_lt_Some in Hx. lia. }
      rewrite Hy. destruct (Hl i y Hy) as (n & Hn & Hnx & _).
      simpl. rewrite Hn. simpl.
      assert ((nameHash n =? hash) = false) as ->.
      { apply Z.eqb_neq. intros E. apply (Hno i y); [lia|done|].
        unfold hash_at. rewrite Hn. simpl. by f_equal. }
      simpl. rewrite Hnx. rewrite (IH d (S i) (acc + 1) x); try done; try lia.
      * f_equal. f_equal. lia.
      * rewrite <- Hx. f_equal. lia.
      * intros j z Hj. apply Hno. lia.
Qed.

Lemma find_miss k hash : forall (i : nat) acc,
  (length l <= i + k)%nat ->
  (forall j y, (i <= j)%nat -> l !! j = Some y -> hash_at h y <> Some hash) ->
  exists r, find k h (l !! i) hash acc = Ok (None, r).
Proof.
  induction k as [|k IH]; intros i acc Hk Hno.
  - assert (l !! i = None) as -> by (apply lookup_ge_None; lia).
    simpl. eauto.
  - destruct (l !! i) as [y|] eqn:Hy; [|simpl; eauto].
    destruct (Hl i y Hy) as (n & Hn & Hnx & _).
    simpl. rewrite Hn. simpl.
    assert ((nameHash n =? hash) = false) as ->.
    { apply Z.eqb_neq. intros E. apply (Hno i y); [lia|done|].
      unfold hash_at. rewrite Hn. simpl. by f_equal. }
    simpl. rewrite Hnx. apply IH; [lia|]. intros j z Hj. apply Hno. lia.
Qed.

Lemma last_lookup k : forall (i : nat),
  (length l <= S (i + k))%nat -> (i < length l)%nat ->
  last_node k h (l !! i) = Ok (l !! (length l - 1)%nat).
Proof.
  induction k as [|k IH]; intros i Hk Hi.
  - assert (i = (length l - 1)%nat) as -> by lia.
    assert (is_Some (l !! (length l - 1)%nat)) as [x Hx] by (apply lookup_lt_is_Some; lia).
    rewrite Hx.
    destruct (Hl _ x Hx) as (n & Hn & Hnx & _).
    simpl. rewrite Hn. simpl. rewrite Hnx.
    assert (l !! S (length l - 1) = None) as -> by (apply lookup_ge_None; lia).
    simpl. done.
  - assert (is_Some (l !! i)) as [x Hx] by (by apply lookup_lt_is_Some).
    rewrite Hx. destruct (Hl _ x Hx) as (n & Hn & Hnx & _).
    simpl. rewrite Hn. simpl. rewrite Hnx.
    destruct (l !! S i) as [y|] eqn:Hy.
    + rewrite <- Hy. apply IH; [lia|]. by apply lookup_lt_Some in Hy.
    + apply lookup_ge_None in Hy. assert (i = (length l - 1)%nat) as Ei by lia.
      rewrite <- Ei. by rewrite Hx.
Qed.

End Linked.

Lemma lookup_upd (h : store) p f x :
  upd h p f !! x = (if decide (p = Some x) then f else id) <$> h !! x.
Proof.
  unfold upd. destruct p as [y|].
  - destruct (h !! y) as [n|] eqn:Hy.
    + destruct (decide (y = x)) as [->|Hne].
      * rewrite lookup_insert_eq, Hy. by rewrite decide_True.
      * rewrite lookup_insert_ne by done. rewrite decide_False by congruence.
        by destruct (h !! x).
    + case_decide as E; [|by destruct (h !! x)].
      inversion E; subst. by rewrite Hy.
  - rewrite decide_False by done. by destruct (h !! x).
Qed.

Lemma update_upd (h : store) x n f :
  h !! x = Some n -> update h (Some x) f = Ok (upd h (Some x) f).
Proof. intros H. unfold update, upd. by rewrite H. Qed.

Lemma update_opt_upd (h : store) (p : ptr) f :
  (forall x, p = Some x -> is_Some (h !! x)) ->
  match p with Some _ => update h p f | None => Ok h end = Ok (upd h p f).
Proof.
  intros H. destruct p as [x|]; [|done].
  destruct (H x eq_refl) as [n Hn]. by apply update_upd with n.
Qed.

Lemma dom_upd (h : store) p f : dom (upd h p f) = dom h.
Proof.
  apply set_eq. intros x. rewrite !elem_of_dom, lookup_upd.
  destruct (h !! x); simpl; split; intros [? ?]; eauto; done.
Qed.

Theorem detach_index (h : store) (a : loc) (l : list loc) (i : nat) (c : loc) :
  is_chain h a l -> l !! i = Some c ->
  exists h',
    sJSONdetachItemFromArray h (Some a) (Z.of_nat i) = Ok (Some c, h')
    /\ is_chain h' a (delete i l)
    /\ (exists n, h !! c = Some n /\ h' !! c = Some (set_prev None (set_next None n)))
    /\ (forall x, x ∉ a :: l -> h' !! x = h !! x)
    /\ (forall x, hash_at h' x = hash_at h x)
    /\ dom h' = dom h.
Proof.
  intros [(A & HA & Hd) [Hnd Ha]] Hc.
  destruct (dll_lookup _ _ _ _ Hd) as [Hhd Hall].
  destruct (Hall i c Hc) as (nc & Hnc & Hnx & Hpv).
  assert (Hin : forall j x, l !! j = Some x -> x <> a).
  { intros j x Hj ->. apply Ha. by eapply list_elem_of_lookup_2. }
  assert (Hpval : forall x, prev nc = Some x -> is_Some (h !! x) /\ x <> c /\ x <> a
                             /\ exists j, i = S j /\ l !! j = Some x).
  { intros x Hx. rewrite Hpv in Hx. destruct i as [|j]; [done|].
    destruct (Hall j x Hx) as (n & Hn & _). split; [eauto|].
    split; [|split; [by eapply Hin|eauto]].
    intros ->. pose proof (NoDup_lookup _ _ _ _ Hnd Hx Hc). lia. }
  assert (Hnval : forall x, next nc = Some x -> is_Some (h !! x) /\ x <> c /\ x <> a
                             /\ l !! S i = Some x).
  { intros x Hx. rewrite Hnx in Hx.
    destruct (Hall (S i) x Hx) as (n & Hn & _). split; [eauto|].
    split; [|split; [by eapply Hin|done]].
    intros ->. pose proof (NoDup_lookup _ _ _ _ Hnd Hx Hc). lia. }
  set (h1 := upd h (prev nc) (set_next (next nc))).
  set (h2 := upd h1 (next nc) (set_prev (prev nc))).
  set (h3 := if bool_decide (Some c = child A)
             then upd h2 (Some a) (set_child (next nc)) else h2).
  set (h4 := upd h3 (Some c) (fun n => set_prev None (set_next None n))).
  assert (H1c : h1 !! c = Some nc).
  { unfold h1. rewrite lookup_upd, Hnc. case_decide as E; [|done].
    destruct (Hpval c E) as (_ & ? & _). done. }
  assert (H2c : h2 !! c = Some nc).
  { unfold h2. rewrite lookup_upd, H1c. case_decide as E; [|done].
    destruct (Hnval c E) as (_ & ? & _). done. }
  assert (H2a : h2 !! a = Some A).
  { unfold h2, h1. rewrite !lookup_upd, HA.
    repeat case_decide; try done.
    - destruct (Hnval a) as (_ & _ & ? & _); done.
    - destruct (Hnval a) as (_ & _ & ? & _); done.
    - destruct (Hpval a) as (_ & _ & ? & _); done. }
  assert (H3c : h3 !! c = Some nc).
  { unfold h3. case_bool_decide; [|done].
    rewrite lookup_upd, H2c. rewrite decide_False; [done|].
    intros E. inversion E; subst. apply (Hin i c); done. }
  exists h4. split; [|split; [|split; [|split; [|split]]]].
  - unfold sJSONdetachItemFromArray. simpl. rewrite HA. simpl.
    rewrite Nat2Z.id, Hhd, head_lookup.
    rewrite (walk_lookup h l None Hall i O). simpl. rewrite Hc. simpl.
    rewrite Hnc. simpl.
    rewrite (update_opt_upd h (prev nc)) by (intros x Hx; by destruct (Hpval x Hx)).
    simpl. fold h1. rewrite H1c. simpl.
    rewrite (update_opt_upd h1 (next nc)).
    2:{ intros x Hx. destruct (Hnval x Hx) as ([n Hn] & _ & _ & _).
        unfold h1. rewrite lookup_upd, Hn. simpl. eauto. }
    simpl. fold h2. rewrite H2a. simpl. rewrite H2c. simpl.
    assert (c <> a) as Hca by (by apply (Hin i c)).
    unfold h4, h3, upd. repeat case_bool_decide; try done; simpl.
    + rewrite H2a. rewrite lookup_insert_ne by done. rewrite H2c. done.
    + rewrite H2c. done.
  - (* the chain after the call *)
    assert (Hx4 : forall j x, l !! j = Some x -> j <> i ->
              exists n, h !! x = Some n /\
                h4 !! x = Some ((if decide (next nc = Some x) then set_prev (prev nc) else id)
                               ((if decide (prev nc = Some x) then set_next (next nc) else id) n))).
    { intros j x Hj Hji. destruct (Hall j x Hj) as (n & Hn & _). exists n. split; [done|].
      assert (x <> c) by (intros ->; pose proof (NoDup_lookup _ _ _ _ Hnd Hj Hc); lia).
      assert (x <> a) by (by eapply Hin).
      unfold h4. rewrite lookup_upd, decide_False by congruence.
      assert (h3 !! x = h2 !! x) as ->.
      { unfold h3. case_bool_decide; [|done].
        rewrite lookup_upd, decide_False by congruence. by destruct (h2 !! x). }
      unfold h2, h1. rewrite !lookup_upd, Hn. simpl. by destruct (_ !! _). }
    split; [|split].
    + exists (if bool_decide (Some c = child A) then set_child (next nc) A else A).
      split.
      { unfold h4. rewrite lookup_upd, decide_False by (intros E; inversion E; subst; by eapply Hin).
        unfold h3. case_bool_decide.
        - rewrite lookup_upd, H2a. by rewrite decide_True.
        - rewrite H2a. done. }
      apply lookup_dll.
      { rewrite head_lookup. case_bool_decide as E.
        - simpl. rewrite Hhd, head_lookup in E.
          assert (i = O) as -> by (symmetry in E; eapply NoDup_lookup; eauto).
          rewrite Hnx. by rewrite list_lookup_delete_ge by lia.
        - rewrite Hhd, head_lookup in *.
          destruct i as [|i]; [by rewrite Hc in E|].
          by rewrite list_lookup_delete_lt by lia. }
      intros j x Hj.
      destruct (decide (j < i)%nat) as [Hlt|Hge].
      * rewrite list_lookup_delete_lt in Hj by done.
        destruct (Hx4 j x Hj) as (n & Hn & Hn4); [lia|].
        destruct (Hall j x Hj) as (n0 & Hn0 & Hnx0 & Hpv0).
        assert (n0 = n) as -> by congruence.
        eexists. split; [exact Hn4|].
        assert (next nc <> Some x) as Hnn.
        { rewrite Hnx. intros E. pose proof (NoDup_lookup _ _ _ _ Hnd Hj E). lia. }
        destruct (decide (next nc = Some x)) as [|_]; [done|].
        simpl. split.
        -- case_decide as E.
           ++ destruct (Hpval x E) as (_ & _ & _ & k & -> & Hk).
              pose proof (NoDup_lookup _ _ _ _ Hnd Hj Hk). subst k.
              simpl. rewrite Hnx. by rewrite list_lookup_delete_ge by lia.
           ++ simpl. rewrite Hnx0.
              assert (S j <> i).
              { intros <-. apply E. rewrite Hpv. done. }
              by rewrite list_lookup_delete_lt by lia.
        -- assert (prev ((if decide (prev nc = Some x) then set_next (next nc) else id) n)
                   = prev n) as -> by (by case_decide).
           rewrite Hpv0. destruct j as [|j]; [done|].
           by rewrite list_lookup_delete_lt by lia.
      * rewrite list_lookup_delete_ge in Hj by lia.
        destruct (Hx4 (S j) x Hj) as (n & Hn & Hn4); [lia|].
        destruct (Hall (S j) x Hj) as (n0 & Hn0 & Hnx0 & Hpv0).
        assert (n0 = n) as -> by congruence.
        eexists. split; [exact Hn4|].
        assert (prev nc <> Some x) as Hnp.
        { intros E. destruct (Hpval x E) as (_ & _ & _ & k & -> & Hk).
          pose proof (NoDup_lookup _ _ _ _ Hnd Hj Hk). lia. }
        destruct (decide (prev nc = Some x)) as [|_]; [done|]. simpl. split.
        -- assert (next ((if decide (next nc = Some x) then set_prev (prev nc) else id) n)
                   = next n) as -> by (by case_decide).
           rewrite Hnx0. by rewrite list_lookup_delete_ge by lia.
        -- case_decide as E.
           ++ simpl. rewrite Hnx in E. pose proof (NoDup_lookup _ _ _ _ Hnd Hj E).
              assert (j = i) as -> by lia. rewrite Hpv.
              destruct i as [|i]; [done|]. by rewrite list_lookup_delete_lt by lia.
           ++ simpl. rewrite Hpv0.
              assert (j <> i) by (intros ->; apply E; by rewrite Hnx).
              destruct j as [|j]; [lia|]. by rewrite list_lookup_delete_ge by lia.
    + apply (sublist_NoDup _ l); first [exact Hnd | apply sublist_delete].
    + intros Hin'. apply Ha. by eapply list_elem_of_delete_inv.
  - exists nc. split; [done|]. unfold h4. rewrite lookup_upd, H3c.
    by rewrite decide_True.
  - intros x Hx. unfold h4, h3. rewrite lookup_upd.
    assert (x <> c) by (intros ->; apply Hx; right; by eapply list_elem_of_lookup_2).
    assert (x <> a) by (intros ->; apply Hx; left).
    rewrite decide_False by congruence.
    assert (h2 !! x = h !! x) as E2.
    { unfold h2, h1. rewrite !lookup_upd.
      repeat case_decide.
      - destruct (Hnval x) as (_ & _ & _ & Hq); [done|]. exfalso. apply Hx. right.
        by eapply list_elem_of_lookup_2.
      - destruct (Hnval x) as (_ & _ & _ & Hq); [done|]. exfalso. apply Hx. right.
        by eapply list_elem_of_lookup_2.
      - destruct (Hpval x) as (_ & _ & _ & j & _ & Hq); [done|]. exfalso. apply Hx. right.
        by eapply list_elem_of_lookup_2.
      - by destruct (h !! x). }
    case_bool_decide.
    + rewrite lookup_upd, decide_False by congruence. rewrite E2. by destruct (h !! x).
    + rewrite E2. by destruct (h !! x).
  - intros x. unfold hash_at, h4, h3. rewrite lookup_upd.
    assert (forall (hh : store) p f, (forall n, nameHash (f n) = nameHash n) ->
              nameHash <$> upd hh p f !! x = nameHash <$> hh !! x) as Hup.
    { intros hh p f Hf. rewrite lookup_upd. destruct (hh !! x) as [n|]; [|done].
      simpl. case_decide; [|done]. by rewrite Hf. }
    assert (nameHash <$> h2 !! x = nameHash <$> h !! x) as E2.
    { unfold h2, h1. rewrite !Hup; done. }
    case_bool_decide.
    + rewrite <- E2, <- (Hup h2 (Some a) (set_child (next nc))) by done.
      destruct (upd h2 (Some a) _ !! x) as [n|]; [|done]. simpl. by case_decide.
    + rewrite <- E2. destruct (h2 !! x) as [n|]; [|done]. simpl. by case_decide.
  - unfold h4, h3. rewrite dom_upd. case_bool_decide; rewrite ?dom_upd; unfold h2, h1;
      by rewrite !dom_upd.
Qed.

Lemma chain_allocated (h : store) a l x : is_chain h a l -> x ∈ l -> is_Some (h !! x).
Proof.
  intros [(A & HA & Hd) _] Hx.
  destruct (dll_lookup _ _ _ _ Hd) as [_ Hall].
  apply list_elem_of_lookup in Hx as [i Hi].
  destruct (Hall i x Hi) as (n & Hn & _). eauto.
Qed.

Lemma chain_steps (h : store) a l : is_chain h a l -> (length l <= size h)%nat.
Proof.
  intros Hc. apply chain_length; [apply Hc|]. intros x. by apply chain_allocated with a.
Qed.

Lemma array_size_chain (h : store) a l :
  is_chain h a l -> sJSONgetArraySize h (Some a) = Ok (Z.of_nat (length l)).
Proof.
  intros Hc. pose proof (chain_steps _ _ _ Hc) as Hs.
  destruct Hc as [(A & HA & Hd) _].
  destruct (dll_lookup _ _ _ _ Hd) as [Hhd Hall].
  unfold sJSONgetArraySize, deref. rewrite HA. cbn [rbind].
  rewrite Hhd, head_lookup.
  rewrite (count_lookup h l None Hall) by (unfold steps; lia).
  f_equal. lia.
Qed.

Lemma array_item_chain (h : store) a l item :
  is_chain h a l -> sJSONgetArrayItem h (Some a) item = Ok (l !! Z.to_nat item).
Proof.
  intros [(A & HA & Hd) _].
  destruct (dll_lookup _ _ _ _ Hd) as [Hhd Hall].
  unfold sJSONgetArrayItem. simpl. rewrite HA. simpl.
  rewrite Hhd, head_lookup. by rewrite (walk_lookup h l None Hall).
Qed.

(** C10: on an array whose children are the chain [l], [sJSONgetArrayItem]
    with an index [item <= 0] returns the first child, which is null exactly
    when the array is empty, and with an index at or beyond the number of
    children it returns null. *)
Theorem getArrayItem_clamps (h : store) (a : loc) (l : list loc) (item : Z) :
  is_chain h a l ->
  (item <= 0 -> sJSONgetArrayItem h (Some a) item = Ok (head l))
  /\ (Z.of_nat (length l) <= item -> sJSONgetArrayItem h (Some a) item = Ok None)
  /\ (head l = None <-> l = []).
Proof.
  intros Hc. rewrite (array_item_chain _ _ _ _ Hc). split; [|split].
  - intros Hi. replace (Z.to_nat item) with O by lia. by rewrite head_lookup.
  - intros Hi. f_equal. apply lookup_ge_None. lia.
  - by destruct l.
Qed.


Section AddGet.
Context `{libc : Externals}.

Lemma add_chain (h : store) (o : loc) (l : list loc) (k : list Z) (v : loc) :
  is_chain h o l -> detached h v -> v ∉ l -> v <> o ->
  exists h',
    sJSONaddItemToObject h (Some o) k (Some v) = Ok h'
    /\ is_chain h' o (l ++ [v])
    /\ hash_at h' v = Some (murmurString k)
    /\ (forall x, x <> v -> hash_at h' x = hash_at h x).
Proof.
  intros Hc (nv & Hv & Hvn & Hvp) Hvl Hvo.
  pose proof (chain_steps _ _ _ Hc) as Hs.
  destruct Hc as [(A & HA & Hd) [Hnd Ho]].
  destruct (dll_lookup _ _ _ _ Hd) as [Hhd Hall].
  set (nv' := set_name (Some k) (murmurString k) nv).
  set (h0 := <[v := nv']> h).
  assert (Hall0 : forall (i : nat) x, l !! i = Some x ->
    exists n, h0 !! x = Some n /\ next n = l !! S i /\
              prev n = match i with O => None | S j => l !! j end).
  { intros i x Hi. destruct (Hall i x Hi) as (n & Hn & ?). exists n. split; [|done].
    unfold h0. rewrite lookup_insert_ne; [done|].
    intros ->. apply Hvl. by eapply list_elem_of_lookup_2. }
  unfold sJSONaddItemToObject. simpl. rewrite Hv. simpl. fold nv'. fold h0.
  unfold sJSONaddItemToArray, deref.
  assert (h0 !! o = Some A) as H0o by (unfold h0; by rewrite lookup_insert_ne).
  rewrite H0o. cbn [rbind].
  destruct (decide (l = [])) as [->|Hne].
  - (* the first child *)
    simpl in Hhd. rewrite Hhd. simpl. rewrite H0o.
    eexists. split; [done|]. split; [|split].
    + split; [|split].
      * eexists. split; [by rewrite lookup_insert_eq|]. simpl.
        split; [done|]. exists nv'. split.
        { rewrite lookup_insert_ne by done. unfold h0. by rewrite lookup_insert_eq. }
        split; [done|]. done.
      * apply NoDup_singleton.
      * intros Hin. apply list_elem_of_singleton in Hin. by subst.
    + unfold hash_at. rewrite lookup_insert_ne by done. unfold h0.
      by rewrite lookup_insert_eq.
    + intros x Hx. unfold hash_at.
      destruct (decide (x = o)) as [->|Hxo].
      * rewrite lookup_insert_eq, HA. done.
      * rewrite lookup_insert_ne by done. unfold h0. by rewrite lookup_insert_ne.
  - assert (Hlen : (0 < length l)%nat) by (destruct l; [done|simpl; lia]).
    assert (is_Some (l !! (length l - 1)%nat)) as [y Hy]
      by (apply lookup_lt_is_Some; lia).
    destruct (Hall0 _ _ Hy) as (ny & Hny & Hnyx & Hnyp).
    assert (Hhd' : child A = l !! O) by (by rewrite Hhd, head_lookup).
    rewrite Hhd'.
    destruct (l !! O) as [z|] eqn:Ez.
    2:{ apply lookup_ge_None in Ez. lia. }
    rewrite <- Ez.
    rewrite (last_lookup h0 l None Hall0).
    2:{ unfold steps, h0. rewrite map_size_insert_Some by eauto. lia. }
    2:{ lia. }
    rewrite Hy. simpl. unfold suffix_object. simpl. rewrite Hny. simpl.
    assert (y <> v) as Hyv.
    { intros ->. apply Hvl. by eapply list_elem_of_lookup_2. }
    assert (y <> o) as Hyo.
    { intros ->. apply Ho. by eapply list_elem_of_lookup_2. }
    rewrite lookup_insert_ne by done. unfold h0 at 1. rewrite lookup_insert_eq. simpl.
    eexists. split; [done|]. split; [|split].
    + split; [|split].
      * exists A. split.
        { rewrite !lookup_insert_ne by done. done. }
        apply lookup_dll.
        { rewrite Hhd. rewrite !head_lookup. rewrite lookup_app_l; [done|]. lia. }
        intros i x Hi.
        destruct (decide (i < length l - 1)%nat) as [Hlt|Hge].
        -- rewrite lookup_app_l in Hi by lia.
           destruct (Hall0 i x Hi) as (n & Hn & Hnx & Hnp).
           assert (x <> y).
           { intros ->. pose proof (NoDup_lookup _ _ _ _ Hnd Hi Hy). lia. }
           assert (x <> v).
           { intros ->. apply Hvl. by eapply list_elem_of_lookup_2. }
           exists n. split; [by rewrite !lookup_insert_ne by done|].
           split.
           ++ rewrite Hnx. rewrite lookup_app_l; [done|]. lia.
           ++ rewrite Hnp. destruct i as [|i]; [done|].
              rewrite lookup_app_l; [done|]. lia.
        -- destruct (decide (i = length l - 1)%nat) as [->|Hne'].
           ++ rewrite lookup_app_l in Hi by lia. rewrite Hy in Hi. inversion Hi; subst x.
              eexists. split.
              { rewrite lookup_insert_ne by done. by rewrite lookup_insert_eq. }
              simpl. split.
              ** rewrite lookup_app_r by lia.
                 by replace (S (length l - 1) - length l)%nat with O by lia.
              ** rewrite Hnyp. destruct (length l - 1)%nat as [|j] eqn:Ej; [done|].
                 rewrite lookup_app_l; [done|]. lia.
           ++ assert (i = length l) as ->.
              { apply lookup_lt_Some in Hi. rewrite length_app in Hi. simpl in Hi. lia. }
              rewrite lookup_app_r in Hi by lia.
              replace (length l - length l)%nat with O in Hi by lia.
              inversion Hi; subst x.
              eexists. split; [by rewrite lookup_insert_eq|].
              simpl. split.
              ** rewrite Hvn. symmetry. apply lookup_ge_None.
                 rewrite length_app. simpl. lia.
              ** destruct (length l) as [|j] eqn:Ej; [lia|].
                 rewrite lookup_app_l by lia. rewrite <- Hy. f_equal. lia.
      * apply NoDup_app. split; [done|]. split; [|apply NoDup_singleton].
        intros x Hx Hx'. apply list_elem_of_singleton in Hx'. by subst.
      * intros Hin. apply elem_of_app in Hin as [Hin|Hin]; [done|].
        apply list_elem_of_singleton in Hin. by subst.
    + unfold hash_at. by rewrite lookup_insert_eq.
    + intros x Hx. unfold hash_at. rewrite lookup_insert_ne by done.
      destruct (decide (x = y)) as [->|Hxy].
      * rewrite lookup_insert_eq. destruct (Hall _ _ Hy) as (n & Hn & _).
        rewrite Hn. unfold h0 in Hny. rewrite lookup_insert_ne in Hny by done.
        by assert (n = ny) as -> by congruence.
      * rewrite lookup_insert_ne by done. unfold h0. by rewrite lookup_insert_ne.
Qed.

Lemma find_chain_hit (h : store) o l hash (d : nat) x :
  is_chain h o l -> l !! d = Some x -> hash_at h x = Some hash ->
  (forall j y, (j < d)%nat -> l !! j = Some y -> hash_at h y <> Some hash) ->
  exists A, h !! o = Some A /\
    find (steps h) h (child A) hash 0 = Ok (Some x, Z.of_nat d).
Proof.
  intros Hc Hd Hh Hno. pose proof (chain_steps _ _ _ Hc) as Hs.
  destruct Hc as [(A & HA & Hdl) _].
  destruct (dll_lookup _ _ _ _ Hdl) as [Hhd Hall].
  exists A. split; [done|]. rewrite Hhd, head_lookup.
  rewrite (find_hit h l None Hall (steps h) hash d O 0 x); try done.
  - apply lookup_lt_Some in Hd. unfold steps. lia.
  - intros j y Hj. apply Hno. lia.
Qed.

Lemma get_object_hit (h : store) o l hash (d : nat) x :
  is_chain h o l -> l !! d = Some x -> hash_at h x = Some hash ->
  (forall j y, (j < d)%nat -> l !! j = Some y -> hash_at h y <> Some hash) ->
  sJSONgetObjectItem h (Some o) hash = Ok (Some x).
Proof.
  intros Hc Hd Hh Hno.
  destruct (find_chain_hit _ _ _ _ _ _ Hc Hd Hh Hno) as (A & HA & Hf).
  unfold sJSONgetObjectItem, deref. rewrite HA. cbn [rbind]. by rewrite Hf.
Qed.

Lemma get_object_miss (h : store) o l hash :
  is_chain h o l -> (forall y, y ∈ l -> hash_at h y <> Some hash) ->
  sJSONgetObjectItem h (Some o) hash = Ok None.
Proof.
  intros Hc Hno. pose proof (chain_steps _ _ _ Hc) as Hs.
  destruct Hc as [(A & HA & Hdl) _].
  destruct (dll_lookup _ _ _ _ Hdl) as [Hhd Hall].
  unfold sJSONgetObjectItem, deref. rewrite HA. cbn [rbind].
  rewrite Hhd, head_lookup.
  destruct (find_miss h l None Hall (steps h) hash O 0) as [r Hr].
  - unfold steps. lia.
  - intros j y _ Hj. apply Hno. by eapply list_elem_of_lookup_2.
  - by rewrite Hr.
Qed.

(** C2, amended: on an object [o] none of whose members carries the hash of
    the key [k], after [sJSONaddItemToObject(o, k, v)] with a node [v] that is
    in no chain, [sJSONgetObjectItem(o, hash(k))] returns [v];
    [sJSONdetachItemFromObject(o, k)] then returns [v], and after it the same
    lookup returns null. *)
Theorem add_get_detach (h : store) (o : loc) (l : list loc) (k : list Z) (v : loc) :
  is_chain h o l -> detached h v -> v ∉ l -> v <> o ->
  (forall x, x ∈ l -> hash_at h x <> Some (murmurString k)) ->
  exists h1 h2,
    sJSONaddItemToObject h (Some o) k (Some v) = Ok h1
    /\ sJSONgetObjectItem h1 (Some o) (murmurString k) = Ok (Some v)
    /\ sJSONdetachItemFromObject h1 (Some o) k = Ok (Some v, h2)
    /\ sJSONgetObjectItem h2 (Some o) (murmurString k) = Ok None.
Proof.
  intros Hc Hv Hvl Hvo Hfresh.
  destruct (add_chain h o l k v Hc Hv Hvl Hvo) as (h1 & Hadd & Hc1 & Hhv & Hho).
  assert (Hlv : (l ++ [v]) !! length l = Some v) by (by rewrite list_lookup_middle).
  assert (Hno : forall j y, (j < length l)%nat -> (l ++ [v]) !! j = Some y ->
                       hash_at h1 y <> Some (murmurString k)).
  { intros j y Hj Hy. rewrite lookup_app_l in Hy by done.
    assert (y ∈ l) as Hyl by (by eapply list_elem_of_lookup_2).
    rewrite Hho; [by apply Hfresh|]. intros ->. done. }
  destruct (detach_index h1 o (l ++ [v]) (length l) v Hc1 Hlv)
    as (h2 & Hdet & Hc2 & _ & _ & Hh2 & _).
  exists h1, h2. split; [done|]. split; [|split].
  - by apply (get_object_hit h1 o (l ++ [v]) _ (length l) v).
  - destruct (find_chain_hit _ _ _ _ _ _ Hc1 Hlv Hhv Hno) as (A & HA & Hf).
    unfold sJSONdetachItemFromObject, deref. rewrite HA. cbn [rbind].
    rewrite Hf. cbn [fst snd]. exact Hdet.
  - apply (get_object_miss h2 o l).
    + assert (delete (length l) (l ++ [v]) = l) as E; [|by rewrite E in Hc2].
      rewrite delete_take_drop. rewrite take_app_length.
      rewrite drop_ge; [by rewrite app_nil_r|]. rewrite length_app. simpl. lia.
    + intros y Hy. rewrite Hh2. rewrite Hho; [by apply Hfresh|]. intros ->. done.
Qed.

End AddGet.

(** C2 as it is stated does not hold: on an object that has a member with
    the key [k] already, the node added under [k] goes to the end of the
    chain and the lookup returns the older member. *)
Lemma add_then_get_fails : ~ add_then_get_as_stated.
Proof.
  intros H.
  destruct (H reference_libc (dup_store (ref_hash (str "k"))) 1%positive
              [2%positive] (str "k") 3%positive)
    as (h1 & h2 & r & Hadd & Hget & _).
  - split; [|split].
    + eexists. split; [reflexivity|]. simpl. split; [reflexivity|].
      eexists. split; [reflexivity|]. split; reflexivity.
    + apply NoDup_singleton.
    + intros Hin. apply list_elem_of_singleton in Hin. done.
  - eexists. split; [reflexivity|]. split; reflexivity.
  - intros Hin. apply list_elem_of_singleton in Hin. done.
  - done.
  - vm_compute in Hadd. inversion Hadd; subst h1.
    vm_compute in Hget. discriminate.
Qed.

(** ** Closed instances *)

(** the array [10, 20, 30] is well formed *)
Lemma three_chain : is_chain three_store 1%positive [2%positive; 3%positive; 4%positive].
Proof.
  split; [|split].
  - eexists. split; [reflexivity|]. simpl.
    split; [reflexivity|]. eexists. split; [reflexivity|]. split; [reflexivity|]. simpl.
    split; [reflexivity|]. eexists. split; [reflexivity|]. split; [reflexivity|]. simpl.
    split; [reflexivity|]. eexists. split; [reflexivity|]. split; reflexivity.
  - apply (bool_decide_unpack _). vm_compute. exact I.
  - apply (bool_decide_unpack _). vm_compute. exact I.
Defined.

(** C10 on the array [10, 20, 30]: index -5 gives the first element, index
    3 gives null. *)
Lemma getArrayItem_clamps_example :
  sJSONgetArrayItem three_store (Some 1%positive) (-5) = Ok (Some 2%positive)
  /\ sJSONgetArrayItem three_store (Some 1%positive) 3 = Ok None.
Proof.
  split.
  - apply (getArrayItem_clamps three_store 1%positive _ (-5) three_chain). lia.
  - apply (getArrayItem_clamps three_store 1%positive _ 3 three_chain). simpl. lia.
Defined.


(** C2, amended, on an empty object: the member added under the key [k] is
    found, detached, and then no longer found. *)
Lemma add_get_detach_example :
  exists h1 h2,
    sJSONaddItemToObject (libc := reference_libc) empty_object_store
      (Some 1%positive) (str "k") (Some 3%positive) = Ok h1
    /\ sJSONgetObjectItem h1 (Some 1%positive) (ref_hash (str "k")) = Ok (Some 3%positive)
    /\ sJSONdetachItemFromObject (libc := reference_libc) h1 (Some 1%positive) (str "k")
       = Ok (Some 3%positive, h2)
    /\ sJSONgetObjectItem h2 (Some 1%positive) (ref_hash (str "k")) = Ok None.
Proof.
  apply (add_get_detach (libc := reference_libc) empty_object_store 1%positive [] (str "k")
           3%positive).
  - split; [|split].
    + eexists. split; [reflexivity|]. reflexivity.
    + apply NoDup_nil_2.
    + apply not_elem_of_nil.
  - eexists. split; [reflexivity|]. split; reflexivity.
  - apply not_elem_of_nil.
  - discriminate.
  - intros x Hx. by apply elem_of_nil in Hx.
Defined.

End ChainFacts.

(** * More of the text functions *)

(** ** More about [skip] *)

Lemma skip_ws_stops p : nz (cur (skip_ws p)) && (cur (skip_ws p) <=? 32) = false.
Proof.
  induction p as [|c r IH]; [reflexivity|].
  cbn [skip_ws]. destruct (nz c && (c <=? 32)) eqn:E; [exact IH|exact E].
Qed.

Lemma skip_ws_fixed p : nz (cur p) && (cur p <=? 32) = false -> skip_ws p = p.
Proof. destruct p as [|c r]; [done|]. cbn [skip_ws cur hd]. by intros ->. Qed.

Lemma skip_line_slash r : skip_line (47 :: r) = skip_line r.
Proof. reflexivity. Qed.

(** more steps than the text has bytes change nothing *)
Lemma skip_loop_fuel n : forall m p,
  (length p < n)%nat -> (length p < m)%nat -> skip_loop n p = skip_loop m p.
Proof.
  induction n as [|n IH]; intros m p Hn Hm; [lia|].
  destruct m as [|m]; [lia|].
  cbn [skip_loop].
  pose proof (suffix_length_le _ _ (skip_ws_suffix p)) as Hwl.
  destruct (skip_ws p) as [|c r] eqn:Ew; [done|].
  cbn [cur hd tl] in *. cbn [length] in Hwl.
  destruct (nz c && (c =? 47)) eqn:Ec; [|done].
  assert (c = 47) as -> by (apply andb_true_iff in Ec as [_ Ec]; lia).
  destruct (nz (cur r) && (cur r =? 47)).
  - rewrite skip_line_slash.
    pose proof (suffix_length_le _ _ (skip_line_suffix r)).
    apply IH; lia.
  - destruct (nz (cur r) && (cur r =? 42)); [|done].
    destruct (skip_block_cases (47 :: r)) as [E|(q & E & _ & Hq)]; rewrite E; [done|].
    cbn [rbind]. cbn [length] in Hq. apply IH; lia.
Qed.

Lemma skip_loop_stops n : forall p q, skip_loop n p = Ok q -> skippable q = false.
Proof.
  induction n as [|n IH]; intros p q H; [done|].
  cbn [skip_loop] in H.
  pose proof (skip_ws_stops p) as Hws.
  destruct (skip_ws p) as [|c r] eqn:Ew.
  { inversion H. reflexivity. }
  cbn [cur hd tl] in *.
  destruct (nz c && (c =? 47)) eqn:Ec.
  - destruct (nz (cur r) && (cur r =? 47)) eqn:E1; [by eapply IH|].
    destruct (nz (cur r) && (cur r =? 42)) eqn:E2.
    + destruct (skip_block (c :: r)) as [b| | |]; try done. by eapply IH.
    + inversion H; subst q. unfold skippable. cbn [cur hd tl].
      rewrite Hws, Ec, E1, E2. reflexivity.
  - inversion H; subst q. unfold skippable. cbn [cur hd tl].
    rewrite Hws, Ec. reflexivity.
Qed.

Lemma skip_fixed q : skippable q = false -> skip (Some q) = Ok q.
Proof.
  unfold skippable. intros H. apply orb_false_iff in H as [H1 H2].
  unfold skip. cbn [skip_loop]. rewrite (skip_ws_fixed q H1).
  destruct (nz (cur q) && (cur q =? 47)); [|done].
  cbn [andb] in H2. apply orb_false_iff in H2 as [-> ->]. done.
Qed.

(** X1: [skip] ends, for every text: either it reads past the terminator, or
    it returns a position of the text at which there is neither white space
    nor the opening of a comment, and from which a second call does not
    move. *)
Theorem skip_stops (p : cursor) :
  skip (Some p) = Fault OutOfBounds
  \/ exists q, skip (Some p) = Ok q /\ q `suffix_of` p /\ skippable q = false
               /\ skip (Some q) = Ok q.
Proof.
  destruct (skip_cases p) as [E|(q & E & Hq)]; [by left|right].
  exists q. split; [done|]. split; [done|].
  assert (skippable q = false) as Hs by (by eapply skip_loop_stops).
  split; [done|by apply skip_fixed].
Qed.

Lemma skip_ws_app ws p : blank ws -> skip_ws (ws ++ p) = skip_ws p.
Proof.
  induction 1 as [|w ws Hw _ IH]; [done|].
  cbn [app skip_ws]. unfold nz.
  assert ((w =? 0) = false) as -> by lia.
  assert ((w <=? 32) = true) as -> by lia. exact IH.
Qed.

(** leading white space does not matter *)
Lemma skip_blank_app ws p : blank ws -> skip (Some (ws ++ p)) = skip (Some p).
Proof.
  intros Hws. unfold skip.
  rewrite (skip_loop_fuel _ (S (length (ws ++ p))) p) by (rewrite ?length_app; lia).
  cbn [skip_loop]. by rewrite skip_ws_app.
Qed.

Lemma skip_line_app line rest :
  Forall (fun c => c <> 0 /\ c <> 10 /\ c <> 13) line ->
  skip_line (line ++ rest) = skip_line rest.
Proof.
  induction 1 as [|c line (H0 & H1 & H2) _ IH]; [done|].
  cbn [app skip_line]. unfold nz.
  assert ((c =? 0) = false) as -> by lia.
  assert ((c =? 10) = false) as -> by lia.
  assert ((c =? 13) = false) as -> by lia. exact IH.
Qed.

Lemma skip_loop_line n r : skip_loop (S n) (47 :: 47 :: r) = skip_loop n (skip_line r).
Proof. reflexivity. Qed.

Lemma skip_loop_block n r :
  skip_loop (S n) (47 :: 42 :: r) = rbind (skip_block (47 :: 42 :: r)) (skip_loop n).
Proof. reflexivity. Qed.

Lemma skip_loop_newline n nl rest :
  nl = 10 \/ nl = 13 -> skip_loop (S n) (nl :: rest) = skip_loop (S n) rest.
Proof. intros [-> | ->]; reflexivity. Qed.

(** X2: a line comment is skipped with the end of line that closes it: the
    text behind [//], up to and with the first line feed or carriage return,
    does not change what [skip] returns; a line comment that the text ends
    in is skipped up to the terminator. *)
Theorem skip_line_comment (ws line : list Z) (nl : Z) (rest : cursor) :
  blank ws -> Forall (fun c => c <> 0 /\ c <> 10 /\ c <> 13) line ->
  nl = 10 \/ nl = 13 ->
  skip (Some (ws ++ [47; 47] ++ line ++ nl :: rest)) = skip (Some rest)
  /\ skip (Some (ws ++ [47; 47] ++ line)) = Ok [].
Proof.
  intros Hws Hline Hnl. split.
  - rewrite skip_blank_app by done.
    unfold skip. cbn [app]. rewrite skip_loop_line, skip_line_app by done.
    assert (skip_line (nl :: rest) = nl :: rest) as ->.
    { destruct Hnl as [-> | ->]; reflexivity. }
    rewrite (skip_loop_fuel _ (S (S (length rest))) (nl :: rest))
      by (cbn [length]; rewrite ?length_app; cbn [length]; lia).
    rewrite (skip_loop_fuel (S (length rest)) (S (S (length rest))) rest) by lia.
    by apply skip_loop_newline.
  - rewrite skip_blank_app by done. unfold skip. cbn [app]. rewrite skip_loop_line.
    rewrite <- (app_nil_r line) at 2. rewrite skip_line_app by done.
    cbn [skip_line length]. reflexivity.
Qed.

Lemma skip_block_closes l : forall rest,
  Forall (fun c => c <> 0) l -> closes (l ++ [42]) = false ->
  skip_block (l ++ 42 :: 47 :: rest) = Ok rest.
Proof.
  induction l as [|c l IH]; intros rest Hl Hc; [reflexivity|].
  inversion Hl as [|? ? Hc0 Hl']; subst.
  cbn [app closes] in Hc. apply orb_false_iff in Hc as [Hc1 Hc2].
  cbn [app skip_block]. unfold nz at 1.
  assert ((c =? 0) = false) as -> by lia. cbn [negb andb].
  destruct (c =? 42) eqn:E; cbn [negb]; [|by apply IH].
  cbn [andb] in Hc1.
  destruct l as [|c1 l]; cbn [app] in *; cbn [cur hd] in Hc1.
  - cbn [nz Z.eqb negb andb]. by apply (IH rest).
  - inversion Hl' as [|? ? Hc10 _]; subst. unfold nz.
    assert ((c1 =? 0) = false) as -> by lia. rewrite Hc1. cbn [negb andb].
    by apply (IH rest).
Qed.

(** X3: a block comment is skipped up to the first star that a slash follows,
    the star of the opening counted: when the text behind the opening does
    not start with a slash and holds no star with a slash behind it before
    the closing, what [skip] returns is what it returns for the text behind
    the closing. *)
Theorem skip_block_comment (ws body : list Z) (rest : cursor) :
  blank ws -> Forall (fun c => c <> 0) body -> closes (42 :: body ++ [42]) = false ->
  skip (Some (ws ++ [47; 42] ++ body ++ [42; 47] ++ rest)) = skip (Some rest).
Proof.
  intros Hws Hbody Hc. rewrite skip_blank_app by done.
  unfold skip. cbn [app]. rewrite skip_loop_block.
  change (47 :: 42 :: body ++ 42 :: 47 :: rest)
    with ((47 :: 42 :: body) ++ 42 :: 47 :: rest).
  rewrite skip_block_closes.
  - cbn [rbind]. apply skip_loop_fuel; cbn [length]; rewrite ?length_app; cbn [length]; lia.
  - constructor; [done|]. constructor; [done|exact Hbody].
  - exact Hc.
Qed.

(** ** More about keys and strings *)

Lemma ident_app id : forall rest,
  Forall (fun c => ident_char c = true) id -> ident_char (cur rest) = false ->
  ident (id ++ rest) = (id, rest).
Proof.
  induction id as [|c id IH]; intros rest Hid Hrest.
  - destruct rest as [|c r]; [done|]. cbn [app ident]. cbn [cur hd] in Hrest.
    by rewrite Hrest.
  - inversion Hid as [|? ? Hc Hid']; subst. cbn [app ident]. rewrite Hc.
    by rewrite IH.
Qed.

Lemma ident_char_plain c : ident_char c = true -> 31 < c <= 255 /\ c <> 34 /\ c <> 92.
Proof. unfold ident_char, nz. lia. Qed.

Lemma escape_plain s : Forall (fun c => 31 < c /\ c <> 34 /\ c <> 92) s -> escape s = s.
Proof.
  induction 1 as [|c s (H1 & H2 & H3) _ IH]; [done|].
  cbn [escape].
  assert (((31 <? c) && negb (c =? 34) && negb (c =? 92)) = true) as -> by lia.
  by rewrite IH.
Qed.

(** X4: a key may be written bare: a letter or an underscore, followed by
    letters, digits and underscores, is read up to the first other byte and
    gives the same node, at the same position, as the same text between
    double quotes; a key that starts with a digit is refused, and the error
    pointer is set to it. *)
Theorem bare_key_parses (item : sJSON) (c : Z) (cs : list Z) (rest : cursor)
    (ep : option cursor) :
  c = 95 \/ 97 <= c <= 122 \/ 65 <= c <= 90 ->
  Forall (fun x => ident_char x = true) cs -> ident_char (cur rest) = false ->
  parse_string_or_identifier item (c :: cs ++ rest) ep
  = (Ok (set_type sJSON_String (set_valueString (Some (c :: cs)) item), rest), ep)
  /\ parse_string_or_identifier item (34 :: c :: cs ++ 34 :: rest) ep
     = parse_string_or_identifier item (c :: cs ++ rest) ep
  /\ (forall d r, 48 <= d <= 57 ->
        parse_string_or_identifier item (d :: r) ep = (Null, Some (d :: r))).
Proof.
  intros Hc Hcs Hrest.
  assert (Hid : Forall (fun x => ident_char x = true) (c :: cs)).
  { constructor; [|done]. unfold ident_char, nz. lia. }
  assert (Hfirst : parse_string_or_identifier item (c :: cs ++ rest) ep
    = (Ok (set_type sJSON_String (set_valueString (Some (c :: cs)) item), rest), ep)).
  { unfold parse_string_or_identifier. cbn [cur hd].
    assert ((c =? 34) = false) as -> by lia.
    assert (((c =? 95) || (97 <=? c) && (c <=? 122) || (65 <=? c) && (c <=? 90)) = true)
      as -> by lia.
    change (c :: cs ++ rest) with ((c :: cs) ++ rest).
    by rewrite ident_app. }
  split; [exact Hfirst|]. split.
  - rewrite Hfirst. unfold parse_string_or_identifier. cbn [cur hd Z.eqb Pos.eqb].
    assert (Hplain : Forall (fun x => 31 < x /\ x <> 34 /\ x <> 92) (c :: cs)).
    { eapply Forall_impl; [exact Hid|]. intros x Hx. apply ident_char_plain in Hx. lia. }
    assert (Hcstr : cstring (c :: cs)).
    { eapply Forall_impl; [exact Hid|]. intros x Hx. apply ident_char_plain in Hx.
      simpl. lia. }
    pose proof (parse_string_print (c :: cs) item rest ep Hcstr) as H.
    unfold print_string_ptr in H. rewrite escape_plain in H by done.
    cbn [app] in H. rewrite <- app_assoc in H. exact H.
  - intros d r Hd. unfold parse_string_or_identifier. cbn [cur hd].
    assert ((d =? 34) = false) as -> by lia.
    assert (((d =? 95) || (97 <=? d) && (d <=? 122) || (65 <=? d) && (d <=? 90)) = false)
      as -> by lia.
    reflexivity.
Qed.

Lemma decode_escape_tail s : cstring s -> forall tail uc,
  (forall u u', decode tail u = decode tail u') ->
  decode (escape s ++ tail) uc = rbind (decode tail uc) (fun r => Ok (s ++ fst r, snd r)).
Proof.
  induction 1 as [|c r Hc _ IH]; intros tail uc Ht.
  - cbn [escape app]. by destruct (decode tail uc) as [[? ?]| | |].
  - assert (Hfin : forall u,
      rbind (decode (escape r ++ tail) u) (fun r0 => Ok (c :: fst r0, snd r0))
      = rbind (decode tail uc) (fun r0 => Ok ((c :: r) ++ fst r0, snd r0))).
    { intros u. rewrite (IH tail u Ht), (Ht u uc).
      by destruct (decode tail uc) as [[? ?]| | |]. }
    destruct (escape_cons c r Hc) as [(? & ? & ? & ->)|[(e & He & ->)|[? ->]]].
    + cbn [app]. rewrite decode_plain by lia. apply Hfin.
    + cbn [app]. rewrite (decode_simple e c) by done. apply Hfin.
    + cbn [app]. rewrite <- app_assoc. cbn [decode]. cbn [Z.eqb negb nz andb Pos.eqb].
      rewrite sscanf_fmt_04x by lia.
      unfold fmt_04x at 1. cbn [app].
      rewrite utf8_utf8_encode by lia. unfold utf8_encode.
      assert ((c <? 128) = true) as -> by lia. cbn [app]. apply Hfin.
Qed.

Lemma measure_escape_tail s : cstring s -> forall tail len,
  exists k, Z.of_nat (length s) <= k
            /\ measure (escape s ++ tail) len = measure tail (len + k).
Proof.
  induction 1 as [|c r Hc _ IH]; intros tail len.
  - exists 0. split; [simpl; lia|]. cbn [escape app]. f_equal. lia.
  - destruct (escape_cons c r Hc) as [(? & ? & ? & ->)|[(e & He & ->)|[? ->]]].
    + cbn [app]. rewrite measure_plain by lia.
      destruct (IH tail (len + 1)) as (k & Hk & ->). exists (1 + k).
      split; [cbn [length]; lia|f_equal; lia].
    + cbn [app]. rewrite measure_escaped.
      destruct (IH tail (len + 1)) as (k & Hk & ->). exists (1 + k).
      split; [cbn [length]; lia|f_equal; lia].
    + cbn [app]. rewrite <- app_assoc. rewrite measure_escaped, measure_fmt_04x.
      destruct (IH tail (len + 1 + 4)) as (k & Hk & ->). exists (5 + k).
      split; [cbn [length]; lia|f_equal; lia].
Qed.

(** X5: a string literal that the text ends in, with no closing quote, is
    accepted: the text [print_string_ptr] writes for [s], cut off before its
    closing quote, is read as [s], up to the terminator. *)
Theorem parse_string_unterminated (s : list Z) (item : sJSON) (ep : option cursor) :
  cstring s ->
  parse_string item (34 :: escape s) ep
  = (Ok (set_type sJSON_String (set_valueString (Some s) item), []), ep).
Proof.
  intros Hs. unfold parse_string. cbn [cur hd tl Z.eqb Pos.eqb negb].
  destruct (measure_escape_tail s Hs [] 0) as (k & Hk & Hm).
  rewrite app_nil_r in Hm.
  pose proof (decode_escape_tail s Hs [] None (fun _ _ => eq_refl)) as Hd.
  rewrite app_nil_r in Hd. cbn [decode rbind fst snd] in Hd. rewrite app_nil_r in Hd.
  unfold bind, lift. rewrite Hm, Hd. cbn [measure fst snd cur hd].
  assert ((Z.of_nat (length s) <=? 0 + k) = true) as -> by lia.
  cbn [Z.eqb]. by rewrite cstr_cstring.
Qed.

(** X6: a string literal cut off by the end of the text right after a
    backslash makes the first loop of [parse_string] step over the
    terminator. *)
Theorem parse_string_trailing_backslash (s : list Z) (item : sJSON) (ep : option cursor) :
  cstring s ->
  parse_string item (34 :: escape s ++ [92]) ep = (Fault OutOfBounds, ep).
Proof.
  intros Hs. unfold parse_string. cbn [cur hd tl Z.eqb Pos.eqb negb].
  destruct (measure_escape_tail s Hs [92] 0) as (k & Hk & Hm).
  unfold bind, lift. rewrite Hm. reflexivity.
Qed.

Lemma sscanf_4x_two h1 h2 d1 d2 rest :
  hex_val h1 = Some d1 -> hex_val h2 = Some d2 ->
  sscanf_4x (h1 :: h2 :: 34 :: rest) = Some (16 * d1 + d2).
Proof.
  intros H1 H2.
  pose proof (hex_val_range _ _ H1) as [_ R1].
  pose proof (hex_val_range _ _ H2) as [_ R2].
  unfold sscanf_4x. cbn [drop_space].
  assert (isspace h1 = false) as -> by (unfold isspace; lia).
  unfold cur. cbn [hd tl].
  assert ((h1 =? 45) = false) as -> by lia.
  assert ((h1 =? 43) = false) as -> by lia.
  cbv beta iota zeta. cbn [hd tl].
  assert (((h2 =? 120) || (h2 =? 88)) = false) as -> by lia.
  rewrite andb_false_r. cbn [andb scan_hex].
  rewrite H1, H2. cbn [default hex_val Z.leb Z.compare Pos.compare Pos.compare_cont andb].
  unfold id. f_equal; lia.
Qed.

Lemma decode_plain_app t : forall rest uc,
  Forall (fun c => c <> 0 /\ c <> 34 /\ c <> 92) t ->
  decode (t ++ 34 :: rest) uc = Ok (t, 34 :: rest).
Proof.
  induction t as [|c t IH]; intros rest uc Ht; [reflexivity|].
  inversion Ht as [|? ? (H0 & H1 & H2) Ht']; subst.
  cbn [app]. rewrite decode_plain by done. by rewrite IH.
Qed.

Lemma utf8_length u : (1 <= length (fst (utf8 u)))%nat.
Proof.
  unfold utf8. destruct (u <? 128); [simpl; lia|]. destruct (u <? 2048); simpl; lia.
Qed.

Lemma utf8_length_byte u :
  0 <= u < 256 -> length (fst (utf8 u)) = if u <? 128 then 1%nat else 2%nat.
Proof.
  intros Hu. unfold utf8. destruct (u <? 128); [reflexivity|].
  assert ((u <? 2048) = true) as -> by lia. reflexivity.
Qed.

(** X7: a [\u] escape with only two hexadecimal digits before the closing
    quote makes the second loop of [parse_string] step over that quote,
    which ended the first loop, and over the byte behind it, and copy the
    text up to the next quote.  The code unit is written in one byte when it
    is below 128 and in two otherwise.  The buffer was measured for three
    bytes and the terminator: with three bytes or fewer written, the code
    unit and the bytes copied, the call returns them as the string, and the
    position behind the second quote; with four or more it writes behind the
    buffer, at the latest when it stores the terminator. *)
Theorem short_unicode_escape_skips_quote (item : sJSON) (h1 h2 d1 d2 a : Z) (t : list Z)
    (rest : cursor) (ep : option cursor) :
  hex_val h1 = Some d1 -> hex_val h2 = Some d2 -> a <> 0 ->
  Forall (fun c => c <> 0 /\ c <> 34 /\ c <> 92) t ->
  let written := fst (utf8 (16 * d1 + d2)) ++ t in
  length (fst (utf8 (16 * d1 + d2))) = (if 16 * d1 + d2 <? 128 then 1%nat else 2%nat)
  /\ ((length written <= 3)%nat ->
      parse_string item (34 :: 92 :: 117 :: h1 :: h2 :: 34 :: a :: t ++ 34 :: rest) ep
      = (Ok (set_type sJSON_String (set_valueString (Some (cstr written)) item), rest), ep))
  /\ ((4 <= length written)%nat ->
      parse_string item (34 :: 92 :: 117 :: h1 :: h2 :: 34 :: a :: t ++ 34 :: rest) ep
      = (Fault BufferOverflow, ep)).
Proof.
  intros H1 H2 Ha Ht written.
  pose proof (hex_val_range _ _ H1) as [D1 R1].
  pose proof (hex_val_range _ _ H2) as [D2 R2].
  split; [apply utf8_length_byte; lia|].
  assert (forall b : bool,
            (Z.of_nat (length written) <=? 3) = b ->
            parse_string item (34 :: 92 :: 117 :: h1 :: h2 :: 34 :: a :: t ++ 34 :: rest) ep
            = if b
              then (Ok (set_type sJSON_String (set_valueString (Some (cstr written)) item),
                        rest), ep)
              else (Fault BufferOverflow, ep)) as Hrun.
  { intros b Hb. unfold parse_string. cbn [cur hd tl Z.eqb Pos.eqb negb].
    unfold bind, lift.
    assert (measure (92 :: 117 :: h1 :: h2 :: 34 :: a :: t ++ 34 :: rest) 0 = Ok 3) as ->.
    { rewrite measure_escaped. rewrite !measure_plain by lia. reflexivity. }
    assert (decode (92 :: 117 :: h1 :: h2 :: 34 :: a :: t ++ 34 :: rest) None
            = Ok (written, 34 :: rest)) as ->.
    { cbn [decode]. cbn [Z.eqb negb nz andb Pos.eqb].
      rewrite (sscanf_4x_two _ _ _ _ _ H1 H2).
      by rewrite decode_plain_app. }
    cbn [fst snd]. rewrite Hb. destruct b; reflexivity. }
  split; intros Hlen.
  - apply (Hrun true). lia.
  - apply (Hrun false). lia.
Qed.

Lemma measure_decode n : forall p len uc,
  (length p <= n)%nat -> u_escapes p = false ->
  (measure p len = Fault OutOfBounds /\ decode p uc = Fault OutOfBounds)
  \/ exists out rest, decode p uc = Ok (out, rest)
                      /\ measure p len = Ok (len + Z.of_nat (length out)).
Proof.
  induction n as [|n IH]; intros p len uc Hn Hu.
  { destruct p; [|simpl in Hn; lia]. right. exists [], []. split; [done|].
    simpl. f_equal. lia. }
  destruct p as [|c p1].
  { right. exists [], []. split; [done|]. simpl. f_equal. lia. }
  cbn [length] in Hn.
  assert (Hemit : forall b r, (length r <= n)%nat -> u_escapes r = false ->
    (measure r (len + 1) = Fault OutOfBounds
     /\ rbind (decode r uc) (fun r0 => Ok (b :: fst r0, snd r0)) = Fault OutOfBounds)
    \/ exists out rest,
         rbind (decode r uc) (fun r0 => Ok (b :: fst r0, snd r0)) = Ok (out, rest)
         /\ measure r (len + 1) = Ok (len + Z.of_nat (length out))).
  { intros b r Hr Hur. destruct (IH r (len + 1) uc Hr Hur) as [[-> ->]|(o & q & -> & ->)].
    - by left.
    - right. eexists _, _. split; [reflexivity|]. cbn [fst length]. f_equal. lia. }
  cbn [measure decode u_escapes] in *.
  revert Hu. destruct (negb (c =? 34) && nz c); intros Hu.
  2:{ right. eexists _, _. split; [reflexivity|]. cbn [length]. f_equal. lia. }
  revert Hu. destruct (c =? 92); cbn [negb]; intros Hu.
  2:{ apply Hemit; [lia|done]. }
  destruct p1 as [|e p2]; [by left|].
  cbn [length] in Hn. apply orb_false_iff in Hu as [He Hu].
  rewrite He.
  destruct (e =? 98); [apply Hemit; [lia|done]|].
  destruct (e =? 102); [apply Hemit; [lia|done]|].
  destruct (e =? 110); [apply Hemit; [lia|done]|].
  destruct (e =? 114); [apply Hemit; [lia|done]|].
  destruct (e =? 116); [apply Hemit; [lia|done]|].
  apply Hemit; [lia|done].
Qed.

(** X8: in a string literal with no [\u] escape before its closing quote,
    whatever the text behind that quote holds, the second loop of
    [parse_string] writes exactly as many bytes as the first loop counted, so
    the buffer is never overrun: the call returns the string, or it has read
    past the terminator behind a final backslash. *)
Theorem parse_string_fills_buffer (item : sJSON) (s : cursor) (ep : option cursor) :
  cur s = 34 -> u_escapes (tl s) = false ->
  (exists out q,
     decode (tl s) None = Ok (out, q)
     /\ measure (tl s) 0 = Ok (Z.of_nat (length out))
     /\ parse_string item s ep
        = (Ok (set_type sJSON_String (set_valueString (Some (cstr out)) item),
               if cur q =? 34 then tl q else q), ep))
  \/ parse_string item s ep = (Fault OutOfBounds, ep).
Proof.
  intros Hq Hu. unfold parse_string. rewrite Hq. cbn [Z.eqb Pos.eqb negb].
  unfold bind, lift.
  destruct (measure_decode (length (tl s)) (tl s) 0 None (le_n _) Hu)
    as [[-> _]|(out & q & Hd & Hm)]; [by right|left].
  rewrite Hm, Hd. cbn [fst snd].
  assert ((Z.of_nat (length out) <=? 0 + Z.of_nat (length out)) = true) as -> by lia.
  exists out, q. split; [reflexivity|]. split; [f_equal; lia|reflexivity].
Qed.

(** ** More about the serializer *)

Lemma hex_digit_range d : 0 <= d < 16 -> 48 <= hex_digit d <= 102.
Proof. intros Hd. unfold hex_digit. destruct (d <? 10) eqn:E; lia. Qed.

Lemma escape_range s : Forall (fun c => 32 <= c) (escape s).
Proof.
  induction s as [|c s IH]; [constructor|].
  cbn [escape].
  destruct ((31 <? c) && negb (c =? 34) && negb (c =? 92)) eqn:E.
  { apply Forall_cons. split; [lia|done]. }
  apply Forall_cons. split; [lia|]. apply Forall_app. split; [|done].
  assert (Hone : forall b, 32 <= b -> Forall (fun c => 32 <= c) [b]).
  { intros b Hb. apply Forall_cons. split; [done|apply Forall_nil_2]. }
  destruct (c =? 92); [by apply Hone|].
  destruct (c =? 34); [by apply Hone|].
  destruct (c =? 8); [by apply Hone|].
  destruct (c =? 12); [by apply Hone|].
  destruct (c =? 10); [by apply Hone|].
  destruct (c =? 13); [by apply Hone|].
  destruct (c =? 9); [by apply Hone|].
  apply Forall_cons. split; [done|]. unfold fmt_04x.
  assert (Hd : forall d, 32 <= hex_digit (d mod 16)).
  { intros d. pose proof (hex_digit_range (d mod 16)) as H.
    pose proof (Z.mod_pos_bound d 16). lia. }
  repeat (apply Forall_cons; split; [apply Hd|]). apply Forall_nil_2.
Qed.

Lemma escaped_len_escape s : forall len,
  escaped_len s len = len + Z.of_nat (length (escape s)).
Proof.
  induction s as [|c s IH]; intros len; [simpl; lia|].
  cbn [escaped_len escape]. cbv zeta.
  destruct (c =? 92) eqn:E1.
  { rewrite !orb_true_r. cbn [orb]. rewrite IH.
    assert (((31 <? c) && negb (c =? 34) && negb true) = false) as -> by lia.
    cbn [length app]. lia. }
  destruct (c =? 34) eqn:E2.
  { cbn [orb]. rewrite IH.
    assert (((31 <? c) && negb true && negb false) = false) as -> by lia.
    cbn [length app]. lia. }
  cbn [orb negb]. rewrite !andb_true_r.
  destruct (c =? 8) eqn:E3.
  { cbn [orb]. rewrite IH. assert ((31 <? c) = false) as -> by lia. cbn [length app]. lia. }
  destruct (c =? 12) eqn:E4.
  { cbn [orb]. rewrite IH. assert ((31 <? c) = false) as -> by lia. cbn [length app]. lia. }
  destruct (c =? 10) eqn:E5.
  { cbn [orb]. rewrite IH. assert ((31 <? c) = false) as -> by lia. cbn [length app]. lia. }
  destruct (c =? 13) eqn:E6.
  { cbn [orb]. rewrite IH. assert ((31 <? c) = false) as -> by lia. cbn [length app]. lia. }
  destruct (c =? 9) eqn:E7.
  { cbn [orb]. rewrite IH. assert ((31 <? c) = false) as -> by lia. cbn [length app]. lia. }
  cbn [orb].
  destruct (c <? 32) eqn:E8.
  - rewrite IH. assert ((31 <? c) = false) as -> by lia.
    unfold fmt_04x. cbn [length app]. lia.
  - rewrite IH. assert ((31 <? c) = true) as -> by lia. cbn [length]. lia.
Qed.

(** X9: the text [print_string_ptr] writes for a string holds no byte below
    32, whatever the string holds, and it fills the [len+3] bytes that the
    first loop made the function allocate exactly: the text and its
    terminator. *)
Theorem print_string_ptr_text (s : list Z) :
  Forall (fun c => 32 <= c) (print_string_ptr (Some s))
  /\ Z.of_nat (length (print_string_ptr (Some s))) + 1 = escaped_len s 0 + 3.
Proof.
  unfold print_string_ptr. split.
  - apply Forall_cons. split; [lia|]. apply Forall_app. split; [apply escape_range|].
    apply Forall_cons. split; [lia|apply Forall_nil_2].
  - rewrite escaped_len_escape. cbn [length]. rewrite length_app. cbn [length]. lia.
Qed.

Lemma more_length_le fmt es : forall acc,
  acc + Z.of_nat (length (more fmt es))
  <= fold_left (fun len e => len + Z.of_nat (length e) + 2 + (if fmt then 1 else 0)) es acc.
Proof.
  induction es as [|e es IH]; intros acc; [simpl; lia|].
  cbn [more fold_left]. etrans; [|apply IH].
  rewrite !length_app. cbn [length]. destruct fmt; cbn [length]; lia.
Qed.

Lemma array_text_fits (fmt : bool) (entries : list (list Z)) :
  Z.of_nat (length (array_text fmt entries)) + 1 <= print_array_len fmt entries.
Proof.
  unfold array_text, print_array_len.
  rewrite !length_app. cbn [length].
  destruct entries as [|e es]; [simpl; lia|].
  rewrite join_array_more, length_app. cbn [fold_left].
  etrans; [|apply more_length_le]. destruct fmt; lia.
Qed.

Lemma join_object_length_le fmt depth ms : forall acc,
  acc + Z.of_nat (length (join_object fmt depth ms))
  <= fold_left (fun len m => len + Z.of_nat (length (snd m)) + Z.of_nat (length (fst m)) + 2
                             + (if fmt then 2 + Z.of_nat depth else 0)) ms acc.
Proof.
  induction ms as [|[name entry] ms IH]; intros acc; [simpl; lia|].
  cbn [join_object fold_left fst snd]. etrans; [|apply IH].
  rewrite !length_app. cbn [length].
  set (k := length (match ms with [] => [] | _ :: _ => [44] end)).
  assert (k <= 1)%nat by (unfold k; destruct ms; simpl; lia).
  clearbody k.
  destruct fmt; rewrite ?repeat_length; cbn [length]; lia.
Qed.

Lemma object_text_fits (fmt : bool) (depth : nat) (members : list (list Z * list Z)) :
  Z.of_nat (length (object_text fmt depth members)) + 1
  <= print_object_len fmt (S depth) members.
Proof.
  unfold object_text, print_object_len.
  rewrite !length_app. cbn [length].
  etrans; [|apply join_object_length_le].
  destruct fmt; rewrite ?repeat_length; cbn [length]; lia.
Qed.

Section Serializer.
Context `{libc : Externals}.

(** X10: when [print_value] renders an array, the buffer [print_array]
    allocates from the lengths of the rendered entries is long enough for the
    text it composes and its terminator. *)
Theorem print_array_fits (t : sJSON) (depth : nat) (fmt : bool) (out : list Z) :
  Z.land (type t) 255 = sJSON_Array -> print_value t depth fmt = Ok out ->
  exists entries,
    collect (map (fun c => print_value c (S depth) fmt) (child t)) = Ok entries
    /\ out = array_text fmt entries
    /\ Z.of_nat (length out) + 1 <= print_array_len fmt entries.
Proof.
  intros Hty H. rewrite print_value_eq in H. cbv zeta in H. rewrite Hty in H.
  cbn [Z.eqb Pos.eqb sJSON_NULL sJSON_False sJSON_True sJSON_Number sJSON_String
       sJSON_Array] in H.
  destruct (collect _) as [entries| | |]; try done.
  cbn [rbind] in H. inversion H; subst out.
  exists entries. split; [done|]. split; [done|]. apply array_text_fits.
Qed.

(** X11: when [print_value] renders an object, the buffer [print_object]
    allocates from the lengths of the rendered names and entries and from the
    depth is long enough for the text it composes and its terminator. *)
Theorem print_object_fits (t : sJSON) (depth : nat) (fmt : bool) (out : list Z) :
  Z.land (type t) 255 = sJSON_Object -> print_value t depth fmt = Ok out ->
  exists entries,
    collect_all (map (fun c => print_value c (S depth) fmt) (child t)) = Ok entries
    /\ let members :=
         combine (map (fun c => print_string_ptr (nameString c)) (child t)) entries in
       out = object_text fmt depth members
       /\ Z.of_nat (length out) + 1 <= print_object_len fmt (S depth) members.
Proof.
  intros Hty H. rewrite print_value_eq in H. cbv zeta in H. rewrite Hty in H.
  cbn [Z.eqb Pos.eqb sJSON_NULL sJSON_False sJSON_True sJSON_Number sJSON_String
       sJSON_Array sJSON_Object] in H.
  destruct (collect_all _) as [entries| | |]; try done.
  cbn [rbind] in H. inversion H; subst out.
  exists entries. split; [done|]. cbv zeta. split; [done|]. apply object_text_fits.
Qed.

Lemma collect_ok {A} (f : A -> res (list Z)) cs es :
  collect (map f cs) = Ok es -> Forall (fun c => exists e, f c = Ok e) cs.
Proof.
  revert es. induction cs as [|c cs IH]; intros es H; [constructor|].
  cbn [map collect] in H.
  destruct (f c) as [e| | |] eqn:E; try done. cbn [rbind] in H.
  destruct (collect (map f cs)) as [es'| | |] eqn:E'; try done.
  constructor; [by exists e|]. by eapply IH.
Qed.

Lemma collect_all_ok {A} (f : A -> res (list Z)) cs es :
  collect_all (map f cs) = Ok es -> Forall (fun c => exists e, f c = Ok e) cs.
Proof.
  revert es. induction cs as [|c cs IH]; intros es H; [constructor|].
  cbn [map collect_all] in H.
  destruct (f c) as [e| | |] eqn:E; try done.
  - cbn [rbind] in H.
    destruct (collect_all (map f cs)) as [es'| | |] eqn:E'; try done.
    constructor; [by exists e|]. by eapply IH.
  - by destruct (collect_all (map f cs)).
Qed.

Lemma ok_collect {A} (f : A -> res (list Z)) cs :
  Forall (fun c => exists e, f c = Ok e) cs ->
  exists es, collect (map f cs) = Ok es /\ collect_all (map f cs) = Ok es.
Proof.
  induction 1 as [|c cs [e He] _ (es & IH1 & IH2)]; [by exists []|].
  exists (e :: es). cbn [map collect collect_all]. by rewrite He, IH1, IH2.
Qed.

(** X12: the serializer returns a text exactly for the trees whose nodes, as
    far as arrays and objects reach, all have one of the seven kinds and
    whose numbers all fit the buffer of [print_number]; the depth and the
    layout do not matter. *)
Theorem print_value_ok_iff (t : sJSON) (depth : nat) (fmt : bool) :
  (exists out, print_value t depth fmt = Ok out) <-> printable t.
Proof.
  revert depth. induction t as [t IH] using sJSON_induction. intros depth. split.
  - intros [out H]. rewrite print_value_eq in H. cbv zeta in H.
    assert (Hland : 0 <= Z.land (type t) 255 <= 255).
    { change 255 with (Z.ones 8). rewrite Z.land_ones by lia.
      change (2 ^ 8) with 256. change (Z.ones 8) with 255.
      pose proof (Z.mod_pos_bound (type t) 256). lia. }
    destruct (Z.land (type t) 255 =? sJSON_NULL) eqn:E2.
    { apply printable_node; unfold sJSON_NULL, sJSON_Number, sJSON_Array, sJSON_Object in *;
        lia. }
    destruct (Z.land (type t) 255 =? sJSON_False) eqn:E0.
    { apply printable_node; unfold sJSON_False, sJSON_Number, sJSON_Array, sJSON_Object in *;
        lia. }
    destruct (Z.land (type t) 255 =? sJSON_True) eqn:E1.
    { apply printable_node; unfold sJSON_True, sJSON_Number, sJSON_Array, sJSON_Object in *;
        lia. }
    destruct (Z.land (type t) 255 =? sJSON_Number) eqn:E3.
    { apply printable_node; [unfold sJSON_Number in *; lia|by exists out|].
      unfold sJSON_Number, sJSON_Array, sJSON_Object in *. lia. }
    destruct (Z.land (type t) 255 =? sJSON_String) eqn:E4.
    { apply printable_node; unfold sJSON_String, sJSON_Number, sJSON_Array, sJSON_Object in *;
        lia. }
    destruct (Z.land (type t) 255 =? sJSON_Array) eqn:E5.
    { destruct (collect _) as [es| | |] eqn:Ec; try done.
      apply collect_ok in Ec.
      apply printable_node; [unfold sJSON_Array in *; lia
                            |unfold sJSON_Number, sJSON_Array in *; lia|].
      intros _. rewrite Forall_forall in *. intros c Hc.
      apply (IH c Hc (S depth)). by apply Ec. }
    destruct (Z.land (type t) 255 =? sJSON_Object) eqn:E6; [|done].
    destruct (collect_all _) as [es| | |] eqn:Ec; try done.
    apply collect_all_ok in Ec.
    apply printable_node; [unfold sJSON_Object in *; lia
                          |unfold sJSON_Number, sJSON_Object in *; lia|].
    intros _. rewrite Forall_forall in *. intros c Hc.
    apply (IH c Hc (S depth)). by apply Ec.
  - intros Hp. inversion Hp as [t0 Hty Hnum Hch]; subst t0.
    rewrite print_value_eq. cbv zeta.
    assert (Hkids : Z.land (type t) 255 = sJSON_Array \/ Z.land (type t) 255 = sJSON_Object ->
      exists es,
        collect (map (fun c => print_value c (S depth) fmt) (child t)) = Ok es
        /\ collect_all (map (fun c => print_value c (S depth) fmt) (child t)) = Ok es).
    { intros Hk. apply ok_collect. specialize (Hch Hk).
      rewrite Forall_forall in *. intros c Hc. apply (IH c Hc (S depth)). by apply Hch. }
    destruct (Z.land (type t) 255 =? sJSON_NULL) eqn:E2; [by eexists|].
    destruct (Z.land (type t) 255 =? sJSON_False) eqn:E0; [by eexists|].
    destruct (Z.land (type t) 255 =? sJSON_True) eqn:E1; [by eexists|].
    destruct (Z.land (type t) 255 =? sJSON_Number) eqn:E3.
    { apply Hnum. lia. }
    destruct (Z.land (type t) 255 =? sJSON_String) eqn:E4; [by eexists|].
    destruct (Z.land (type t) 255 =? sJSON_Array) eqn:E5.
    { destruct Hkids as (es & -> & _); [left; lia|]. by eexists. }
    destruct (Z.land (type t) 255 =? sJSON_Object) eqn:E6.
    { destruct Hkids as (es & _ & ->); [right; lia|]. by eexists. }
    unfold sJSON_NULL, sJSON_False, sJSON_True, sJSON_Number, sJSON_String,
      sJSON_Array, sJSON_Object in *. lia.
Qed.

End Serializer.

(** ** The error pointer *)

Lemma outcome_mono {A} v v' ep (r : res (A * cursor)) ep' :
  v `suffix_of` v' -> outcome_at v ep r ep' -> outcome_at v' ep r ep'.
Proof.
  intros Hv. unfold outcome_at. destruct r as [[a rest]| | |]; [| |done|done].
  - intros [-> H]. split; [done|by etrans].
  - intros (p & -> & H). exists p. split; [done|by etrans].
Qed.

Lemma tracks_mono {A} v v' (m : M (A * cursor)) :
  v `suffix_of` v' -> tracks v m -> tracks v' m.
Proof. intros Hv H ep r ep' E. eapply outcome_mono; [done|by apply H]. Qed.

Lemma tracks_ret {A} v (a : A) rest : rest `suffix_of` v -> tracks v (ret (a, rest)).
Proof. intros H ep r ep' E. inversion E; subst. by split. Qed.

Lemma tracks_fail {A} v p : p `suffix_of` v -> tracks (A := A) v (fail_at p).
Proof. intros H ep r ep' E. inversion E; subst. by exists p. Qed.

Lemma tracks_lift {A} v (r : res (A * cursor)) :
  r <> Null -> (forall a rest, r = Ok (a, rest) -> rest `suffix_of` v) ->
  tracks v (lift r).
Proof.
  intros Hn Hok ep r' ep' E. inversion E; subst.
  destruct r' as [[a rest]| | |]; try done. split; [done|by eapply Hok].
Qed.

Lemma tracks_bind_skip {A} v p (k : cursor -> M (A * cursor)) :
  p `suffix_of` v -> (forall q, q `suffix_of` p -> tracks q (k q)) ->
  tracks v (bind (skipM p) k).
Proof.
  intros Hp Hk ep r ep' E. unfold bind, skipM, lift in E.
  destruct (skip_cases p) as [Es|(q & Es & Hq)]; rewrite Es in E.
  - by inversion E; subst.
  - eapply outcome_mono; [|by eapply (Hk q Hq)]. by etrans.
Qed.

Lemma tracks_bind {A B} v (m : M (A * cursor)) (k : A * cursor -> M (B * cursor)) :
  tracks v m -> (forall a rest, rest `suffix_of` v -> tracks rest (k (a, rest))) ->
  tracks v (bind m k).
Proof.
  intros Hm Hk ep r ep' E. unfold bind in E.
  destruct (m ep) as [[[a rest]| |f|] ep1] eqn:Em; try (by inversion E; subst).
  - destruct (Hm _ _ _ Em) as [-> Hrest].
    eapply outcome_mono; [exact Hrest|]. by eapply (Hk a rest Hrest).
  - inversion E; subst. exact (Hm _ _ _ Em).
Qed.

Lemma tracks_skip_result {A} v (m : M (A * cursor)) :
  tracks v m -> tracks v (skip_result m).
Proof.
  intros Hm ep r ep' E. unfold skip_result in E.
  destruct (m ep) as [[[a rest]| |f|] ep1] eqn:Em; try (by inversion E; subst).
  destruct (Hm _ _ _ Em) as [-> Hrest].
  destruct (skip_cases rest) as [Es|(q & Es & Hq)]; rewrite Es in E;
    inversion E; subst; [done|].
  split; [done|by etrans].
Qed.

Lemma measure_not_null n : forall p len, (length p <= n)%nat -> measure p len <> Null.
Proof.
  induction n as [|n IH]; intros p len Hn.
  { destruct p; [done|simpl in Hn; lia]. }
  destruct p as [|c p1]; [done|]. cbn [length] in Hn. cbn [measure].
  destruct (negb (c =? 34) && nz c); [|done].
  destruct (c =? 92); [|apply IH; lia].
  destruct p1 as [|e p2]; [done|]. cbn [length] in Hn. apply IH. lia.
Qed.

Lemma decode_not_null n : forall p uc, (length p <= n)%nat -> decode p uc <> Null.
Proof.
  induction n as [|n IH]; intros p uc Hn.
  { destruct p; [done|simpl in Hn; lia]. }
  destruct p as [|c p1]; [done|]. cbn [length] in Hn. cbn [decode].
  destruct (negb (c =? 34) && nz c); [|done].
  assert (Hemit : forall b r u, (length r <= n)%nat ->
            rbind (decode r u) (fun r0 => Ok (b :: fst r0, snd r0)) <> Null).
  { intros b r u Hr. specialize (IH r u Hr). by destruct (decode r u) as [[? ?]| | |]. }
  destruct (negb (c =? 92)); [apply Hemit; lia|].
  destruct p1 as [|e p2]; [done|]. cbn [length] in Hn.
  destruct (e =? 98); [apply Hemit; lia|].
  destruct (e =? 102); [apply Hemit; lia|].
  destruct (e =? 110); [apply Hemit; lia|].
  destruct (e =? 114); [apply Hemit; lia|].
  destruct (e =? 116); [apply Hemit; lia|].
  destruct (e =? 117); [|apply Hemit; lia].
  destruct (match sscanf_4x p2 with Some v => Some v | None => uc end) as [u|]; [|done].
  destruct p2 as [|a1 [|a2 [|a3 [|a4 p6]]]]; try done.
  cbn [length] in Hn.
  assert (length p6 <= n)%nat as H6 by lia.
  specialize (IH p6 (Some (snd (utf8 u))) H6).
  by destruct (decode p6 _) as [[? ?]| | |].
Qed.

Lemma tracks_parse_string item v : cstring v -> tracks v (parse_string item v).
Proof.
  intros Hv ep r ep' E.
  destruct r as [[t rest]| | |]; [| |exact I|exact I].
  - apply parse_string_shape in E as (_ & Hs & ->); done.
  - unfold parse_string in E.
    destruct (negb (cur v =? 34)); [inversion E; subst; by exists v|].
    unfold bind, lift in E.
    pose proof (measure_not_null _ (tl v) 0 (le_n _)) as Hm.
    pose proof (decode_not_null _ (tl v) None (le_n _)) as Hd.
    destruct (measure (tl v) 0); try done.
    destruct (decode (tl v) None) as [[o q]| | |]; try done.
    cbn [fst snd] in E. by destruct (Z.of_nat (length o) <=? a).
Qed.

Lemma tracks_parse_key item v :
  cstring v -> tracks v (parse_string_or_identifier item v).
Proof.
  intros Hv ep r ep' E.
  destruct r as [[t rest]| | |]; [| |exact I|exact I].
  - apply parse_key_shape in E as (_ & Hs & ->); done.
  - unfold parse_string_or_identifier in E.
    destruct (cur v =? 34); [by apply (tracks_parse_string item v Hv _ _ _ E)|].
    destruct (_ || _); [done|]. inversion E; subst. by exists v.
Qed.

Section Tracking.
Context `{libc : Externals}.

Lemma parse_number_not_null item v : parse_number item v <> Null.
Proof.
  unfold parse_number.
  destruct (scan_sign v) as [sign v1].
  destruct (scan_int (scan_zero v1)) as [n v3].
  assert (forall n v, scan_frac n v <> Null) as Hf.
  { intros n0 v0. unfold scan_frac. destruct (cur v0 =? 46); [|done].
    unfold frac_part. by destruct (tl v0). }
  assert (forall p s, exp_digits p s <> Null) as Hd.
  { induction p as [|c p IH]; intros s; cbn [exp_digits]; [done|].
    destruct (is_digit c); [|done]. destruct (_ <=? _); [apply IH|done]. }
  assert (forall v, scan_exp v <> Null) as He.
  { intros v0. unfold scan_exp. destruct (_ || _); [|done]. cbv zeta.
    destruct (cur (tl v0) =? 43).
    - specialize (Hd (tl (tl v0)) 0). by destruct (exp_digits _ _) as [[? ?]| | |].
    - destruct (cur (tl v0) =? 45).
      + specialize (Hd (tl (tl v0)) 0). by destruct (exp_digits _ _) as [[? ?]| | |].
      + specialize (Hd (tl v0) 0). by destruct (exp_digits _ _) as [[? ?]| | |]. }
  specialize (Hf n v3).
  destruct (scan_frac n v3) as [[[n4 sc] v4]| | |]; try done. cbn [rbind].
  specialize (He v4).
  destruct (scan_exp v4) as [[[ss sg] v5]| | |]; done.
Qed.

Section Builders.
Context (pv : sJSON -> option cursor -> M (sJSON * cursor)).
Hypothesis Hpv : forall item v, cstring v -> tracks v (pv item (Some v)).

Lemma tracks_array_loop k : forall done child value,
  cstring value -> tracks value (array_loop pv k done child value).
Proof.
  induction k as [|k IH]; intros done child value Hv; cbn [array_loop];
    destruct (negb (cur value =? 93)); try (by apply tracks_ret).
  - by intros ep r ep' E; inversion E; subst.
  - assert ((if cur value =? 44 then tl value else value) `suffix_of` value) as Hs
      by (destruct (cur value =? 44); [apply suffix_tl|done]).
    apply tracks_bind_skip; [done|]. intros q Hq.
    assert (cstring q) as Hcq by (eapply cstring_suffix; [by etrans|done]).
    apply tracks_bind; [by apply tracks_skip_result, Hpv|].
    intros a rest Hrest. cbn [fst snd]. apply IH. by eapply cstring_suffix.
Qed.

Lemma tracks_parse_array k item value :
  cstring value -> tracks value (parse_array pv k item value).
Proof.
  intros Hv. unfold parse_array.
  destruct (negb (cur value =? 91)); [by apply tracks_fail|].
  apply tracks_bind_skip; [apply suffix_tl|]. intros q Hq.
  assert (cstring q) as Hcq.
  { eapply cstring_suffix; [exact Hq|]. eapply cstring_suffix; [apply suffix_tl|done]. }
  destruct (cur q =? 93); [apply tracks_ret, suffix_tl|].
  apply tracks_bind_skip; [done|]. intros q1 Hq1.
  assert (cstring q1) as Hcq1 by (by eapply cstring_suffix).
  apply tracks_bind; [by apply tracks_skip_result, Hpv|].
  intros a rest Hrest. cbn [fst snd].
  assert (cstring rest) as Hcr by (by eapply cstring_suffix).
  apply tracks_bind; [by apply tracks_array_loop|].
  intros l rest' Hrest'. cbn [fst snd].
  destruct (cur rest' =? 93); [apply tracks_ret, suffix_tl|by apply tracks_fail].
Qed.

Lemma tracks_parse_member v : cstring v -> tracks v (parse_member pv v).
Proof.
  intros Hv. unfold parse_member.
  apply tracks_bind; [by apply tracks_skip_result, tracks_parse_key|].
  intros c value Hvalue. cbn [fst snd].
  assert (cstring value) as Hcv by (by eapply cstring_suffix).
  destruct (negb (cur value =? 58) && negb (cur value =? 61)); [by apply tracks_fail|].
  apply tracks_bind_skip; [apply suffix_tl|]. intros q Hq.
  apply tracks_skip_result, Hpv.
  eapply cstring_suffix; [exact Hq|]. eapply cstring_suffix; [apply suffix_tl|done].
Qed.

Lemma tracks_object_loop k : forall done child value,
  cstring value -> tracks value (object_loop pv k done child value).
Proof.
  induction k as [|k IH]; intros done child value Hv; cbn [object_loop];
    destruct (negb (cur value =? 125) && negb (cur value =? 0)); try (by apply tracks_ret).
  - by intros ep r ep' E; inversion E; subst.
  - assert ((if cur value =? 44 then tl value else value) `suffix_of` value) as Hs
      by (destruct (cur value =? 44); [apply suffix_tl|done]).
    apply tracks_bind_skip; [done|]. intros q Hq.
    assert (cstring q) as Hcq by (eapply cstring_suffix; [by etrans|done]).
    apply tracks_bind; [by apply tracks_parse_member|].
    intros a rest Hrest. cbn [fst snd]. apply IH. by eapply cstring_suffix.
Qed.

Lemma tracks_parse_object k item value :
  cstring value -> tracks value (parse_object pv k item value).
Proof.
  intros Hv. unfold parse_object.
  destruct (cur value =? 125); [apply tracks_ret, suffix_tl|].
  apply tracks_bind_skip; [done|]. intros q Hq.
  assert (cstring q) as Hcq by (by eapply cstring_suffix).
  apply tracks_bind; [by apply tracks_parse_member|].
  intros a rest Hrest. cbn [fst snd].
  assert (cstring rest) as Hcr by (by eapply cstring_suffix).
  apply tracks_bind; [by apply tracks_object_loop|].
  intros l rest' Hrest'. cbn [fst snd].
  destruct (cur rest' =? 0); [by apply tracks_ret|].
  destruct (cur rest' =? 125); [apply tracks_ret, suffix_tl|by apply tracks_fail].
Qed.

End Builders.

Lemma tracks_parse_value n : forall item v,
  cstring v -> tracks v (parse_value n item (Some v)).
Proof.
  induction n as [|n IH]; intros item v Hv.
  { by intros ep r ep' E; inversion E; subst. }
  intros ep r ep' E. rewrite parse_value_classify in E.
  destruct (classify v).
  - inversion E; subst. split; [done|apply suffix_drop].
  - inversion E; subst. split; [done|apply suffix_drop].
  - inversion E; subst. split; [done|apply suffix_drop].
  - inversion E; subst.
    pose proof (parse_number_not_null item v) as Hn.
    destruct (parse_number item v) as [[t rest]| | |] eqn:En; try done.
    split; [done|]. by apply parse_number_shape in En as [_ ?].
  - by apply (tracks_parse_array _ IH n item v Hv _ _ _ E).
  - revert E. apply (tracks_bind_skip v (tl v)); [apply suffix_tl|].
    intros q Hq. apply tracks_parse_object; [exact IH|].
    eapply cstring_suffix; [exact Hq|]. eapply cstring_suffix; [apply suffix_tl|done].
  - by apply (tracks_parse_string item v Hv _ _ _ E).
  - inversion E; subst. by exists v.
Qed.

(** X13: what [sJSONparse] leaves in the error pointer: when it returns a tree
    the error pointer is null, and when it returns null the error pointer is
    a position of the text that was given. *)
Theorem sJSONparse_error_pointer (D : cursor) :
  cstring D ->
  match sJSONparse D with
  | (Ok _, ep) => ep = None
  | (Null, ep) => exists p, ep = Some p /\ p `suffix_of` D
  | _ => True
  end.
Proof.
  intros HD. unfold sJSONparse. cbv zeta.
  unfold bind at 1. unfold skipM at 1. unfold lift.
  destruct (skip_cases D) as [Es|(q & Es & Hq)]; rewrite Es; [done|].
  assert (cstring q) as Hcq by (by eapply cstring_suffix).
  set (m := if (cur q =? 123) || (cur q =? 91)
            then bind (skipM q) (fun v => parse_value (S (length D)) sJSON_New_Item (Some v))
            else bind (skipM q) (fun v =>
                   parse_object (parse_value (S (length D))) (S (length D))
                     sJSON_New_Item v)).
  assert (tracks q m) as H.
  { unfold m. destruct (_ || _).
    - apply tracks_bind_skip; [done|]. intros q1 Hq1.
      apply tracks_parse_value. by eapply cstring_suffix.
    - apply tracks_bind_skip; [done|]. intros q1 Hq1.
      apply tracks_parse_object; [apply tracks_parse_value|]. by eapply cstring_suffix. }
  unfold bind. fold m.
  destruct (m None) as [[[t rest]| |f|] ep1] eqn:Em; try done.
  - by destruct (H _ _ _ Em) as [-> _].
  - destruct (H _ _ _ Em) as (p & -> & Hp). exists p. split; [done|by etrans].
Qed.

(** X14: a text with nothing in it but white space and comments is not
    refused with a null result: the key of the first member fails at the
    terminator, and [parse_object] hands the null result to [skip]. *)
Theorem sJSONparse_empty_document (D : cursor) :
  skip (Some D) = Ok [] -> sJSONparse D = (Fault NullDeref, Some []).
Proof.
  intros H. unfold sJSONparse. cbv zeta.
  unfold bind at 1. unfold skipM at 1. unfold lift. rewrite H. reflexivity.
Qed.

(** X15: a number that the text ends in right behind its decimal point makes
    [parse_number] step over the terminator: the body of the loop for the
    fraction runs once before the byte is looked at. *)
Theorem parse_number_trailing_point (item : sJSON) (neg : bool) (ip : list Z) :
  digits ip -> (ip = [48] \/ exists d ds, ip = d :: ds /\ 49 <= d) ->
  parse_number item ((if neg then [45] else []) ++ ip ++ [46]) = Fault OutOfBounds.
Proof.
  intros Hint Hshape.
  assert (exists d ds, ip = d :: ds /\ 48 <= d <= 57) as (d0 & ds0 & Eip & Hd0).
  { destruct Hshape as [->|(d & ds & -> & Hd)]; [by exists 48, []|].
    exists d, ds. split; [done|]. inversion Hint; subst. lia. }
  unfold parse_number.
  assert (scan_sign ((if neg then [45] else []) ++ ip ++ [46])
          = (if neg then (-1)%float else 1%float, ip ++ [46])) as ->.
  { unfold scan_sign. destruct neg; [done|]. rewrite Eip. cbn [app]. unfold cur. cbn [hd].
    by assert ((d0 =? 45) = false) as -> by lia. }
  assert (scan_int (scan_zero (ip ++ [46])) = (mantissa ip, [46])) as ->.
  { unfold scan_int, scan_zero. destruct Hshape as [->|(d & ds & -> & Hd)].
    - reflexivity.
    - inversion Hint; subst. cbn [app]. unfold cur. cbn [hd].
      assert ((d =? 48) = false) as -> by lia. cbn [hd].
      assert (((49 <=? d) && (d <=? 57)) = true) as -> by lia.
      rewrite (int_digits_app (d :: ds) [46]); done. }
  reflexivity.
Qed.

End Tracking.

(** ** Closed instances *)

(** bytes that are none of a given few, checked one by one *)
Ltac all_with tac :=
  lazymatch goal with
  | |- Forall ?P ?l => let l' := eval vm_compute in l in change (Forall P l')
  end;
  repeat (apply Forall_cons; split; [cbv beta; tac|]); apply Forall_nil_2.
Ltac all_bytes := all_with lia.

(** X2 on a line comment behind a blank, closed by a line feed, and on one
    that the text ends in. *)
Lemma skip_line_comment_example :
  skip (Some ([32] ++ [47; 47] ++ str "note" ++ 10 :: str "x")) = skip (Some (str "x"))
  /\ skip (Some ([32] ++ [47; 47] ++ str "note")) = Ok [].
Proof.
  apply (skip_line_comment [32] (str "note") 10 (str "x")).
  - unfold blank. all_bytes.
  - all_bytes.
  - by left.
Defined.

(** X3 on a block comment with a star inside. *)
Lemma skip_block_comment_example :
  skip (Some ([32] ++ [47; 42] ++ str " a * b " ++ [42; 47] ++ str "x")) = skip (Some (str "x")).
Proof.
  apply (skip_block_comment [32] (str " a * b ") (str "x")).
  - unfold blank. all_bytes.
  - all_bytes.
  - reflexivity.
Defined.

(** X4 on the key [key_1], followed by an equals sign. *)
Lemma bare_key_parses_example :
  parse_string_or_identifier sJSON_New_Item (str "key_1=2") None
  = (Ok (set_type sJSON_String (set_valueString (Some (str "key_1")) sJSON_New_Item), str "=2"), None).
Proof.
  apply (bare_key_parses sJSON_New_Item 107 (str "ey_1") (str "=2") None).
  - right. left. lia.
  - all_with ltac:(reflexivity).
  - reflexivity.
Defined.

(** X5 on the text of a string with a line feed, cut off before its closing
    quote. *)
Lemma parse_string_unterminated_example :
  parse_string sJSON_New_Item (34 :: escape [97; 10; 98]) None
  = (Ok (set_type sJSON_String (set_valueString (Some [97; 10; 98]) sJSON_New_Item), []), None).
Proof.
  apply (parse_string_unterminated [97; 10; 98] sJSON_New_Item None).
  unfold cstring. all_bytes.
Defined.

(** X6 on the same text with a backslash behind it. *)
Lemma parse_string_trailing_backslash_example :
  parse_string sJSON_New_Item (34 :: escape [97; 10; 98] ++ [92]) None = (Fault OutOfBounds, None).
Proof.
  apply (parse_string_trailing_backslash [97; 10; 98] sJSON_New_Item None).
  unfold cstring. all_bytes.
Defined.

(** X7 on [\u41] before the closing quote: with the three bytes [abc]
    behind the quote, [a] is stepped over and the string is [Abc]; with a
    blank before them it is [abc] that is copied, and the terminator is
    stored behind the buffer. *)
Lemma short_unicode_escape_skips_quote_example :
  parse_string sJSON_New_Item
    (34 :: 92 :: 117 :: 52 :: 49 :: 34 :: 97 :: str "bc" ++ 34 :: []) None
  = (Ok (set_type sJSON_String (set_valueString (Some (str "Abc")) sJSON_New_Item), []),
     None)
  /\ parse_string sJSON_New_Item
       (34 :: 92 :: 117 :: 52 :: 49 :: 34 :: 32 :: str "abc" ++ 34 :: []) None
     = (Fault BufferOverflow, None).
Proof.
  split.
  - apply (short_unicode_escape_skips_quote sJSON_New_Item 52 49 4 1 97 (str "bc") [] None).
    + reflexivity.
    + reflexivity.
    + lia.
    + all_bytes.
    + simpl. lia.
  - apply (short_unicode_escape_skips_quote sJSON_New_Item 52 49 4 1 32 (str "abc") [] None).
    + reflexivity.
    + reflexivity.
    + lia.
    + all_bytes.
    + simpl. lia.
Defined.

(** X8 on a literal with a line feed escape, followed by a literal with a
    [\u] escape. *)
Lemma parse_string_fills_buffer_example :
  parse_string sJSON_New_Item
    (34 :: 97 :: 92 :: 110 :: 34 :: 32 :: 34 :: 92 :: 117 :: str "0041" ++ [34]) None
  = (Ok (set_type sJSON_String (set_valueString (Some [97; 10]) sJSON_New_Item),
         32 :: 34 :: 92 :: 117 :: str "0041" ++ [34]), None).
Proof.
  destruct (parse_string_fills_buffer sJSON_New_Item
              (34 :: 97 :: 92 :: 110 :: 34 :: 32 :: 34 :: 92 :: 117 :: str "0041" ++ [34])
              None) as [(out & q & Hd & _ & Hp)|Hp].
  - reflexivity.
  - reflexivity.
  - vm_compute in Hd. injection Hd as <- <-. exact Hp.
  - vm_compute in Hp. discriminate Hp.
Defined.

(** X10 on the array of the example document, rendered without layout. *)
Lemma print_array_fits_example :
  exists out entries,
    print_value (libc := reference_libc) example_array 0 false = Ok out
    /\ out = array_text false entries
    /\ Z.of_nat (length out) + 1 <= print_array_len false entries.
Proof.
  destruct (print_array_fits (libc := reference_libc) example_array 0 false
              (str "[2,true]")) as (entries & _ & Ho & Hl).
  - reflexivity.
  - vm_compute. reflexivity.
  - exists (str "[2,true]"), entries. split; [vm_compute; reflexivity|]. by split.
Defined.

(** X11 on the tree of the example document, rendered with layout. *)
Lemma print_object_fits_example :
  exists out entries,
    print_value (libc := reference_libc) example_tree 0 true = Ok out
    /\ collect_all (map (fun c => print_value (libc := reference_libc) c 1 true)
                      (child example_tree)) = Ok entries
    /\ Z.of_nat (length out) + 1
       <= print_object_len true 1
            (combine (map (fun c => print_string_ptr (nameString c)) (child example_tree))
                     entries).
Proof.
  assert (exists out, print_value (libc := reference_libc) example_tree 0 true = Ok out)
    as [out E] by (eexists; vm_compute; reflexivity).
  destruct (print_object_fits (libc := reference_libc) example_tree 0 true out)
    as (entries & Hc & _ & Hl).
  - reflexivity.
  - exact E.
  - exists out, entries. split; [exact E|]. by split.
Defined.

(** X13 on the example document, which parses, and on a document whose
    key is followed by neither a colon nor an equals sign, which is
    refused at the byte behind the key. *)
Lemma sJSONparse_error_pointer_example :
  (exists t, sJSONparse (libc := reference_libc) example_doc = (Ok t, None))
  /\ (exists p, sJSONparse (libc := reference_libc) (str "a 1") = (Null, Some p)
                /\ p `suffix_of` str "a 1").
Proof.
  split.
  - assert (exists t ep, sJSONparse (libc := reference_libc) example_doc = (Ok t, ep))
      as (t & ep & E) by (do 2 eexists; vm_compute; reflexivity).
    pose proof (sJSONparse_error_pointer (libc := reference_libc) example_doc) as H.
    rewrite E in H. rewrite H in E by (apply is_cstring_cstring; reflexivity).
    by exists t.
  - assert (exists ep, sJSONparse (libc := reference_libc) (str "a 1") = (Null, ep))
      as (ep & E) by (eexists; vm_compute; reflexivity).
    pose proof (sJSONparse_error_pointer (libc := reference_libc) (str "a 1")) as H.
    rewrite E in H. destruct H as (p & -> & Hp); [apply is_cstring_cstring; reflexivity|].
    by exists p.
Defined.

(** X14 on a document that holds a comment and nothing else. *)
Lemma sJSONparse_empty_document_example :
  sJSONparse (libc := reference_libc) (str " // nothing") = (Fault NullDeref, Some []).
Proof.
  apply (sJSONparse_empty_document (libc := reference_libc) (str " // nothing")).
  reflexivity.
Defined.

(** X15 on the text [-12.] *)
Lemma parse_number_trailing_point_example :
  parse_number (libc := reference_libc) sJSON_New_Item ([45] ++ [49; 50] ++ [46]) = Fault OutOfBounds.
Proof.
  apply (parse_number_trailing_point (libc := reference_libc) sJSON_New_Item true [49; 50]).
  - all_digits.
  - right. exists 49, [50]. split; [reflexivity|lia].
Defined.

(** * More of the chains of siblings *)

Module ChainMore.
Import Chain ChainFacts.

#[local] Arguments steps : simpl never.

(** ** Reading a chain *)

(** X16: on a node whose children are the chain [l], [sJSONgetArraySize]
    returns the length of [l] and [sJSONgetArrayItem] with an index that is
    not negative returns the child at that place of [l], or null when [l]
    has no such place. *)
Theorem array_reads (h : store) (a : loc) (l : list loc) :
  is_chain h a l ->
  sJSONgetArraySize h (Some a) = Ok (Z.of_nat (length l))
  /\ forall i : nat, sJSONgetArrayItem h (Some a) (Z.of_nat i) = Ok (l !! i).
Proof.
  intros Hc. split; [by apply array_size_chain|].
  intros i. rewrite (array_item_chain _ _ _ _ Hc). by rewrite Nat2Z.id.
Qed.

(** the first place of a list at which a property holds *)
Lemma first_match (P : loc -> Prop) `{!forall x, Decision (P x)} (l : list loc) :
  (exists d x, l !! d = Some x /\ P x /\ forall j y, (j < d)%nat -> l !! j = Some y -> ~ P y)
  \/ (forall y, y ∈ l -> ~ P y).
Proof.
  induction l as [|c l IH]; [right; by intros y Hy%elem_of_nil|].
  destruct (decide (P c)) as [Hc|Hc].
  { left. exists O, c. split; [done|]. split; [done|]. intros j y Hj. lia. }
  destruct IH as [(d & x & Hd & Hx & Hmin)|Hnone].
  - left. exists (S d), x. split; [done|]. split; [done|].
    intros [|j] y Hj Hy; [by inversion Hy; subst|]. apply (Hmin j y); [lia|done].
  - right. intros y Hy. apply elem_of_cons in Hy as [->|Hy]; [done|by apply Hnone].
Qed.

(** X17: [sJSONgetObjectItem] returns the first child, in the order of the
    chain, whose stored hash is the one asked for, also when later children
    carry the same hash; it returns null when no child carries it. *)
Theorem getObjectItem_first_match (h : store) (o : loc) (l : list loc) (hash : Z) :
  is_chain h o l ->
  (forall (d : nat) x, l !! d = Some x -> hash_at h x = Some hash ->
     (forall j y, (j < d)%nat -> l !! j = Some y -> hash_at h y <> Some hash) ->
     sJSONgetObjectItem h (Some o) hash = Ok (Some x))
  /\ ((forall y, y ∈ l -> hash_at h y <> Some hash) ->
      sJSONgetObjectItem h (Some o) hash = Ok None).
Proof.
  intros Hc. split.
  - intros d x Hd Hx Hmin. by eapply get_object_hit.
  - intros Hnone. by eapply get_object_miss.
Qed.

(** X18: [hasMapMember] of json.h answers whether some child of the map
    carries the hash. *)
Theorem hasMapMember_iff (h : store) (o : loc) (l : list loc) (hash : Z) :
  is_chain h o l ->
  exists b, hasMapMember h (Some o) hash = Ok b
            /\ (b = true <-> exists y, y ∈ l /\ hash_at h y = Some hash).
Proof.
  intros Hc. unfold hasMapMember.
  destruct (first_match (fun y => hash_at h y = Some hash) l)
    as [(d & x & Hd & Hx & Hmin)|Hnone].
  - rewrite (get_object_hit _ _ _ _ _ _ Hc Hd Hx Hmin). cbn [rbind].
    exists true. split; [done|]. split; [|done]. intros _. exists x.
    split; [by eapply list_elem_of_lookup_2|done].
  - rewrite (get_object_miss _ _ _ _ Hc Hnone). cbn [rbind].
    exists false. split; [done|]. split; [done|]. intros (y & Hy & Hh).
    by destruct (Hnone y Hy).
Qed.

(** ** Appending *)

Lemma add_array_chain (h : store) (a : loc) (l : list loc) (v : loc) :
  is_chain h a l -> detached h v -> v ∉ l -> v <> a ->
  exists h',
    sJSONaddItemToArray h (Some a) (Some v) = Ok h'
    /\ is_chain h' a (l ++ [v])
    /\ (forall x, payload <$> h' !! x = payload <$> h !! x)
    /\ (forall x, x <> a -> child <$> h' !! x = child <$> h !! x)
    /\ (forall x, x ∉ a :: v :: l -> h' !! x = h !! x).
Proof.
  intros Hc (nv & Hv & Hvn & Hvp) Hvl Hva.
  pose proof (chain_steps _ _ _ Hc) as Hs.
  destruct Hc as [(A & HA & Hd) [Hnd Ho]].
  destruct (dll_lookup _ _ _ _ Hd) as [Hhd Hall].
  unfold sJSONaddItemToArray, deref. rewrite HA. cbn [rbind].
  destruct (decide (l = [])) as [->|Hne].
  - (* the first child *)
    simpl in Hhd. rewrite Hhd. simpl. rewrite HA.
    eexists. split; [done|]. split; [|split; [|split]].
    + split; [|split].
      * eexists. split; [by rewrite lookup_insert_eq|]. simpl.
        split; [done|]. exists nv. split; [by rewrite lookup_insert_ne|]. done.
      * apply NoDup_singleton.
      * intros Hin. apply list_elem_of_singleton in Hin. by subst.
    + intros x. destruct (decide (x = a)) as [->|Hxa].
      * by rewrite lookup_insert_eq, HA.
      * by rewrite lookup_insert_ne.
    + intros x Hx. by rewrite lookup_insert_ne.
    + intros x Hx. rewrite lookup_insert_ne; [done|]. intros ->. apply Hx. left.
  - assert (Hlen : (0 < length l)%nat) by (destruct l; [done|simpl; lia]).
    assert (is_Some (l !! (length l - 1)%nat)) as [y Hy]
      by (apply lookup_lt_is_Some; lia).
    destruct (Hall _ _ Hy) as (ny & Hny & Hnyx & Hnyp).
    assert (Hhd' : child A = l !! O) by (by rewrite Hhd, head_lookup).
    rewrite Hhd'.
    destruct (l !! O) as [z|] eqn:Ez.
    2:{ apply lookup_ge_None in Ez. lia. }
    rewrite <- Ez.
    rewrite (last_lookup h l None Hall).
    2:{ unfold steps. lia. }
    2:{ lia. }
    rewrite Hy. simpl. unfold suffix_object. simpl. rewrite Hny. simpl.
    assert (y <> v) as Hyv.
    { intros ->. apply Hvl. by eapply list_elem_of_lookup_2. }
    assert (y <> a) as Hya.
    { intros ->. apply Ho. by eapply list_elem_of_lookup_2. }
    rewrite lookup_insert_ne by done. rewrite Hv. simpl.
    eexists. split; [done|]. split; [|split; [|split]].
    + split; [|split].
      * exists A. split.
        { rewrite !lookup_insert_ne by done. done. }
        apply lookup_dll.
        { rewrite Hhd. rewrite !head_lookup. rewrite lookup_app_l; [done|]. lia. }
        intros i x Hi.
        destruct (decide (i < length l - 1)%nat) as [Hlt|Hge].
        -- rewrite lookup_app_l in Hi by lia.
           destruct (Hall i x Hi) as (n & Hn & Hnx & Hnp).
           assert (x <> y).
           { intros ->. pose proof (NoDup_lookup _ _ _ _ Hnd Hi Hy). lia. }
           assert (x <> v).
           { intros ->. apply Hvl. by eapply list_elem_of_lookup_2. }
           exists n. split; [by rewrite !lookup_insert_ne by done|].
           split.
           ++ rewrite Hnx. rewrite lookup_app_l; [done|]. lia.
           ++ rewrite Hnp. destruct i as [|i]; [done|].
              rewrite lookup_app_l; [done|]. lia.
        -- destruct (decide (i = length l - 1)%nat) as [->|Hne'].
           ++ rewrite lookup_app_l in Hi by lia. rewrite Hy in Hi. inversion Hi; subst x.
              eexists. split.
              { rewrite lookup_insert_ne by done. by rewrite lookup_insert_eq. }
              simpl. split.
              ** rewrite lookup_app_r by lia.
                 by replace (S (length l - 1) - length l)%nat with O by lia.
              ** rewrite Hnyp. destruct (length l - 1)%nat as [|j] eqn:Ej; [done|].
                 rewrite lookup_app_l; [done|]. lia.
           ++ assert (i = length l) as ->.
              { apply lookup_lt_Some in Hi. rewrite length_app in Hi. simpl in Hi. lia. }
              rewrite lookup_app_r in Hi by lia.
              replace (length l - length l)%nat with O in Hi by lia.
              inversion Hi; subst x.
              eexists. split; [by rewrite lookup_insert_eq|].
              simpl. split.
              ** rewrite Hvn. symmetry. apply lookup_ge_None.
                 rewrite length_app. simpl. lia.
              ** destruct (length l) as [|j] eqn:Ej; [lia|].
                 rewrite lookup_app_l by lia. rewrite <- Hy. f_equal. lia.
      * apply NoDup_app. split; [done|]. split; [|apply NoDup_singleton].
        intros x Hx Hx'. apply list_elem_of_singleton in Hx'. by subst.
      * intros Hin. apply elem_of_app in Hin as [Hin|Hin]; [done|].
        apply list_elem_of_singleton in Hin. by subst.
    + intros x. destruct (decide (x = v)) as [->|Hxv].
      { by rewrite lookup_insert_eq, Hv. }
      rewrite lookup_insert_ne by done.
      destruct (decide (x = y)) as [->|Hxy].
      { by rewrite lookup_insert_eq, Hny. }
      by rewrite lookup_insert_ne.
    + intros x Hx. destruct (decide (x = v)) as [->|Hxv].
      { by rewrite lookup_insert_eq, Hv. }
      rewrite lookup_insert_ne by done.
      destruct (decide (x = y)) as [->|Hxy].
      { by rewrite lookup_insert_eq, Hny. }
      by rewrite lookup_insert_ne.
    + intros x Hx. rewrite !lookup_insert_ne; [done| |].
      * intros <-. apply Hx. right. right. by eapply list_elem_of_lookup_2.
      * intros <-. apply Hx. right. left.
Qed.

Lemma lookup_dom_eq (h h' : store) :
  (forall x, payload <$> h' !! x = payload <$> h !! x) -> dom h' = dom h.
Proof.
  intros H. apply set_eq. intros x. rewrite !elem_of_dom.
  specialize (H x). destruct (h !! x), (h' !! x); try done; split; by eauto.
Qed.

(** X19: [sJSONaddItemToArray] appends: on a node whose children are the chain
    [l], adding a node that is in no chain makes the children [l] followed by
    that node; the size grows by one and the node is the item at the last
    index; no node is allocated or freed, no node changes in anything but its
    links, and the nodes outside the chain are as they were.  Adding the null
    pointer changes nothing. *)
Theorem addItemToArray_appends (h : store) (a : loc) (l : list loc) (v : loc) :
  is_chain h a l -> detached h v -> v ∉ l -> v <> a ->
  (exists h',
     sJSONaddItemToArray h (Some a) (Some v) = Ok h'
     /\ is_chain h' a (l ++ [v])
     /\ sJSONgetArraySize h' (Some a) = Ok (Z.of_nat (length l) + 1)
     /\ sJSONgetArrayItem h' (Some a) (Z.of_nat (length l)) = Ok (Some v)
     /\ dom h' = dom h
     /\ (forall x, payload <$> h' !! x = payload <$> h !! x)
     /\ (forall x, x ∉ a :: v :: l -> h' !! x = h !! x))
  /\ sJSONaddItemToArray h (Some a) None = Ok h.
Proof.
  intros Hc Hv Hvl Hva. split.
  - destruct (add_array_chain h a l v Hc Hv Hvl Hva) as (h' & Hadd & Hc' & Hp & _ & Hf).
    exists h'. split; [done|]. split; [done|].
    split; [|split; [|split; [by apply lookup_dom_eq|done]]].
    + rewrite (array_size_chain _ _ _ Hc'). f_equal. rewrite length_app. simpl. lia.
    + rewrite (array_item_chain _ _ _ _ Hc'). rewrite Nat2Z.id.
      by rewrite list_lookup_middle.
  - destruct Hc as [(A & HA & _) _]. unfold sJSONaddItemToArray, deref. by rewrite HA.
Qed.

(** ** Detaching *)

(** X20: the edges of [sJSONdetachItemFromArray]: with an index at or beyond
    the number of children nothing is detached, the call returns null and
    the memory is as it was; with an index that is negative the first child
    is detached, as with index 0. *)
Theorem detachItemFromArray_bounds (h : store) (a : loc) (l : list loc) (which : Z) :
  is_chain h a l ->
  (Z.of_nat (length l) <= which -> sJSONdetachItemFromArray h (Some a) which = Ok (None, h))
  /\ (which <= 0 -> forall c, head l = Some c ->
        exists h', sJSONdetachItemFromArray h (Some a) which = Ok (Some c, h')
                   /\ is_chain h' a (tail l)
                   /\ sJSONgetArraySize h' (Some a) = Ok (Z.of_nat (length l) - 1)).
Proof.
  intros Hc. split.
  - intros Hw. destruct Hc as [(A & HA & Hd) _].
    destruct (dll_lookup _ _ _ _ Hd) as [Hhd Hall].
    unfold sJSONdetachItemFromArray, deref. rewrite HA. cbn [rbind].
    rewrite Hhd, head_lookup, (walk_lookup h l None Hall _ O). cbn [rbind].
    rewrite (proj2 (lookup_ge_None l (0 + Z.to_nat which)%nat)) by lia. done.
  - intros Hw c Hhead. rewrite head_lookup in Hhead.
    destruct (detach_index h a l O c Hc Hhead) as (h' & Hr & Hc' & _).
    exists h'. split; [|split].
    + unfold sJSONdetachItemFromArray in *.
      by replace (Z.to_nat which) with (Z.to_nat (Z.of_nat 0)) by lia.
    + by destruct l.
    + rewrite (array_size_chain _ _ _ Hc'). f_equal.
      destruct l as [|c0 l]; [done|]. cbn [delete list_delete length]. lia.
Qed.

Lemma NoDup_delete_lookup (l : list loc) i c :
  NoDup l -> l !! i = Some c -> c ∉ delete i l.
Proof.
  intros Hnd Hi Hin. apply list_elem_of_lookup in Hin as [j Hj].
  destruct (decide (j < i)%nat).
  - rewrite list_lookup_delete_lt in Hj by done.
    pose proof (NoDup_lookup _ _ _ _ Hnd Hi Hj). lia.
  - rewrite list_lookup_delete_ge in Hj by lia.
    pose proof (NoDup_lookup _ _ _ _ Hnd Hi Hj). lia.
Qed.

(** X21: a node that was detached can be added again: detaching the child at
    an index and adding it to the same node moves it to the end of the
    chain; the other children keep their order, no node is allocated or
    freed, and no name hash changes. *)
Theorem detach_then_add (h : store) (a : loc) (l : list loc) (i : nat) (c : loc) :
  is_chain h a l -> l !! i = Some c ->
  exists h1 h2,
    sJSONdetachItemFromArray h (Some a) (Z.of_nat i) = Ok (Some c, h1)
    /\ sJSONaddItemToArray h1 (Some a) (Some c) = Ok h2
    /\ is_chain h2 a (delete i l ++ [c])
    /\ sJSONgetArraySize h2 (Some a) = Ok (Z.of_nat (length l))
    /\ dom h2 = dom h
    /\ (forall x, hash_at h2 x = hash_at h x).
Proof.
  intros Hc Hi.
  destruct (detach_index h a l i c Hc Hi) as (h1 & Hr & Hc1 & (n & Hn & Hn1) & _ & Hh1 & Hd1).
  assert (detached h1 c) as Hdet by (by eexists).
  assert (c ∉ delete i l) as Hnin by (apply NoDup_delete_lookup; [apply Hc|done]).
  assert (c <> a) as Hca.
  { intros ->. destruct Hc as (_ & _ & Ha). apply Ha. by eapply list_elem_of_lookup_2. }
  destruct (add_array_chain h1 a _ c Hc1 Hdet Hnin Hca) as (h2 & Hadd & Hc2 & Hp & _).
  exists h1, h2. split; [done|]. split; [done|]. split; [done|].
  split; [|split].
  - rewrite (array_size_chain _ _ _ Hc2). f_equal.
    rewrite length_app, length_delete by eauto. simpl.
    apply lookup_lt_Some in Hi. lia.
  - by rewrite (lookup_dom_eq _ _ Hp).
  - intros x. rewrite <- Hh1. unfold hash_at. specialize (Hp x).
    destruct (h2 !! x) as [n2|], (h1 !! x) as [n1'|]; try done.
    simpl in *. unfold payload in Hp. by inversion Hp.
Qed.

Section DetachKey.
Context `{libc : Externals}.

(** X22: [sJSONdetachItemFromObject] detaches the first child, in the order of
    the chain, that carries the hash of the key, and leaves later children
    with the same hash where they are; when no child carries the hash it
    returns null and the memory is as it was. *)
Theorem detachItemFromObject_first_match (h : store) (o : loc) (l : list loc)
    (k : list Z) :
  is_chain h o l ->
  (forall (d : nat) x, l !! d = Some x -> hash_at h x = Some (murmurString k) ->
     (forall j y, (j < d)%nat -> l !! j = Some y -> hash_at h y <> Some (murmurString k)) ->
     exists h',
       sJSONdetachItemFromObject h (Some o) k = Ok (Some x, h')
       /\ is_chain h' o (delete d l)
       /\ (forall y, hash_at h' y = hash_at h y)
       /\ dom h' = dom h)
  /\ ((forall y, y ∈ l -> hash_at h y <> Some (murmurString k)) ->
      sJSONdetachItemFromObject h (Some o) k = Ok (None, h)).
Proof.
  intros Hc. split.
  - intros d x Hd Hx Hmin.
    destruct (find_chain_hit h o l _ d x Hc Hd Hx Hmin) as (A & HA & Hfind).
    destruct (detach_index h o l d x Hc Hd) as (h' & Hr & Hc' & _ & _ & Hh & Hdom).
    exists h'. split; [|done].
    unfold sJSONdetachItemFromObject, deref. rewrite HA. cbn [rbind].
    rewrite Hfind. cbn [rbind fst snd]. exact Hr.
  - intros Hnone. pose proof (chain_steps _ _ _ Hc) as Hs.
    destruct Hc as [(A & HA & Hdl) _].
    destruct (dll_lookup _ _ _ _ Hdl) as [Hhd Hall].
    unfold sJSONdetachItemFromObject, deref. rewrite HA. cbn [rbind].
    rewrite Hhd, head_lookup.
    destruct (find_miss h l None Hall (steps h) (murmurString k) O 0) as [r Hr].
    + unfold steps. lia.
    + intros j y _ Hj. apply Hnone. by eapply list_elem_of_lookup_2.
    + by rewrite Hr.
Qed.

End DetachKey.

(** ** Deleting *)

Lemma delete_chain_subseteq k : forall (h : store) c h',
  delete_chain k h c = Ok h' -> h' ⊆ h.
Proof.
  induction k as [|k IH]; intros h c h' H.
  { destruct c; [done|]. by inversion H. }
  destruct c as [x|]; [|by inversion H]. cbn [delete_chain] in H.
  destruct (deref h (Some x)) as [n| | |]; try done. cbn [rbind] in H.
  destruct (if (Z.land (type n) sJSON_IsReference =? 0) && bool_decide (child n <> None)
            then delete_chain k h (child n) else Ok h) as [h1| | |] eqn:E1; try done.
  cbn [rbind] in H.
  assert (h1 ⊆ h) as S1.
  { destruct (_ && _); [by eapply IH|by inversion E1]. }
  unfold free in H. destruct (h1 !! x) as [nx|]; [|done]. cbn [rbind] in H.
  apply IH in H. etrans; [exact H|]. etrans; [apply delete_subseteq|done].
Qed.

Lemma delete_chain_freed k : forall (h : store) x h',
  delete_chain k h (Some x) = Ok h' -> h' !! x = None.
Proof.
  intros h x h' H. destruct k as [|k]; [done|]. cbn [delete_chain] in H.
  destruct (deref h (Some x)) as [n| | |]; try done. cbn [rbind] in H.
  destruct (if (Z.land (type n) sJSON_IsReference =? 0) && bool_decide (child n <> None)
            then delete_chain k h (child n) else Ok h) as [h1| | |] eqn:E1; try done.
  cbn [rbind] in H.
  unfold free in H. destruct (h1 !! x) as [nx|]; [|done]. cbn [rbind] in H.
  apply delete_chain_subseteq in H.
  eapply lookup_weaken_None; [|exact H]. apply lookup_delete_eq.
Qed.

(** a chain depends on its nodes only *)
Lemma dll_frame (h h' : store) l : forall p q,
  (forall x, x ∈ l -> h' !! x = h !! x) -> dll h p q l -> dll h' p q l.
Proof.
  induction l as [|x l IH]; intros p q Hf Hd; [done|].
  destruct Hd as (-> & n & Hn & Hq & Hd). split; [done|].
  exists n. split; [rewrite Hf; [done|left]|]. split; [done|].
  apply IH; [|done]. intros y Hy. apply Hf. by right.
Qed.

(** the loop of [sJSONdelete] along a chain of nodes none of which it
    descends into *)
Lemma delete_leaves l : forall k (h : store) p q,
  dll h p q l -> NoDup l -> (length l < k)%nat ->
  (forall c, c ∈ l -> exists m, h !! c = Some m /\ leaf m) ->
  exists h', delete_chain k h p = Ok h'
             /\ forall y, h' !! y = if decide (y ∈ l) then None else h !! y.
Proof.
  induction l as [|x l IH]; intros k h p q Hd Hnd Hk Hleaf.
  { simpl in Hd. subst p. exists h. split; [by destruct k|].
    intros y. rewrite decide_False; [done|]. apply not_elem_of_nil. }
  destruct Hd as (-> & n & Hn & Hq & Hd).
  destruct k as [|k]; [simpl in Hk; lia|]. cbn [delete_chain deref]. rewrite Hn. cbn [rbind].
  destruct (Hleaf x) as (m & Hm & Hl); [left|]. assert (m = n) as -> by congruence.
  assert ((Z.land (type n) sJSON_IsReference =? 0) && bool_decide (child n <> None) = false)
    as ->.
  { destruct Hl as [Hl|Hl].
    - rewrite Hl. rewrite bool_decide_false by (intros H; by apply H). apply andb_false_r.
    - apply andb_false_iff. left. by apply Z.eqb_neq. }
  cbn [rbind]. unfold free. rewrite Hn. cbn [rbind].
  apply NoDup_cons in Hnd as [Hx Hnd].
  destruct (IH k (delete x h) (next n) (Some x)) as (h' & Hr & Hh'); try done.
  - apply (dll_frame h); [|done]. intros y Hy. rewrite lookup_delete_ne; [done|].
    by intros <-.
  - simpl in Hk. lia.
  - intros c Hc. destruct (Hleaf c) as (m & Hm' & Hl'); [by right|].
    exists m. split; [|done]. rewrite lookup_delete_ne; [done|]. by intros <-.
  - exists h'. split; [done|]. intros y. rewrite Hh'.
    destruct (decide (y = x)) as [->|Hyx].
    + rewrite (decide_True (P := x ∈ x :: l)) by left.
      case_decide; [done|]. apply lookup_delete_eq.
    + rewrite lookup_delete_ne by done.
      destruct (decide (y ∈ l)) as [Hy|Hy].
      * by rewrite decide_True by (by right).
      * rewrite decide_False; [done|]. intros Hin. apply elem_of_cons in Hin as [?|?]; done.
Qed.

(** X23: [sJSONdelete] only frees: when it returns, the node it was given is
    no longer allocated, and every node that still is allocated is as it was
    before the call. On an array or object that has no sibling behind it
    and whose children have no children of their own, or are references,
    it returns, and it has freed the node and its children and nothing
    else. *)
Theorem sJSONdelete_frees (h : store) (x : loc) :
  (forall h', sJSONdelete h (Some x) = Ok h' ->
     h' !! x = None /\ forall y n, h' !! y = Some n -> h !! y = Some n)
  /\ (forall l n,
        is_chain h x l -> h !! x = Some n -> next n = None ->
        Z.land (type n) sJSON_IsReference = 0 ->
        (forall c, c ∈ l -> exists m, h !! c = Some m /\ leaf m) ->
        exists h', sJSONdelete h (Some x) = Ok h'
                   /\ forall y, h' !! y = if decide (y ∈ x :: l) then None else h !! y).
Proof.
  split.
  - unfold sJSONdelete. intros h' H. split; [by eapply delete_chain_freed|].
    intros y n Hy. eapply lookup_weaken; [exact Hy|by eapply delete_chain_subseteq].
  - intros l n Hc Hn Hnext Hty Hleaf.
    assert (length (x :: l) <= size h)%nat as Hlen.
    { destruct Hc as (_ & Hnd & Hx). apply chain_length.
      - by apply NoDup_cons.
      - intros y Hy. apply elem_of_cons in Hy as [->|Hy]; [eauto|].
        destruct (Hleaf y Hy) as (m & Hm & _). eauto. }
    destruct Hc as ((n' & Hn' & Hd) & Hnd & Hx). assert (n' = n) as -> by congruence.
    destruct (delete_leaves l (size h) h (child n) None Hd Hnd) as (h1 & Hr & Hh1);
      [simpl in Hlen; lia|done|].
    assert (h1 !! x = Some n) as Hx1 by (rewrite Hh1; by rewrite decide_False).
    exists (delete x h1). split.
    + unfold sJSONdelete, steps. cbn [delete_chain deref]. rewrite Hn. cbn [rbind].
      rewrite Hty. cbn [Z.eqb andb].
      assert ((if bool_decide (child n <> None)
               then delete_chain (size h) h (child n) else Ok h) = Ok h1) as ->.
      { case_bool_decide as E; [done|].
        rewrite E in Hr. destruct (size h); by inversion Hr. }
      cbn [rbind]. unfold free. rewrite Hx1. cbn [rbind]. rewrite Hnext.
      by destruct (size h).
    + intros y. destruct (decide (y = x)) as [->|Hyx].
      * rewrite lookup_delete_eq. by rewrite decide_True by left.
      * rewrite lookup_delete_ne by done. rewrite Hh1.
        destruct (decide (y ∈ l)) as [Hy|Hy].
        -- by rewrite decide_True by (by right).
        -- rewrite decide_False; [done|]. intros Hin.
           apply elem_of_cons in Hin as [?|?]; done.
Qed.

Lemma delete_leaf (h : store) c n :
  h !! c = Some n -> leaf n -> next n = None ->
  sJSONdelete h (Some c) = Ok (delete c h).
Proof.
  intros Hc Hleaf Hnext. unfold sJSONdelete, steps. cbn [delete_chain deref].
  rewrite Hc. cbn [rbind].
  assert ((Z.land (type n) sJSON_IsReference =? 0) && bool_decide (child n <> None) = false)
    as ->.
  { destruct Hleaf as [Hl|Hl].
    - rewrite Hl. rewrite bool_decide_false by (intros H; by apply H). apply andb_false_r.
    - apply andb_false_iff. left. by apply Z.eqb_neq. }
  cbn [rbind]. unfold free. rewrite Hc. cbn [rbind]. rewrite Hnext.
  by destruct (size h).
Qed.

(** a chain depends on its nodes only *)
Lemma is_chain_frame (h h' : store) a l :
  is_chain h a l -> (forall x, x ∈ a :: l -> h' !! x = h !! x) -> is_chain h' a l.
Proof.
  intros [(A & HA & Hd) [Hnd Ha]] Hf.
  destruct (dll_lookup _ _ _ _ Hd) as [Hhd Hall].
  split; [|done]. exists A. split; [rewrite Hf; [done|left]|].
  apply lookup_dll; [done|]. intros i x Hi.
  destruct (Hall i x Hi) as (n & Hn & Hnx). exists n. split; [|done].
  rewrite Hf; [done|]. right. by eapply list_elem_of_lookup_2.
Qed.

Lemma fresh_unused (h : store) : h !! fresh (dom h) = None.
Proof. apply not_elem_of_dom. apply is_fresh. Qed.

Lemma reference_is_leaf n : leaf (reference_node n).
Proof.
  right. unfold reference_node. cbn [type].
  rewrite Z.land_lor_distr_l. change (Z.land sJSON_IsReference sJSON_IsReference) with 256.
  intros H. apply Z.lor_eq_0_iff in H as [_ H]. done.
Qed.

Section References.
Context `{libc : Externals}.

Lemma create_reference_fresh (h : store) item n :
  h !! item = Some n ->
  create_reference h (Some item)
  = Ok (Some (fresh (dom h)), <[fresh (dom h) := reference_node n]> h).
Proof.
  intros Hn. unfold create_reference, Chain.sJSON_New_Item, deref. rewrite Hn.
  cbn [rbind]. by rewrite insert_insert_eq.
Qed.

(** X24: making a reference and deleting it leaves the memory as it was:
    [create_reference] allocates one node, a copy of the item with the
    reference flag, without name and siblings, and changes no other node;
    [sJSONdelete] on that node frees it alone, so the item and the children it
    shares with the reference stay. *)
Theorem reference_round_trip (h : store) (item : loc) (n : node) :
  h !! item = Some n ->
  exists r h1,
    create_reference h (Some item) = Ok (Some r, h1)
    /\ h !! r = None
    /\ h1 !! r = Some (reference_node n)
    /\ (forall x, x <> r -> h1 !! x = h !! x)
    /\ sJSONdelete h1 (Some r) = Ok h.
Proof.
  intros Hn. exists (fresh (dom h)), (<[fresh (dom h) := reference_node n]> h).
  pose proof (fresh_unused h) as Hf.
  split; [by apply create_reference_fresh|]. split; [done|].
  split; [by rewrite lookup_insert_eq|]. split; [by intros x Hx; rewrite lookup_insert_ne|].
  rewrite (delete_leaf _ _ (reference_node n)).
  - by rewrite delete_insert_id.
  - by rewrite lookup_insert_eq.
  - apply reference_is_leaf.
  - done.
Qed.

(** X25: [sJSONaddItemReferenceToArray] appends a new node to the chain, a
    reference to the item: it shares the child of the item and carries its
    values; no node that was allocated before changes in anything but its
    links. *)
Theorem addItemReferenceToArray_appends (h : store) (a : loc) (l : list loc)
    (item : loc) (n : node) :
  is_chain h a l -> h !! item = Some n ->
  exists r h',
    sJSONaddItemReferenceToArray h (Some a) (Some item) = Ok h'
    /\ h !! r = None
    /\ is_chain h' a (l ++ [r])
    /\ payload <$> h' !! r = Some (payload (reference_node n))
    /\ child <$> h' !! r = Some (child n)
    /\ (forall x, x <> r -> payload <$> h' !! x = payload <$> h !! x).
Proof.
  intros Hc Hn. set (r := fresh (dom h)).
  pose proof (fresh_unused h) as Hf. fold r in Hf.
  set (h1 := <[r := reference_node n]> h).
  assert (forall x, x ∈ a :: l -> x <> r) as Hold.
  { intros x Hx ->. apply elem_of_cons in Hx as [->|Hx].
    - destruct Hc as [(A & HA & _) _]. congruence.
    - destruct (chain_allocated _ _ _ _ Hc Hx). congruence. }
  assert (is_chain h1 a l) as Hc1.
  { apply (is_chain_frame h); [done|]. intros x Hx. unfold h1.
    rewrite lookup_insert_ne; [done|]. intros <-. by apply (Hold r). }
  assert (detached h1 r) as Hdet.
  { exists (reference_node n). unfold h1. by rewrite lookup_insert_eq. }
  assert (r ∉ l) as Hrl by (intros Hin; apply (Hold r); [by right|done]).
  assert (r <> a) as Hra by (intros ->; apply (Hold a); [left|done]).
  destruct (add_array_chain h1 a l r Hc1 Hdet Hrl Hra) as (h' & Hadd & Hc' & Hp & Hch & _).
  exists r, h'. split; [|split; [done|split; [done|split; [|split]]]].
  - unfold sJSONaddItemReferenceToArray. rewrite (create_reference_fresh _ _ _ Hn).
    cbn [rbind fst snd]. exact Hadd.
  - rewrite Hp. unfold h1. by rewrite lookup_insert_eq.
  - rewrite Hch by done. unfold h1. by rewrite lookup_insert_eq.
  - intros x Hx. rewrite Hp. unfold h1. by rewrite lookup_insert_ne.
Qed.

(** X26: [sJSONdeleteItemFromArray] on the index of a child that has no
    children of its own, or is a reference, takes the child out of the chain
    and frees it: the other children stay, in their order, and no node
    outside the chain changes. *)
Theorem deleteItemFromArray_leaf (h : store) (a : loc) (l : list loc) (i : nat)
    (c : loc) (n : node) :
  is_chain h a l -> l !! i = Some c -> h !! c = Some n -> leaf n ->
  exists h',
    sJSONdeleteItemFromArray h (Some a) (Z.of_nat i) = Ok h'
    /\ is_chain h' a (delete i l)
    /\ h' !! c = None
    /\ sJSONgetArraySize h' (Some a) = Ok (Z.of_nat (length l) - 1)
    /\ (forall x, x ∉ a :: l -> h' !! x = h !! x).
Proof.
  intros Hc Hi Hn Hleaf.
  destruct (detach_index h a l i c Hc Hi)
    as (h1 & Hr & Hc1 & (n0 & Hn0 & Hn1) & Hf1 & _ & _).
  assert (n0 = n) as -> by congruence.
  assert (c ∉ delete i l) as Hnin by (apply NoDup_delete_lookup; [apply Hc|done]).
  assert (c <> a) as Hca.
  { intros ->. destruct Hc as (_ & _ & Ha). apply Ha. by eapply list_elem_of_lookup_2. }
  exists (delete c h1). split; [|split; [|split; [|split]]].
  - unfold sJSONdeleteItemFromArray. rewrite Hr. cbn [rbind fst snd].
    apply (delete_leaf _ _ _ Hn1); [|done].
    destruct Hleaf as [Hl|Hl]; [by left|by right].
  - apply (is_chain_frame h1); [done|]. intros x Hx.
    rewrite lookup_delete_ne; [done|]. intros <-.
    apply elem_of_cons in Hx as [->|Hx]; done.
  - apply lookup_delete_eq.
  - assert (is_chain (delete c h1) a (delete i l)) as Hc'.
    { apply (is_chain_frame h1); [done|]. intros x Hx.
      rewrite lookup_delete_ne; [done|]. intros <-.
      apply elem_of_cons in Hx as [->|Hx]; done. }
    rewrite (array_size_chain _ _ _ Hc'). f_equal.
    rewrite length_delete by eauto. apply lookup_lt_Some in Hi. lia.
  - intros x Hx. rewrite lookup_delete_ne; [by apply Hf1|].
    intros <-. apply Hx. right. by eapply list_elem_of_lookup_2.
Qed.

End References.

(** ** The constructors of arrays *)

(** the step of the loop of the constructors is [sJSONaddItemToArray] *)
Lemma add_as_loop (h : store) a l n :
  is_chain h a l ->
  match length l with
  | O => update h (Some a) (set_child (Some n))
  | S _ => suffix_object h (last l) (Some n)
  end = sJSONaddItemToArray h (Some a) (Some n).
Proof.
  intros Hc. pose proof (chain_steps _ _ _ Hc) as Hs.
  destruct Hc as [(A & HA & Hd) _].
  destruct (dll_lookup _ _ _ _ Hd) as [Hhd Hall].
  unfold sJSONaddItemToArray, deref. rewrite HA. cbn [rbind].
  destruct l as [|z l]; [by simpl in Hhd; rewrite Hhd|].
  rewrite Hhd. cbn [head length].
  change (Some z) with ((z :: l) !! O).
  cbn [length] in Hs.
  rewrite (last_lookup h (z :: l) None Hall); cbn [length]; [|unfold steps; lia|lia].
  cbn [rbind]. rewrite list.last_lookup. cbn [length Init.Nat.pred].
  by replace (S (length l) - 1)%nat with (length l) by lia.
Qed.

Lemma allocates_fresh {A} (mk : store -> A -> ptr * store) node_of (h : store) x :
  allocates mk node_of ->
  mk h x = (Some (fresh (dom h)), <[fresh (dom h) := node_of x]> h)
  /\ detached (<[fresh (dom h) := node_of x]> h) (fresh (dom h)).
Proof.
  intros Hmk. destruct (Hmk h x) as (E & Hn & Hp). split; [done|].
  exists (node_of x). by rewrite lookup_insert_eq.
Qed.

Section Fill.
Context {A : Type} (mk : store -> A -> ptr * store) (node_of : A -> node).
Context (Hmk : allocates mk node_of) (numbers : list A) (h0 : store) (a : loc).

Lemma filled_length h l : filled node_of numbers h0 a h l -> (length l <= length numbers)%nat.
Proof.
  intros (_ & _ & _ & Hval & _). destruct (decide (l = [])) as [->|Hne]; [simpl; lia|].
  assert (is_Some (l !! (length l - 1)%nat)) as [x Hx].
  { apply lookup_lt_is_Some. destruct l; [done|simpl; lia]. }
  destruct (Hval _ _ Hx) as (v & Hv & _). apply lookup_lt_Some in Hv. lia.
Qed.

Lemma fill_array_chain k : forall h l,
  filled node_of numbers h0 a h l ->
  ((length l + k <= length numbers)%nat ->
   exists h' l',
     fill_array mk k (length l) numbers h (Some a) (last l) = Ok h'
     /\ filled node_of numbers h0 a h' l' /\ length l' = (length l + k)%nat)
  /\ ((length numbers < length l + k)%nat ->
      fill_array mk k (length l) numbers h (Some a) (last l) = Fault OutOfBounds).
Proof.
  induction k as [|k IH]; intros h l Hfill.
  { pose proof (filled_length h l Hfill). split; [|lia].
    intros _. exists h, l. split; [done|]. split; [done|lia]. }
  cbn [fill_array].
  destruct (numbers !! length l) as [v|] eqn:Ev.
  2:{ apply lookup_ge_None in Ev. split; [lia|done]. }
  pose proof (lookup_lt_Some _ _ _ Ev) as Hlt.
  destruct Hfill as (Hc & Hnew & Hold & Hval & Hty).
  set (r := fresh (dom h)).
  pose proof (fresh_unused h) as Hr. fold r in Hr.
  destruct (allocates_fresh mk node_of h v Hmk) as [-> Hdet]. fold r in Hdet |- *.
  set (h1 := <[r := node_of v]> h) in *.
  assert (forall x, x ∈ a :: l -> x <> r) as Hne.
  { intros x Hx ->. apply elem_of_cons in Hx as [->|Hx].
    - destruct Hc as [(A0 & HA & _) _]. congruence.
    - destruct (chain_allocated _ _ _ _ Hc Hx). congruence. }
  assert (is_chain h1 a l) as Hc1.
  { apply (is_chain_frame h); [done|]. intros x Hx. unfold h1.
    rewrite lookup_insert_ne; [done|]. intros <-. by apply (Hne r). }
  assert (r ∉ l) as Hrl by (intros Hin; apply (Hne r); [by right|done]).
  assert (r <> a) as Hra by (intros ->; apply (Hne a); [left|done]).
  pose proof (add_as_loop h1 a l r Hc1) as Hstep.
  destruct (add_array_chain h1 a l r Hc1 Hdet Hrl Hra) as (h2 & Hadd & Hc2 & Hp & _ & Hf).
  assert (match length l with
          | O => update h1 (Some a) (set_child (Some r))
          | S _ => suffix_object h1 (last l) (Some r)
          end = Ok h2) as -> by (by rewrite Hstep).
  cbn [rbind].
  assert (h0 !! r = None) as Hr0.
  { destruct (h0 !! r) eqn:E; [|done]. rewrite <- (Hold r) in E by eauto. congruence. }
  assert (filled node_of numbers h0 a h2 (l ++ [r])) as Hfill2.
  { split; [done|]. split; [|split; [|split]].
    - intros x Hx. rewrite app_comm_cons in Hx. apply elem_of_app in Hx as [Hx|Hx].
      + by apply Hnew.
      + apply list_elem_of_singleton in Hx. by subst.
    - intros x Hx. rewrite Hf.
      + unfold h1. rewrite lookup_insert_ne; [by apply Hold|].
        intros <-. rewrite Hr0 in Hx. by destruct Hx.
      + intros Hin. apply elem_of_cons in Hin as [->|Hin].
        { rewrite (Hnew a) in Hx by left. by destruct Hx. }
        apply elem_of_cons in Hin as [->|Hin].
        { rewrite Hr0 in Hx. by destruct Hx. }
        rewrite (Hnew x) in Hx by (by right). by destruct Hx.
    - intros j x Hj. destruct (decide (j < length l)%nat) as [Hjl|Hjl].
      + rewrite lookup_app_l in Hj by done.
        destruct (Hval j x Hj) as (w & Hw & Hpw). exists w. split; [done|].
        rewrite Hp. unfold h1. rewrite lookup_insert_ne; [done|].
        intros <-. apply Hrl. by eapply list_elem_of_lookup_2.
      + assert (j = length l) as ->.
        { apply lookup_lt_Some in Hj. rewrite length_app in Hj. simpl in Hj. lia. }
        rewrite list_lookup_middle in Hj by done. inversion Hj; subst x.
        exists v. split; [done|]. rewrite Hp. unfold h1. by rewrite lookup_insert_eq.
    - assert (type <$> h2 !! a = type <$> h1 !! a) as ->.
      { specialize (Hp a). destruct (h2 !! a), (h1 !! a); try done.
        simpl in *. unfold payload in Hp. by inversion Hp. }
      unfold h1. by rewrite lookup_insert_ne. }
  destruct (IH h2 (l ++ [r]) Hfill2) as [IHok IHbad].
  rewrite length_app, last_snoc in *. cbn [length] in *.
  replace (length l + 1)%nat with (S (length l)) in * by lia.
  split.
  - intros Hle. destruct IHok as (h' & l' & E & Hf' & Hl'); [lia|].
    exists h', l'. split; [done|]. split; [done|lia].
  - intros Hgt. apply IHbad. lia.
Qed.

End Fill.

Lemma create_array_chain {A} (mk : store -> A -> ptr * store) (node_of : A -> node)
    (numbers : list A) (h0 : store) (count : Z) :
  allocates mk node_of ->
  (count <= Z.of_nat (length numbers) ->
   exists ar l h',
     create_array mk h0 numbers count = Ok (Some ar, h')
     /\ filled node_of numbers h0 ar h' l /\ length l = Z.to_nat count)
  /\ (Z.of_nat (length numbers) < count ->
      create_array mk h0 numbers count = Fault OutOfBounds).
Proof.
  intros Hmk. unfold create_array, sJSONcreateArray, create_kind, Chain.sJSON_New_Item.
  set (ar := fresh (dom h0)). rewrite insert_insert_eq.
  set (h := <[ar := mk_node None None None sJSON_Array None 0 0%float None 0]> h0).
  pose proof (fresh_unused h0) as Har. fold ar in Har.
  assert (filled node_of numbers h0 ar h []) as Hfill.
  { split; [|split; [|split; [|split]]].
    - split; [|split; [apply NoDup_nil_2|apply not_elem_of_nil]].
      eexists. split; [unfold h; by rewrite lookup_insert_eq|]. done.
    - intros x Hx. apply list_elem_of_singleton in Hx. by subst.
    - intros x Hx. unfold h. rewrite lookup_insert_ne; [done|].
      intros <-. rewrite Har in Hx. by destruct Hx.
    - intros j x Hj. done.
    - unfold h. by rewrite lookup_insert_eq. }
  destruct (fill_array_chain mk node_of Hmk numbers h0 ar (Z.to_nat count) h [] Hfill)
    as [Hok Hbad].
  cbn [length last] in Hok, Hbad. split.
  - intros Hle. destruct Hok as (h' & l' & -> & Hf & Hl); [lia|].
    cbn [rbind]. exists ar, l', h'. split; [done|]. split; [done|]. simpl in Hl. lia.
  - intros Hgt. rewrite Hbad by lia. done.
Qed.

Lemma string_allocates : allocates sJSONcreateString string_node.
Proof.
  intros h x. unfold sJSONcreateString, Chain.sJSON_New_Item.
  by rewrite insert_insert_eq.
Qed.

(** X27: [sJSONcreateStringArray] with a count that is not beyond the strings
    given makes a new array whose children are new nodes, one string node
    for each of the first [count] strings, in their order, and changes no
    node that was there before; with a count beyond the strings given it
    reads past them. *)
Theorem createStringArray_reads (h0 : store) (strings : list (list Z)) (count : Z) :
  (count <= Z.of_nat (length strings) ->
   exists ar l h',
     sJSONcreateStringArray h0 strings count = Ok (Some ar, h')
     /\ h0 !! ar = None
     /\ is_chain h' ar l
     /\ sJSONgetArraySize h' (Some ar) = Ok (Z.max 0 count)
     /\ (forall (i : nat) x, l !! i = Some x ->
           exists s n, strings !! i = Some s /\ h' !! x = Some n /\ h0 !! x = None
                       /\ type n = sJSON_String /\ valueString n = Some s)
     /\ (forall x, is_Some (h0 !! x) -> h' !! x = h0 !! x))
  /\ (Z.of_nat (length strings) < count ->
      sJSONcreateStringArray h0 strings count = Fault OutOfBounds).
Proof.
  destruct (create_array_chain sJSONcreateString string_node strings h0 count
              string_allocates) as [Hok Hbad].
  split; [|exact Hbad].
  intros Hle. destruct (Hok Hle) as (ar & l & h' & E & (Hc & Hnew & Hold & Hval & _) & Hl).
  exists ar, l, h'. split; [done|]. split; [apply Hnew; left|]. split; [done|].
  split; [|split; [|done]].
  - rewrite (array_size_chain _ _ _ Hc). f_equal. lia.
  - intros i x Hi. destruct (Hval i x Hi) as (s & Hs & Hp).
    destruct (h' !! x) as [n|] eqn:En; [|done].
    exists s, n. split; [done|]. split; [done|].
    split; [apply Hnew; right; by eapply list_elem_of_lookup_2|].
    simpl in Hp. unfold payload in Hp. by inversion Hp.
Qed.

Section NumberArrays.
Context `{libc : Externals}.

Lemma number_allocates : allocates sJSONcreateNumber double_node.
Proof.
  intros h x. unfold sJSONcreateNumber, Chain.sJSON_New_Item.
  by rewrite insert_insert_eq.
Qed.

Lemma int_allocates :
  allocates (fun h z => sJSONcreateNumber h (double_of_int z))
            (fun z => double_node (double_of_int z)).
Proof. intros h x. apply number_allocates. Qed.

(** X28: [sJSONcreateDoubleArray] and [sJSONcreateIntArray] with a count that
    is not beyond the numbers given make a new array whose children are new
    nodes, one number node for each of the first [count] numbers, in their
    order, with the number as its double and the conversion of that double
    to [int] as its integer; no node that was there before changes. *)
Theorem createNumberArray_reads (h0 : store) (doubles : list float) (ints : list Z)
    (count : Z) :
  (count <= Z.of_nat (length doubles) ->
   exists ar l h',
     sJSONcreateDoubleArray h0 doubles count = Ok (Some ar, h')
     /\ h0 !! ar = None
     /\ is_chain h' ar l
     /\ sJSONgetArraySize h' (Some ar) = Ok (Z.max 0 count)
     /\ (forall (i : nat) x, l !! i = Some x ->
           exists d n, doubles !! i = Some d /\ h' !! x = Some n /\ h0 !! x = None
                       /\ type n = sJSON_Number /\ valueDouble n = d
                       /\ valueInt n = double_to_int d)
     /\ (forall x, is_Some (h0 !! x) -> h' !! x = h0 !! x))
  /\ (count <= Z.of_nat (length ints) ->
      exists ar l h',
        sJSONcreateIntArray h0 ints count = Ok (Some ar, h')
        /\ h0 !! ar = None
        /\ is_chain h' ar l
        /\ sJSONgetArraySize h' (Some ar) = Ok (Z.max 0 count)
        /\ (forall (i : nat) x, l !! i = Some x ->
              exists z n, ints !! i = Some z /\ h' !! x = Some n /\ h0 !! x = None
                          /\ type n = sJSON_Number /\ valueDouble n = double_of_int z
                          /\ valueInt n = double_to_int (double_of_int z))
        /\ (forall x, is_Some (h0 !! x) -> h' !! x = h0 !! x)).
Proof.
  split.
  - intros Hle.
    destruct (create_array_chain sJSONcreateNumber double_node doubles h0 count
                number_allocates) as [Hok _].
    destruct (Hok Hle) as (ar & l & h' & E & (Hc & Hnew & Hold & Hval & _) & Hl).
    exists ar, l, h'. split; [done|]. split; [apply Hnew; left|]. split; [done|].
    split; [|split; [|done]].
    + rewrite (array_size_chain _ _ _ Hc). f_equal. lia.
    + intros i x Hi. destruct (Hval i x Hi) as (d & Hd & Hp).
      destruct (h' !! x) as [n|] eqn:En; [|done].
      exists d, n. split; [done|]. split; [done|].
      split; [apply Hnew; right; by eapply list_elem_of_lookup_2|].
      simpl in Hp. unfold payload in Hp. by inversion Hp.
  - intros Hle.
    destruct (create_array_chain (fun h z => sJSONcreateNumber h (double_of_int z))
                (fun z => double_node (double_of_int z)) ints h0 count
                int_allocates) as [Hok _].
    destruct (Hok Hle) as (ar & l & h' & E & (Hc & Hnew & Hold & Hval & _) & Hl).
    exists ar, l, h'. split; [done|]. split; [apply Hnew; left|]. split; [done|].
    split; [|split; [|done]].
    + rewrite (array_size_chain _ _ _ Hc). f_equal. lia.
    + intros i x Hi. destruct (Hval i x Hi) as (z & Hz & Hp).
      destruct (h' !! x) as [n|] eqn:En; [|done].
      exists z, n. split; [done|]. split; [done|].
      split; [apply Hnew; right; by eapply list_elem_of_lookup_2|].
      simpl in Hp. unfold payload in Hp. by inversion Hp.
Qed.

End NumberArrays.

(** ** Replacing a child *)

Lemma NoDup_insert_fresh (l : list loc) (i : nat) (v : loc) :
  NoDup l -> v ∉ l -> NoDup (<[i := v]> l).
Proof.
  intros Hnd Hv. apply NoDup_alt. intros j k x Hj Hk.
  apply list_lookup_insert_Some in Hj as [(-> & -> & _)|[Hj1 Hj2]];
    apply list_lookup_insert_Some in Hk as [(<- & Hk & _)|[Hk1 Hk2]]; try done.
  - exfalso. apply Hv. by eapply list_elem_of_lookup_2.
  - exfalso. apply Hv. subst. by eapply list_elem_of_lookup_2.
  - by eapply NoDup_lookup.
Qed.

Lemma replace_index (h : store) (a : loc) (l : list loc) (v : loc) (nv : node)
    (i : nat) (c : loc) (nc : node) :
  is_chain h a l -> h !! v = Some nv -> v ∉ a :: l ->
  l !! i = Some c -> h !! c = Some nc -> leaf nc ->
  exists h',
    sJSONreplaceItemInArray h (Some a) (Z.of_nat i) (Some v) = Ok h'
    /\ is_chain h' a (<[i := v]> l)
    /\ h' !! c = None
    /\ payload <$> h' !! v = Some (payload nv)
    /\ child <$> h' !! v = Some (child nv)
    /\ (forall x, x ∉ v :: a :: l -> h' !! x = h !! x).
Proof.
  intros [(A & HA & Hd) [Hnd Ha]] Hv Hvn Hc Hnc0 Hleaf.
  destruct (dll_lookup _ _ _ _ Hd) as [Hhd Hall].
  assert (v <> a) as Hva by (intros ->; apply Hvn; left).
  assert (v ∉ l) as Hvl by (intros Hin; apply Hvn; by right).
  destruct (Hall i c Hc) as (nc' & Hnc & Hnx & Hpv).
  assert (nc' = nc) as -> by congruence. clear Hnc0.
  assert (Hin : forall j x, l !! j = Some x -> x <> a /\ x <> v).
  { intros j x Hj. split; intros ->; [apply Ha|apply Hvl]; by eapply list_elem_of_lookup_2. }
  destruct (Hin i c Hc) as [Hca Hcv].
  assert (Hpval : forall x, prev nc = Some x -> is_Some (h !! x) /\ x <> c /\ x <> a /\ x <> v
                             /\ exists j, i = S j /\ l !! j = Some x).
  { intros x Hx. rewrite Hpv in Hx. destruct i as [|j]; [done|].
    destruct (Hall j x Hx) as (n & Hn & _). destruct (Hin j x Hx). split; [eauto|].
    split; [|split; [done|split; [done|eauto]]].
    intros ->. pose proof (NoDup_lookup _ _ _ _ Hnd Hx Hc). lia. }
  assert (Hnval : forall x, next nc = Some x -> is_Some (h !! x) /\ x <> c /\ x <> a /\ x <> v
                             /\ l !! S i = Some x).
  { intros x Hx. rewrite Hnx in Hx.
    destruct (Hall (S i) x Hx) as (n & Hn & _). destruct (Hin (S i) x Hx). split; [eauto|].
    split; [|split; [done|split; [done|done]]].
    intros ->. pose proof (NoDup_lookup _ _ _ _ Hnd Hx Hc). lia. }
  set (m := set_prev (prev nc) (set_next (next nc) nv)).
  set (h2 := <[v := m]> h).
  set (h3 := upd h2 (next nc) (set_prev (Some v))).
  set (h4 := if bool_decide (Some c = child A)
             then upd h3 (Some a) (set_child (Some v))
             else upd h3 (prev nc) (set_next (Some v))).
  set (h5 := upd h4 (Some c) (fun n => set_prev None (set_next None n))).
  assert (Hfirst : Some c = child A <-> i = O).
  { rewrite Hhd, head_lookup. split.
    - intros E. symmetry in E. by eapply NoDup_lookup.
    - intros ->. done. }
  assert (H3v : h3 !! v = Some m).
  { unfold h3. rewrite lookup_upd. unfold h2. rewrite lookup_insert_eq.
    case_decide as E; [|done]. by destruct (Hnval v E) as (_ & _ & _ & ? & _). }
  assert (H3a : h3 !! a = Some A).
  { unfold h3. rewrite lookup_upd. unfold h2. rewrite lookup_insert_ne, HA by done.
    case_decide as E; [|done]. by destruct (Hnval a E) as (_ & _ & ? & _). }
  assert (H3c : h3 !! c = Some nc).
  { unfold h3. rewrite lookup_upd. unfold h2. rewrite lookup_insert_ne, Hnc by done.
    case_decide as E; [|done]. by destruct (Hnval c E) as (_ & ? & _). }
  assert (H4c : h4 !! c = Some nc).
  { unfold h4. case_bool_decide.
    - rewrite lookup_upd, H3c. rewrite decide_False; [done|]. congruence.
    - rewrite lookup_upd, H3c. case_decide as E; [|done].
      by destruct (Hpval c E) as (_ & ? & _). }
  assert (H5v : h5 !! v = Some m).
  { unfold h5. rewrite lookup_upd, decide_False by congruence.
    unfold h4. case_bool_decide.
    - rewrite lookup_upd, H3v. rewrite decide_False; [done|]. congruence.
    - rewrite lookup_upd, H3v. case_decide as E; [|done].
      by destruct (Hpval v E) as (_ & _ & _ & ? & _). }
  assert (H5a : h5 !! a = Some (if bool_decide (Some c = child A)
                                then set_child (Some v) A else A)).
  { unfold h5. rewrite lookup_upd, decide_False by congruence.
    unfold h4. case_bool_decide.
    - rewrite lookup_upd, H3a. by rewrite decide_True.
    - rewrite lookup_upd, H3a. case_decide as E; [|done].
      by destruct (Hpval a E) as (_ & _ & ? & _). }
  assert (Hx5 : forall j x, l !! j = Some x -> j <> i ->
            exists n, h !! x = Some n /\
              h5 !! x = Some ((if decide (prev nc = Some x) then set_next (Some v) else id)
                             ((if decide (next nc = Some x) then set_prev (Some v) else id) n))).
  { intros j x Hj Hji. destruct (Hall j x Hj) as (n & Hn & _). exists n. split; [done|].
    assert (x <> c) by (intros ->; pose proof (NoDup_lookup _ _ _ _ Hnd Hj Hc); lia).
    destruct (Hin j x Hj) as [Hxa Hxv].
    unfold h5. rewrite lookup_upd, decide_False by congruence.
    assert (h3 !! x = Some ((if decide (next nc = Some x) then set_prev (Some v) else id) n))
      as H3x.
    { unfold h3. rewrite lookup_upd. unfold h2. by rewrite lookup_insert_ne, Hn. }
    unfold h4. case_bool_decide as E.
    - rewrite lookup_upd, decide_False by congruence. rewrite H3x.
      apply Hfirst in E. subst i. rewrite (decide_False (P := prev nc = Some x)); [done|].
      intros E. by destruct (Hpval x E) as (_ & _ & _ & _ & k & ? & _).
    - rewrite lookup_upd, H3x. done. }
  exists (delete c h5). split; [|split; [|split; [|split; [|split]]]].
  - unfold sJSONreplaceItemInArray. cbn [deref]. rewrite HA. cbn [rbind].
    rewrite Nat2Z.id, Hhd, head_lookup. rewrite (walk_lookup h l None Hall i O).
    cbn [rbind Nat.add]. rewrite Hc. cbn [deref]. rewrite Hnc. cbn [rbind].
    unfold update at 1. rewrite Hv. cbn [rbind].
    rewrite lookup_insert_ne, Hnc by done. cbn [rbind].
    unfold update at 1. rewrite lookup_insert_eq. cbn [rbind].
    rewrite insert_insert_eq. fold m. fold h2.
    unfold h2 at 1. rewrite lookup_insert_eq. cbn [rbind].
    assert (next m = next nc) as -> by done.
    rewrite (update_opt_upd h2 (next nc)).
    2:{ intros x Hx. destruct (Hnval x Hx) as ([n Hn] & _ & _ & ? & _).
        unfold h2. rewrite lookup_insert_ne by done. eauto. }
    cbn [rbind]. fold h3. rewrite H3a. cbn [rbind].
    assert (rbind (if bool_decide (Some c = child A)
                   then update h3 (Some a) (set_child (Some v))
                   else rbind (deref h3 (Some v))
                          (fun m0 => update h3 (prev m0) (set_next (Some v))))
              (fun h6 => rbind (update h6 (Some c) (fun n => set_prev None (set_next None n)))
                           (fun h7 => sJSONdelete h7 (Some c)))
            = Ok (delete c h5)) as Hrest.
    { assert ((if bool_decide (Some c = child A)
               then update h3 (Some a) (set_child (Some v))
               else rbind (deref h3 (Some v))
                      (fun m0 => update h3 (prev m0) (set_next (Some v)))) = Ok h4) as ->.
      { unfold h4. case_bool_decide as E.
        - by apply update_upd with A.
        - cbn [deref]. rewrite H3v. cbn [rbind].
          assert (prev m = prev nc) as -> by done.
          destruct (prev nc) as [x|] eqn:Ep.
          + destruct (Hpval x eq_refl) as ([n Hn] & ? & ? & ? & _).
            assert (is_Some (h3 !! x)) as [n3 Hn3].
            { unfold h3. rewrite lookup_upd. unfold h2.
              rewrite lookup_insert_ne, Hn by done. simpl. eauto. }
            by apply update_upd with n3.
          + exfalso. apply E, Hfirst. rewrite Hpv in Ep.
            destruct i as [|j]; [done|]. apply lookup_lt_Some in Hc.
            assert (is_Some (l !! j)) as [? ?] by (apply lookup_lt_is_Some; lia).
            congruence. }
      cbn [rbind]. rewrite (update_upd h4 c nc) by done. cbn [rbind]. fold h5.
      apply delete_leaf with (set_prev None (set_next None nc)).
      - unfold h5. rewrite lookup_upd, H4c. by rewrite decide_True.
      - destruct Hleaf as [Hl|Hl]; [by left|by right].
      - done. }
    exact Hrest.
  - split; [|split].
    + eexists. split.
      { rewrite lookup_delete_ne by done. exact H5a. }
      apply lookup_dll.
      { rewrite head_lookup. case_bool_decide as E.
        - apply Hfirst in E. subst i. simpl.
          rewrite list_lookup_insert_eq; [done|]. by apply lookup_lt_Some in Hc.
        - rewrite Hhd, head_lookup.
          rewrite list_lookup_insert_ne; [done|]. intros ->. by apply E, Hfirst. }
      intros j x Hj.
      apply list_lookup_insert_Some in Hj as [(-> & -> & Hlt)|[Hji Hj]].
      * exists m. split; [rewrite lookup_delete_ne by done; exact H5v|].
        split.
        -- assert (next m = next nc) as -> by done. rewrite Hnx.
           by rewrite list_lookup_insert_ne by lia.
        -- assert (prev m = prev nc) as -> by done. rewrite Hpv.
           destruct j as [|j]; [done|]. by rewrite list_lookup_insert_ne by lia.
      * assert (x <> c) by (intros ->; pose proof (NoDup_lookup _ _ _ _ Hnd Hj Hc); lia).
        destruct (Hx5 j x Hj) as (n & Hn & Hn5); [lia|].
        destruct (Hall j x Hj) as (n0 & Hn0 & Hnx0 & Hpv0).
        assert (n0 = n) as -> by congruence.
        eexists. split; [rewrite lookup_delete_ne by done; exact Hn5|].
        clear Hn5. split.
        -- destruct (decide (prev nc = Some x)) as [E|E].
           ++ destruct (Hpval x E) as (_ & _ & _ & _ & k & -> & Hk).
              pose proof (NoDup_lookup _ _ _ _ Hnd Hj Hk). subst k.
              cbn [set_next next]. rewrite list_lookup_insert_eq; [done|].
              by apply lookup_lt_Some in Hc.
           ++ cbn [id].
              assert (next ((if decide (next nc = Some x) then set_prev (Some v) else id) n)
                      = next n) as -> by (by destruct (decide (next nc = Some x))).
              rewrite Hnx0.
              assert (i <> S j).
              { intros ->. apply E. by rewrite Hpv. }
              by rewrite list_lookup_insert_ne by done.
        -- assert (forall n', prev ((if decide (prev nc = Some x)
                                     then set_next (Some v) else id) n') = prev n') as ->
             by (intros n'; by destruct (decide (prev nc = Some x))).
           destruct (decide (next nc = Some x)) as [E|E].
           ++ destruct (Hnval x E) as (_ & _ & _ & _ & Hk).
              pose proof (NoDup_lookup _ _ _ _ Hnd Hj Hk). subst j.
              cbn [set_prev prev]. rewrite list_lookup_insert_eq; [done|].
              by apply lookup_lt_Some in Hc.
           ++ cbn [id]. rewrite Hpv0. destruct j as [|j]; [done|].
              assert (i <> j).
              { intros ->. apply E. by rewrite Hnx. }
              by rewrite list_lookup_insert_ne by done.
    + by apply NoDup_insert_fresh.
    + intros Hin'. apply list_elem_of_lookup in Hin' as [j Hj].
      apply list_lookup_insert_Some in Hj as [(_ & ? & _)|[_ Hj]]; [done|].
      apply Ha. by eapply list_elem_of_lookup_2.
  - apply lookup_delete_eq.
  - rewrite lookup_delete_ne by done. rewrite H5v. done.
  - rewrite lookup_delete_ne by done. rewrite H5v. done.
  - intros x Hx.
    assert (x <> v) by (intros ->; apply Hx; left).
    assert (x <> a) by (intros ->; apply Hx; right; left).
    assert (x ∉ l) as Hxl by (intros ?; apply Hx; right; by right).
    assert (x <> c) by (intros ->; apply Hxl; by eapply list_elem_of_lookup_2).
    rewrite lookup_delete_ne by done.
    unfold h5. rewrite lookup_upd, decide_False by congruence.
    assert (h3 !! x = h !! x) as E3.
    { unfold h3. rewrite lookup_upd. unfold h2. rewrite lookup_insert_ne by done.
      destruct (decide (next nc = Some x)) as [E|E]; [|by destruct (h !! x)].
      destruct (Hnval x E) as (_ & _ & _ & _ & Hk). exfalso. apply Hxl.
      by eapply list_elem_of_lookup_2. }
    assert (h4 !! x = h !! x) as ->; [|by destruct (h !! x)].
    unfold h4. case_bool_decide.
    + rewrite lookup_upd, decide_False by congruence. rewrite E3. by destruct (h !! x).
    + rewrite lookup_upd, E3.
      destruct (decide (prev nc = Some x)) as [E|E]; [|by destruct (h !! x)].
      destruct (Hpval x E) as (_ & _ & _ & _ & k & _ & Hk). exfalso. apply Hxl.
      by eapply list_elem_of_lookup_2.
Qed.


Section ReplaceKey.
Context `{libc : Externals}.

(** X30: [sJSONreplaceItemInObject] replaces the first child, in the order of
    the chain, that carries the hash of the key, when that child has no
    children of its own or is a reference: the new item gets the key and
    its hash and takes the place of that child, which is freed, and later
    children with the same hash stay. When no child carries the hash the
    memory is as it was, and the new item is not given the key. *)
Theorem replaceItemInObject_first_match (h : store) (o : loc) (l : list loc)
    (k : list Z) (v : loc) (nv : node) :
  is_chain h o l -> h !! v = Some nv -> v ∉ o :: l ->
  (forall (d : nat) c nc,
     l !! d = Some c -> h !! c = Some nc -> leaf nc ->
     nameHash nc = murmurString k ->
     (forall j y, (j < d)%nat -> l !! j = Some y -> hash_at h y <> Some (murmurString k)) ->
     exists h',
       sJSONreplaceItemInObject h (Some o) k (Some v) = Ok h'
       /\ is_chain h' o (<[d := v]> l)
       /\ h' !! c = None
       /\ payload <$> h' !! v = Some (payload (set_name (Some k) (murmurString k) nv))
       /\ (forall x, x ∉ v :: o :: l -> h' !! x = h !! x))
  /\ ((forall y, y ∈ l -> hash_at h y <> Some (murmurString k)) ->
      sJSONreplaceItemInObject h (Some o) k (Some v) = Ok h).
Proof.
  intros Hc Hv Hvn. split.
  - intros d c nc Hd Hnc Hleaf Hhash Hmin.
    assert (hash_at h c = Some (murmurString k)) as Hx
      by (unfold hash_at; by rewrite Hnc, <- Hhash).
    destruct (find_chain_hit h o l _ d c Hc Hd Hx Hmin) as (A & HA & Hfind).
    set (h1 := <[v := set_name (Some k) (murmurString k) nv]> h).
    assert (c <> v) as Hcv.
    { intros ->. apply Hvn. right. by eapply list_elem_of_lookup_2. }
    assert (is_chain h1 o l) as Hc1.
    { apply (is_chain_frame h); [done|]. intros x Hin. unfold h1.
      rewrite lookup_insert_ne; [done|]. by intros <-. }
    destruct (replace_index h1 o l v (set_name (Some k) (murmurString k) nv) d c nc Hc1)
      as (h' & Hr & Hc' & Hfree & Hp & _ & Hf); try done.
    { unfold h1. by rewrite lookup_insert_eq. }
    { unfold h1. by rewrite lookup_insert_ne. }
    exists h'. split; [|split; [done|split; [done|split; [done|]]]].
    + unfold sJSONreplaceItemInObject, deref. rewrite HA. cbn [rbind].
      rewrite Hfind. cbn [rbind fst snd]. unfold update. rewrite Hv. cbn [rbind].
      exact Hr.
    + intros x Hin. rewrite Hf by done. unfold h1.
      rewrite lookup_insert_ne; [done|]. intros <-. apply Hin. left.
  - intros Hnone. pose proof (chain_steps _ _ _ Hc) as Hs.
    destruct Hc as [(A & HA & Hdl) _].
    destruct (dll_lookup _ _ _ _ Hdl) as [Hhd Hall].
    unfold sJSONreplaceItemInObject, deref. rewrite HA. cbn [rbind].
    rewrite Hhd, head_lookup.
    destruct (find_miss h l None Hall (steps h) (murmurString k) O 0) as [r Hr].
    + unfold steps. lia.
    + intros j y _ Hj. apply Hnone. by eapply list_elem_of_lookup_2.
    + by rewrite Hr.
Qed.

End ReplaceKey.

(** ** Closed instances *)

(** a chain of three nodes in a closed store, link by link *)
Ltac chain_of_three :=
  split; [|split];
  [ eexists; split; [reflexivity|]; simpl;
    split; [reflexivity|]; eexists; split; [reflexivity|]; split; [reflexivity|]; simpl;
    split; [reflexivity|]; eexists; split; [reflexivity|]; split; [reflexivity|]; simpl;
    split; [reflexivity|]; eexists; split; [reflexivity|]; split; reflexivity
  | apply (bool_decide_unpack _); vm_compute; exact I
  | apply (bool_decide_unpack _); vm_compute; exact I ].

(** the array of [spare_store] is well formed *)
Lemma spare_chain : is_chain spare_store 1%positive [2%positive; 3%positive; 4%positive].
Proof. chain_of_three. Defined.

(** the object of [members_store] is well formed *)
Lemma members_chain hash :
  is_chain (members_store hash) 1%positive [2%positive; 3%positive; 4%positive].
Proof. chain_of_three. Defined.

(** a position of the three children *)
Ltac each_child H :=
  repeat match type of H with
         | (_ :: _) !! ?j = Some _ => destruct j as [|j]; simpl in H
         | [] !! _ = Some _ => discriminate H
         end.

(** the hash is part of what a node holds *)
Lemma payload_hash (o : option node) (n : node) :
  payload <$> o = Some (payload n) -> nameHash <$> o = Some (nameHash n).
Proof.
  destruct o as [m|]; [|discriminate]. simpl. unfold payload. intros H.
  inversion H. reflexivity.
Qed.

(** X16 on the array [10, 20, 30]. *)
Lemma array_reads_example :
  sJSONgetArraySize three_store (Some 1%positive) = Ok 3
  /\ forall i : nat,
       sJSONgetArrayItem three_store (Some 1%positive) (Z.of_nat i)
       = Ok ([2%positive; 3%positive; 4%positive] !! i).
Proof. apply (array_reads three_store 1%positive _ three_chain). Defined.

(** X17 on an object with two members of the key [b]: the first is found. *)
Lemma getObjectItem_first_match_example :
  sJSONgetObjectItem (members_store ref_hash) (Some 1%positive) (ref_hash (str "b"))
  = Ok (Some 3%positive).
Proof.
  apply (proj1 (getObjectItem_first_match (members_store ref_hash) 1%positive _
                  (ref_hash (str "b")) (members_chain ref_hash)) 1%nat 3%positive).
  - reflexivity.
  - reflexivity.
  - intros j y Hj Hy. destruct j as [|j]; [|lia]. simpl in Hy. inversion Hy; subst y.
    vm_compute. discriminate.
Defined.

(** X18 on the same object. *)
Lemma hasMapMember_iff_example :
  exists b, hasMapMember (members_store ref_hash) (Some 1%positive) (ref_hash (str "b")) = Ok b
            /\ (b = true <-> exists y, y ∈ [2%positive; 3%positive; 4%positive]
                                      /\ hash_at (members_store ref_hash) y
                                         = Some (ref_hash (str "b"))).
Proof.
  apply (hasMapMember_iff (members_store ref_hash) 1%positive _ (ref_hash (str "b"))
           (members_chain ref_hash)).
Defined.

(** X19 on the array [10, 20, 30] and the number at 5. *)
Lemma addItemToArray_appends_example :
  exists h',
    sJSONaddItemToArray spare_store (Some 1%positive) (Some 5%positive) = Ok h'
    /\ is_chain h' 1%positive [2%positive; 3%positive; 4%positive; 5%positive]
    /\ sJSONgetArraySize h' (Some 1%positive) = Ok 4.
Proof.
  destruct (addItemToArray_appends spare_store 1%positive _ 5%positive spare_chain)
    as [(h' & Ha & Hc & Hs & _) _].
  - eexists. split; [reflexivity|]. split; reflexivity.
  - apply (bool_decide_unpack _). vm_compute. exact I.
  - discriminate.
  - exists h'. split; [exact Ha|]. split; [exact Hc|exact Hs].
Defined.

(** X20 on the array [10, 20, 30], with the indices 7 and -2. *)
Lemma detachItemFromArray_bounds_example :
  sJSONdetachItemFromArray three_store (Some 1%positive) 7 = Ok (None, three_store)
  /\ exists h', sJSONdetachItemFromArray three_store (Some 1%positive) (-2)
                = Ok (Some 2%positive, h')
                /\ is_chain h' 1%positive [3%positive; 4%positive].
Proof.
  destruct (detachItemFromArray_bounds three_store 1%positive _ 7 three_chain) as [H7 _].
  destruct (detachItemFromArray_bounds three_store 1%positive _ (-2) three_chain) as [_ H2].
  split.
  - apply H7. simpl. lia.
  - destruct (H2 ltac:(lia) 2%positive eq_refl) as (h' & Hd & Hc & _).
    exists h'. split; [exact Hd|exact Hc].
Defined.

(** X21 on the array [10, 20, 30]: the first child moves to the end. *)
Lemma detach_then_add_example :
  exists h1 h2,
    sJSONdetachItemFromArray three_store (Some 1%positive) 0 = Ok (Some 2%positive, h1)
    /\ sJSONaddItemToArray h1 (Some 1%positive) (Some 2%positive) = Ok h2
    /\ is_chain h2 1%positive [3%positive; 4%positive; 2%positive].
Proof.
  destruct (detach_then_add three_store 1%positive _ 0%nat 2%positive three_chain eq_refl)
    as (h1 & h2 & Hd & Ha & Hc & _).
  exists h1, h2. split; [exact Hd|]. split; [exact Ha|exact Hc].
Defined.

(** X22 on an object with two members of the key [b]: the first is detached
    and the second stays. *)
Lemma detachItemFromObject_first_match_example :
  exists h',
    sJSONdetachItemFromObject (libc := reference_libc) (members_store ref_hash)
      (Some 1%positive) (str "b") = Ok (Some 3%positive, h')
    /\ is_chain h' 1%positive [2%positive; 4%positive].
Proof.
  destruct (proj1 (detachItemFromObject_first_match (libc := reference_libc)
                     (members_store ref_hash) 1%positive _ (str "b")
                     (members_chain ref_hash)) 1%nat 3%positive)
    as (h' & Hd & Hc & _).
  - reflexivity.
  - reflexivity.
  - intros j y Hj Hy. destruct j as [|j]; [|lia]. simpl in Hy. inversion Hy; subst y.
    vm_compute. discriminate.
  - exists h'. split; [exact Hd|exact Hc].
Defined.

(** X23 on the array [10, 20, 30] beside the number at 5: the array and its
    three numbers are freed and the number at 5 stays as it is. *)
Lemma sJSONdelete_frees_example :
  exists h',
    sJSONdelete spare_store (Some 1%positive) = Ok h'
    /\ h' !! 1%positive = None /\ h' !! 3%positive = None
    /\ h' !! 5%positive = spare_store !! 5%positive.
Proof.
  destruct (proj2 (sJSONdelete_frees spare_store 1%positive) _ _ spare_chain
              eq_refl eq_refl eq_refl) as (h' & Hd & Hh).
  - intros c Hc.
    apply elem_of_cons in Hc as [->|Hc]; [eexists; split; [reflexivity|left; reflexivity]|].
    apply elem_of_cons in Hc as [->|Hc]; [eexists; split; [reflexivity|left; reflexivity]|].
    apply elem_of_cons in Hc as [->|Hc]; [eexists; split; [reflexivity|left; reflexivity]|].
    by apply elem_of_nil in Hc.
  - exists h'. split; [exact Hd|]. rewrite !Hh. split; [|split]; reflexivity.
Defined.

(** X24 on the array [10, 20, 30]: a reference to the array, made and
    deleted. *)
Lemma reference_round_trip_example :
  exists r h1,
    create_reference three_store (Some 1%positive) = Ok (Some r, h1)
    /\ three_store !! r = None
    /\ child <$> h1 !! r = Some (Some 2%positive)
    /\ sJSONdelete h1 (Some r) = Ok three_store.
Proof.
  destruct (reference_round_trip three_store 1%positive _ eq_refl)
    as (r & h1 & Hc & Hr & H1 & _ & Hd).
  exists r, h1. split; [exact Hc|]. split; [exact Hr|]. split; [|exact Hd].
  rewrite H1. reflexivity.
Defined.

(** X25 on the array [10, 20, 30] and the number at 5. *)
Lemma addItemReferenceToArray_appends_example :
  exists r h',
    sJSONaddItemReferenceToArray spare_store (Some 1%positive) (Some 5%positive) = Ok h'
    /\ spare_store !! r = None
    /\ is_chain h' 1%positive [2%positive; 3%positive; 4%positive; r].
Proof.
  destruct (addItemReferenceToArray_appends spare_store 1%positive _ 5%positive _
              spare_chain eq_refl) as (r & h' & Ha & Hr & Hc & _).
  exists r, h'. split; [exact Ha|]. split; [exact Hr|exact Hc].
Defined.

(** X26 on the array [10, 20, 30]: the number 20 is deleted. *)
Lemma deleteItemFromArray_leaf_example :
  exists h',
    sJSONdeleteItemFromArray three_store (Some 1%positive) 1 = Ok h'
    /\ is_chain h' 1%positive [2%positive; 4%positive]
    /\ h' !! 3%positive = None.
Proof.
  destruct (deleteItemFromArray_leaf three_store 1%positive _ 1%nat 3%positive _
              three_chain eq_refl eq_refl) as (h' & Hd & Hc & Hf & _).
  - left. reflexivity.
  - exists h'. split; [exact Hd|]. split; [exact Hc|exact Hf].
Defined.

(** X27 on two strings, in an empty memory. *)
Lemma createStringArray_reads_example :
  exists ar l h',
    sJSONcreateStringArray ∅ [str "a"; str "b"] 2 = Ok (Some ar, h')
    /\ is_chain h' ar l
    /\ sJSONgetArraySize h' (Some ar) = Ok 2
    /\ (forall (i : nat) x, l !! i = Some x ->
          exists s n, [str "a"; str "b"] !! i = Some s /\ h' !! x = Some n
                      /\ type n = sJSON_String /\ valueString n = Some s).
Proof.
  destruct (proj1 (createStringArray_reads ∅ [str "a"; str "b"] 2))
    as (ar & l & h' & Hr & _ & Hc & Hs & Hv & _); [simpl; lia|].
  exists ar, l, h'. split; [exact Hr|]. split; [exact Hc|]. split; [exact Hs|].
  intros i x Hi. destruct (Hv i x Hi) as (s & n & H1 & H2 & _ & H3 & H4).
  exists s, n. split; [exact H1|]. split; [exact H2|]. split; [exact H3|exact H4].
Defined.

(** X28 on the doubles 1.5 and 2, in an empty memory. *)
Lemma createNumberArray_reads_example :
  exists ar l h',
    sJSONcreateDoubleArray (libc := reference_libc) ∅ [1.5%float; 2%float] 2
    = Ok (Some ar, h')
    /\ is_chain h' ar l
    /\ sJSONgetArraySize h' (Some ar) = Ok 2.
Proof.
  destruct (proj1 (createNumberArray_reads (libc := reference_libc) ∅
                     [1.5%float; 2%float] [] 2))
    as (ar & l & h' & Hr & _ & Hc & Hs & _); [simpl; lia|].
  exists ar, l, h'. split; [exact Hr|]. split; [exact Hc|exact Hs].
Defined.


(** X30 on an object with two members of the key [b]: the number at 5
    takes the place of the first. *)
Lemma replaceItemInObject_first_match_example :
  exists h',
    sJSONreplaceItemInObject (libc := reference_libc) (members_store ref_hash)
      (Some 1%positive) (str "b") (Some 5%positive) = Ok h'
    /\ is_chain h' 1%positive [2%positive; 5%positive; 4%positive]
    /\ h' !! 3%positive = None
    /\ hash_at h' 5%positive = Some (ref_hash (str "b")).
Proof.
  destruct (replaceItemInObject_first_match (libc := reference_libc)
              (members_store ref_hash) 1%positive _ (str "b") 5%positive _
              (members_chain ref_hash) eq_refl) as [H _].
  - apply (bool_decide_unpack _). vm_compute. exact I.
  - destruct (H 1%nat 3%positive _ eq_refl eq_refl) as (h' & Hr & Hc & Hf & Hp & _).
    + left. reflexivity.
    + reflexivity.
    + intros j y Hj Hy. destruct j as [|j]; [|lia]. simpl in Hy. inversion Hy; subst y.
      vm_compute. discriminate.
    + exists h'. split; [exact Hr|]. split; [exact Hc|]. split; [exact Hf|].
      exact (payload_hash _ _ Hp).
Defined.

End ChainMore.
